(** * shinya-irc: the IRC protocol engine of [app.py], embedded in Rocq

    The development follows the layout of the source file:

    - [Py]: the few built-ins of Python's [str] the server relies on
      ([split], [lower], [strip], [join], ...), on ASCII text;
    - [OrderedDict]: Python's insertion-ordered [dict] with string keys;
    - [Channel], [Client]: the two classes holding the mutable state;
    - the [IRCServer] handlers, written in a small state/output/exception
      monad [M], with [dispatch] on top;
    - the properties of the specification, one theorem each.

    Conventions.  A [Client] object is referred to by its identity
    ([cid]); the objects live in the store [objs] of the server, so that
    the registry [clients], the [members] of a channel and the connection
    driver all alias the same object, as in the source.  Dictionaries are
    association lists in insertion order (the order is observable in the
    fan-out loops and in the names burst); Python sets are [gset]s, and a
    loop over a set, whose order Python leaves open, goes through its
    [elements].  What a handler sends is kept as the list of the calls of
    [Client.send] and [Client.reply] it makes, in order; a send that
    fails is swallowed by the source and changes nothing else.
    Text is ASCII: the case maps and the whitespace test act on code
    points below 128 and leave the others alone.  The regular-expression
    engine is a parameter of the development; the two anchored character
    class patterns of [valid_nick] and [valid_channel] are written out.
    The timestamps [created], [topic_time], [signon] and [last_activity]
    are written by the source but never read, and are left out. *)

From Stdlib Require Import Ascii String ZArith Bool.
From stdpp Require Import base option list gmap strings pretty.

Local Open Scope Z_scope.
Local Open Scope stdpp_scope.

(* ===================================================================== *)
(** * Python string built-ins *)
(* ===================================================================== *)

Module Py.

Definition code (c : ascii) : N := N_of_ascii c.

Definition in_range (lo hi : N) (c : ascii) : bool :=
  ((lo <=? code c) && (code c <=? hi))%N.

(** [str.isspace] on one ASCII character: TAB..CR, FS..US and space. *)
Definition isspace (c : ascii) : bool :=
  in_range 9 13 c || in_range 28 32 c.

Definition isupper (c : ascii) : bool := in_range 65 90 c.
Definition islower (c : ascii) : bool := in_range 97 122 c.
Definition isdigit (c : ascii) : bool := in_range 48 57 c.
Definition isalpha (c : ascii) : bool := isupper c || islower c.

Definition lower_char (c : ascii) : ascii :=
  if isupper c then ascii_of_N (code c + 32) else c.
Definition upper_char (c : ascii) : ascii :=
  if islower c then ascii_of_N (code c - 32) else c.

Fixpoint map (f : ascii → ascii) (s : string) : string :=
  match s with
  | EmptyString => EmptyString
  | String c s' => String (f c) (map f s')
  end.

(** [s.lower()] and [s.upper()] *)
Definition lower : string → string := map lower_char.
Definition upper : string → string := map upper_char.

(** [s.startswith(p)]: [Some rest] when [s = p + rest] *)
Fixpoint strip_prefix (p s : string) : option string :=
  match p, s with
  | EmptyString, _ => Some s
  | String a p', String b s' =>
      if decide (a = b) then strip_prefix p' s' else None
  | String _ _, EmptyString => None
  end.

Definition startswith (s p : string) : bool :=
  bool_decide (is_Some (strip_prefix p s)).

(** [s.partition(sep)] restricted to the case where [sep] occurs:
    the text before and after the first occurrence of [sep]. *)
Fixpoint partition (sep s : string) : option (string * string) :=
  match strip_prefix sep s with
  | Some rest => Some (EmptyString, rest)
  | None =>
      match s with
      | EmptyString => None
      | String c s' =>
          match partition sep s' with
          | Some (a, b) => Some (String c a, b)
          | None => None
          end
      end
  end.

(** [sep in s] *)
Definition contains (sep s : string) : bool :=
  bool_decide (is_Some (partition sep s)).

(** [s.split(sep, 1)] *)
Definition split1 (sep s : string) : list string :=
  match partition sep s with
  | Some (a, b) => [a; b]
  | None => [s]
  end.

(** [s.split()]: maximal runs of non-whitespace characters.  [w] is the
    word being read. *)
Fixpoint words (w s : string) : list string :=
  match s with
  | EmptyString => if decide (w = "") then [] else [w]
  | String c s' =>
      if isspace c
      then (if decide (w = "") then words "" s' else w :: words "" s')
      else words (w +:+ String c "") s'
  end.

Definition split (s : string) : list string := words "" s.

(** [s.split(c)] for a one-character separator: every occurrence
    splits, empty fields are kept. *)
Fixpoint fields (sep : ascii) (w s : string) : list string :=
  match s with
  | EmptyString => [w]
  | String c s' =>
      if decide (c = sep) then w :: fields sep "" s'
      else fields sep (w +:+ String c "") s'
  end.

Definition split_on (sep : ascii) (s : string) : list string :=
  fields sep "" s.

(** [sep.join(l)] *)
Definition join (sep : string) (l : list string) : string :=
  String.concat sep l.

(** [s.lstrip(chars)], [s.rstrip(chars)], [s.strip(chars)], with the
    character set given as a predicate. *)
Fixpoint lstrip (p : ascii → bool) (s : string) : string :=
  match s with
  | EmptyString => EmptyString
  | String c s' => if p c then lstrip p s' else s
  end.

Fixpoint rstrip (p : ascii → bool) (s : string) : string :=
  match s with
  | EmptyString => EmptyString
  | String c s' =>
      match rstrip p s' with
      | EmptyString => if p c then EmptyString else String c EmptyString
      | r => String c r
      end
  end.

Definition strip_set (p : ascii → bool) (s : string) : string :=
  rstrip p (lstrip p s).

(** [s.strip()] *)
Definition strip : string → string := strip_set isspace.

(** [s[:n]] *)
Fixpoint take (n : nat) (s : string) : string :=
  match n, s with
  | S n', String c s' => String c (take n' s')
  | _, _ => EmptyString
  end.

(** [s[1:]] *)
Definition tail (s : string) : string :=
  match s with
  | EmptyString => EmptyString
  | String _ s' => s'
  end.

Fixpoint forallb (p : ascii → bool) (s : string) : bool :=
  match s with
  | EmptyString => true
  | String c s' => p c && forallb p s'
  end.

(** [c in s] for a character [c] *)
Fixpoint mem (c : ascii) (s : string) : bool :=
  match s with
  | EmptyString => false
  | String d s' => Ascii.eqb c d || mem c s'
  end.

(** [int(s)] on an ASCII decimal literal: optional surrounding
    whitespace (TAB..CR and space: the separators FS..US, which
    [str.strip] removes, are not skipped here), an optional sign, then
    digits, single underscores allowed between digits.  [None] stands
    for [ValueError]. *)
Fixpoint digits (acc : Z) (prev_digit : bool) (s : string) : option Z :=
  match s with
  | EmptyString => if prev_digit then Some acc else None
  | String c s' =>
      if isdigit c
      then digits (10 * acc + Z.of_N (code c - 48)) true s'
      else if bool_decide (c = "_"%char) && prev_digit
      then (match s' with
            | String d _ => if isdigit d then digits acc false s' else None
            | EmptyString => None
            end)
      else None
  end.

Definition int (s : string) : option Z :=
  match strip_set (λ c, in_range 9 13 c || in_range 32 32 c) s with
  | String "-" r => Z.opp <$> digits 0 false r
  | String "+" r => digits 0 false r
  | r => digits 0 false r
  end.

(** [str(n)] *)
Definition str (n : Z) : string := pretty n.

(** [sorted(l)] on characters, by code point (insertion sort). *)
Fixpoint insert_sorted (c : ascii) (l : list ascii) : list ascii :=
  match l with
  | [] => [c]
  | d :: l' => if (code c <=? code d)%N then c :: l else d :: insert_sorted c l'
  end.

Definition sorted (l : list ascii) : list ascii :=
  foldr insert_sorted [] l.

End Py.

(* ===================================================================== *)
(** * Python's insertion-ordered [dict], with string keys *)
(* ===================================================================== *)

Module OrderedDict.
Section Dict.
Context {V : Type}.

(** [d.get(k)] *)
Fixpoint get (d : list (string * V)) (k : string) : option V :=
  match d with
  | [] => None
  | (k', v) :: d' => if decide (k' = k) then Some v else get d' k
  end.

(** [d[k] = v]: an existing key keeps its position, a new key goes
    last. *)
Fixpoint set (d : list (string * V)) (k : string) (v : V)
  : list (string * V) :=
  match d with
  | [] => [(k, v)]
  | (k', v') :: d' =>
      if decide (k' = k) then (k, v) :: d' else (k', v') :: set d' k v
  end.

(** [d.pop(k, None)], also [del d[k]] on a key that is present: the
    binding of [k] goes (keys are unique in a dictionary, so that is
    at most one entry). *)
Fixpoint pop (d : list (string * V)) (k : string) : list (string * V) :=
  match d with
  | [] => []
  | (k', v) :: d' => if decide (k' = k) then pop d' k else (k', v) :: pop d' k
  end.

(** [k in d] *)
Definition mem (d : list (string * V)) (k : string) : bool :=
  bool_decide (is_Some (get d k)).

Definition keys (d : list (string * V)) : list string := d.*1.
Definition values (d : list (string * V)) : list V := d.*2.
End Dict.
End OrderedDict.

(* ===================================================================== *)
(** * Constants *)
(* ===================================================================== *)

Definition SERVER_NAME : string := "SHINYA-IRC".
Definition SERVER_VERSION : string := "1.0".
Definition MOTD : list string :=
  [ "*** Welcome to " +:+ SERVER_NAME +:+ " v" +:+ SERVER_VERSION +:+ " ***";
    "*** WebSocket IRC Server (RFC 1459) ***";
    "*** Have fun and be nice! ***" ].

Definition RPL_WELCOME : string := "001".
Definition RPL_YOURHOST : string := "002".
Definition RPL_CREATED : string := "003".
Definition RPL_MYINFO : string := "004".
Definition RPL_MOTDSTART : string := "375".
Definition RPL_MOTD : string := "372".
Definition RPL_ENDOFMOTD : string := "376".
Definition RPL_NOTOPIC : string := "331".
Definition RPL_TOPIC : string := "332".
Definition RPL_NAMREPLY : string := "353".
Definition RPL_ENDOFNAMES : string := "366".
Definition RPL_LIST : string := "322".
Definition RPL_LISTEND : string := "323".
Definition RPL_WHOREPLY : string := "352".
Definition RPL_ENDOFWHO : string := "315".
Definition RPL_WHOISUSER : string := "311".
Definition RPL_WHOISSERVER : string := "312".
Definition RPL_WHOISCHANNELS : string := "319".
Definition RPL_ENDOFWHOIS : string := "318".
Definition RPL_CHANNELMODEIS : string := "324".
Definition RPL_INVITING : string := "341".
Definition RPL_BANLIST : string := "367".
Definition RPL_ENDOFBANLIST : string := "368".
Definition RPL_AWAY : string := "301".
Definition RPL_UNAWAY : string := "305".
Definition RPL_NOWAWAY : string := "306".
Definition RPL_INFO : string := "371".
Definition RPL_ENDOFINFO : string := "374".
Definition RPL_VERSION : string := "351".
Definition RPL_LUSERCLIENT : string := "251".
Definition RPL_LUSEROP : string := "252".
Definition RPL_LUSERUNKNOWN : string := "253".
Definition RPL_LUSERCHANNELS : string := "254".
Definition RPL_LUSERME : string := "255".
Definition RPL_TIME : string := "391".
Definition RPL_ISON : string := "303".
Definition RPL_USERHOST : string := "302".

Definition ERR_NOSUCHNICK : string := "401".
Definition ERR_NOSUCHCHANNEL : string := "403".
Definition ERR_CANNOTSENDTOCHAN : string := "404".
Definition ERR_UNKNOWNCOMMAND : string := "421".
Definition ERR_NONICKNAMEGIVEN : string := "431".
Definition ERR_ERRONEUSNICKNAME : string := "432".
Definition ERR_NICKNAMEINUSE : string := "433".
Definition ERR_USERNOTINCHANNEL : string := "441".
Definition ERR_NOTONCHANNEL : string := "442".
Definition ERR_NEEDMOREPARAMS : string := "461".
Definition ERR_ALREADYREGISTRED : string := "462".
Definition ERR_CHANNELISFULL : string := "471".
Definition ERR_INVITEONLYCHAN : string := "473".
Definition ERR_BANNEDFROMCHAN : string := "474".
Definition ERR_BADCHANNELKEY : string := "475".
Definition ERR_CHANOPRIVSNEEDED : string := "482".
Definition ERR_UMODEUNKNOWNFLAG : string := "501".
Definition ERR_USERSDONTMATCH : string := "502".
Definition ERR_NOPRIVILEGES : string := "481".

(* ===================================================================== *)
(** * Validation *)
(* ===================================================================== *)

(** [$] in a pattern handed to [re.match] also matches just before a
    final line feed; neither character class contains the line feed. *)
Fixpoint drop_final_newline (s : string) : string :=
  match s with
  | EmptyString => EmptyString
  | String c EmptyString =>
      if decide (c = "010"%char) then EmptyString else s
  | String c s' => String c (drop_final_newline s')
  end.

Definition nick_special (c : ascii) : bool := Py.mem c "[\]^_`{|}".

Definition nick_first (c : ascii) : bool := Py.isalpha c || nick_special c.

Definition nick_rest (c : ascii) : bool :=
  Py.isalpha c || Py.isdigit c || nick_special c || bool_decide (c = "-"%char).

Definition valid_nick (nick : string) : bool :=
  match drop_final_newline nick with
  | String c rest =>
      nick_first c && Py.forallb nick_rest rest
      && bool_decide (String.length rest ≤ 29)%nat
  | EmptyString => false
  end.

Definition channel_sigil (c : ascii) : bool := Py.mem c "#&!+".

Definition channel_body (c : ascii) : bool :=
  negb (Py.mem c (String "000" (String "007" (String "010" (String "013" " ,"))))).

Definition valid_channel (name : string) : bool :=
  match drop_final_newline name with
  | String c rest =>
      channel_sigil c && Py.forallb channel_body rest
      && bool_decide (1 ≤ String.length rest ≤ 49)%nat
  | EmptyString => false
  end.

(** [target.startswith(("#", "&", "!", "+"))] *)
Definition is_channel_target (target : string) : bool :=
  match target with
  | String c _ => channel_sigil c
  | EmptyString => false
  end.

(* ===================================================================== *)
(** * State *)
(* ===================================================================== *)

(** Identity of a [Client] object. *)
Definition cid : Type := nat.

Module Channel.

Record t : Type := mk {
  name : string;
  topic : string;
  topic_setter : string;
  members : list (string * cid);      (* nick -> client *)
  ops : gset string;
  voices : gset string;
  modes : gset ascii;
  key : option string;
  limit : option Z;
  invites : gset string;
  bans : list string
}.

(** [Channel(name)] *)
Definition new (name : string) : t :=
  mk name "" "" [] ∅ ∅ ∅ None None ∅ [].

Definition with_topic (tp setter : string) (ch : t) : t :=
  mk (name ch) tp setter (members ch) (ops ch) (voices ch) (modes ch)
     (key ch) (limit ch) (invites ch) (bans ch).
Definition with_members (m : list (string * cid)) (ch : t) : t :=
  mk (name ch) (topic ch) (topic_setter ch) m (ops ch) (voices ch)
     (modes ch) (key ch) (limit ch) (invites ch) (bans ch).
Definition with_ops (o : gset string) (ch : t) : t :=
  mk (name ch) (topic ch) (topic_setter ch) (members ch) o (voices ch)
     (modes ch) (key ch) (limit ch) (invites ch) (bans ch).
Definition with_voices (v : gset string) (ch : t) : t :=
  mk (name ch) (topic ch) (topic_setter ch) (members ch) (ops ch) v
     (modes ch) (key ch) (limit ch) (invites ch) (bans ch).
Definition with_modes (m : gset ascii) (ch : t) : t :=
  mk (name ch) (topic ch) (topic_setter ch) (members ch) (ops ch)
     (voices ch) m (key ch) (limit ch) (invites ch) (bans ch).
Definition with_key (k : option string) (ch : t) : t :=
  mk (name ch) (topic ch) (topic_setter ch) (members ch) (ops ch)
     (voices ch) (modes ch) k (limit ch) (invites ch) (bans ch).
Definition with_limit (l : option Z) (ch : t) : t :=
  mk (name ch) (topic ch) (topic_setter ch) (members ch) (ops ch)
     (voices ch) (modes ch) (key ch) l (invites ch) (bans ch).
Definition with_invites (i : gset string) (ch : t) : t :=
  mk (name ch) (topic ch) (topic_setter ch) (members ch) (ops ch)
     (voices ch) (modes ch) (key ch) (limit ch) i (bans ch).
Definition with_bans (b : list string) (ch : t) : t :=
  mk (name ch) (topic ch) (topic_setter ch) (members ch) (ops ch)
     (voices ch) (modes ch) (key ch) (limit ch) (invites ch) b.

(** [ch.add_member(client)], with the client's nick read by the caller *)
Definition add_member (nick : string) (c : cid) (ch : t) : t :=
  with_members (OrderedDict.set (members ch) nick c) ch.

Definition remove_member (nick : string) (ch : t) : t :=
  with_voices (voices ch ∖ {[nick]})
    (with_ops (ops ch ∖ {[nick]})
       (with_members (OrderedDict.pop (members ch) nick) ch)).

Definition rename_member (old_nick new_nick : string) (c : cid) (ch : t) : t :=
  let ch1 :=
    if OrderedDict.mem (members ch) old_nick
    then with_members
           (OrderedDict.set (OrderedDict.pop (members ch) old_nick) new_nick c) ch
    else ch in
  let ch2 :=
    if decide (old_nick ∈ ops ch1)
    then with_ops ((ops ch1 ∖ {[old_nick]}) ∪ {[new_nick]}) ch1
    else ch1 in
  if decide (old_nick ∈ voices ch2)
  then with_voices ((voices ch2 ∖ {[old_nick]}) ∪ {[new_nick]}) ch2
  else ch2.

Definition prefix_for (ch : t) (nick : string) : string :=
  if decide (nick ∈ ops ch) then "@"
  else if decide (nick ∈ voices ch) then "+"
  else "".

Definition mode_letters (m : gset ascii) : string :=
  string_of_list_ascii (Py.sorted (elements m)).

Definition mode_string (ch : t) : string :=
  let m := "+" +:+ mode_letters (modes ch) in
  let m := match key ch with
           | Some k => if decide (k = "") then m else m +:+ " " +:+ k
           | None => m
           end in
  match limit ch with
  | Some l => m +:+ " " +:+ Py.str l
  | None => m
  end.

(** [ban.replace("*", ".*").replace("?", ".")] *)
Fixpoint glob_to_regex (ban : string) : string :=
  match ban with
  | EmptyString => EmptyString
  | String c r =>
      if decide (c = "*"%char) then "." +:+ String "*" (glob_to_regex r)
      else if decide (c = "?"%char) then String "." (glob_to_regex r)
      else String c (glob_to_regex r)
  end.

End Channel.

Module Client.

Record t : Type := mk {
  nick : string;
  user : string;
  realname : string;
  host : string;
  registered : bool;
  away_msg : option string;
  channels : gset string;
  modes : gset ascii;
  _nick_set : bool;
  _user_set : bool
}.

(** [Client(ws, server)], the peer address being [host] *)
Definition new (host : string) : t :=
  mk "*" "" "" host false None ∅ ∅ false false.

Definition with_nick (n : string) (c : t) : t :=
  mk n (user c) (realname c) (host c) (registered c) (away_msg c)
     (channels c) (modes c) (_nick_set c) (_user_set c).
Definition with_user (u r : string) (c : t) : t :=
  mk (nick c) u r (host c) (registered c) (away_msg c)
     (channels c) (modes c) (_nick_set c) (_user_set c).
Definition with_registered (b : bool) (c : t) : t :=
  mk (nick c) (user c) (realname c) (host c) b (away_msg c)
     (channels c) (modes c) (_nick_set c) (_user_set c).
Definition with_away_msg (a : option string) (c : t) : t :=
  mk (nick c) (user c) (realname c) (host c) (registered c) a
     (channels c) (modes c) (_nick_set c) (_user_set c).
Definition with_channels (chs : gset string) (c : t) : t :=
  mk (nick c) (user c) (realname c) (host c) (registered c) (away_msg c)
     chs (modes c) (_nick_set c) (_user_set c).
Definition with_modes (m : gset ascii) (c : t) : t :=
  mk (nick c) (user c) (realname c) (host c) (registered c) (away_msg c)
     (channels c) m (_nick_set c) (_user_set c).
Definition with_nick_set (b : bool) (c : t) : t :=
  mk (nick c) (user c) (realname c) (host c) (registered c) (away_msg c)
     (channels c) (modes c) b (_user_set c).
Definition with_user_set (b : bool) (c : t) : t :=
  mk (nick c) (user c) (realname c) (host c) (registered c) (away_msg c)
     (channels c) (modes c) (_nick_set c) b.

(** the [mask] property *)
Definition mask (c : t) : string :=
  nick c +:+ "!" +:+ user c +:+ "@" +:+ host c.

End Client.

(** The server object.  [objs] is the store of [Client] objects, indexed
    by identity; [_all_clients] is the set of live connections. *)
Record IRCServer : Type := mkServer {
  clients : list (string * cid);            (* nick -> client (registered) *)
  channels : list (string * Channel.t);     (* name -> channel *)
  started : string;
  _all_clients : gset cid;
  objs : gmap cid Client.t
}.

Definition with_clients (r : list (string * cid)) (s : IRCServer) : IRCServer :=
  mkServer r (channels s) (started s) (_all_clients s) (objs s).
Definition with_channels (r : list (string * Channel.t)) (s : IRCServer) : IRCServer :=
  mkServer (clients s) r (started s) (_all_clients s) (objs s).
Definition with_all_clients (a : gset cid) (s : IRCServer) : IRCServer :=
  mkServer (clients s) (channels s) (started s) a (objs s).
Definition with_objs (o : gmap cid Client.t) (s : IRCServer) : IRCServer :=
  mkServer (clients s) (channels s) (started s) (_all_clients s) o.

(** [IRCServer(host, port)], started at time [t] *)
Definition new_server (t : string) : IRCServer := mkServer [] [] t ∅ ∅.

(** What a handler hands to the transport: a line given to
    [Client.send], a call of [Client.reply] (with the nick the client had
    at the time of the call), or the closing of the socket. *)
Inductive Out : Type :=
| Send (to : cid) (line : string)
| Reply (to : cid) (target code : string) (params : list string)
| Close (to : cid).

(** The last parameter goes out as trailing text ([reply], [send_from]). *)
Fixpoint colon_last (parts : list string) : list string :=
  match parts with
  | [] => []
  | [p] => [":" +:+ p]
  | p :: ps => p :: colon_last ps
  end.

(** The line [Client.reply] builds. *)
Definition reply_line (target code : string) (params : list string) : string :=
  ":" +:+ SERVER_NAME +:+ " " +:+ code +:+ " " +:+ target +:+ " "
  +:+ Py.join " " (colon_last params).

(** The line [Client.send_from] builds. *)
Definition send_from_line (origin cmd : string) (params : list string) : string :=
  ":" +:+ origin +:+ " " +:+ cmd +:+ " " +:+ Py.join " " (colon_last params).

(** The text that reaches the socket of the receiving client. *)
Definition wire (o : Out) : option (cid * string) :=
  match o with
  | Send to line => Some (to, line)
  | Reply to target code params => Some (to, reply_line target code params)
  | Close _ => None
  end.

(* ===================================================================== *)
(** * The handler monad *)
(* ===================================================================== *)

(** A handler reads and writes the server object, hands lines to the
    transport and may raise: the result is [None] when an exception
    escapes, with the state and the output reached at that point. *)
Definition M (A : Type) : Type := IRCServer → option A * IRCServer * list Out.

Definition ret {A} (a : A) : M A := λ s, (Some a, s, []).

Definition bind {A B} (m : M A) (k : A → M B) : M B := λ s,
  match m s with
  | (Some a, s1, o1) =>
      match k a s1 with
      | (r, s2, o2) => (r, s2, o1 ++ o2)
      end
  | (None, s1, o1) => (None, s1, o1)
  end.

(** [M] is a monad in the sense of stdpp, which gives the notations
    [x ← m; k] and [m ;; k]. *)
Global Instance M_ret : MRet M := @ret.
Global Instance M_bind : MBind M := λ A B k m, bind m k.

Definition raise {A} : M A := λ s, (None, s, []).
Definition get_state : M IRCServer := λ s, (Some s, s, []).
Definition modify (f : IRCServer → IRCServer) : M unit := λ s, (Some tt, f s, []).
Definition emit (o : Out) : M unit := λ s, (Some tt, s, [o]).

(** [for x in l: body(x)] *)
Fixpoint for_each {A} (l : list A) (body : A → M unit) : M unit :=
  match l with
  | [] => ret tt
  | x :: l' => body x ;; for_each l' body
  end.

(** A loop that carries local variables [acc] from one round to the next. *)
Fixpoint fold_each {A S} (l : list A) (acc : S) (body : S → A → M S) : M S :=
  match l with
  | [] => ret acc
  | x :: l' => acc' ← body acc x; fold_each l' acc' body
  end.

(** The state and the output of a run. *)
Definition state_of {A} (r : option A * IRCServer * list Out) : IRCServer := r.1.2.
Definition output_of {A} (r : option A * IRCServer * list Out) : list Out := r.2.
Definition returned {A} (r : option A * IRCServer * list Out) : bool :=
  bool_decide (is_Some r.1.1).

(** ** Access to the objects *)

(** Dereference a [Client]. An identity with no object behind it does
    not occur in a run of the server; the model stops there. *)
Definition the_client (c : cid) : M Client.t := λ s,
  match objs s !! c with
  | Some cl => (Some cl, s, [])
  | None => (None, s, [])
  end.

Definition update_client (c : cid) (f : Client.t → Client.t) : M unit :=
  modify (λ s, with_objs (alter f c (objs s)) s).

(** Mutation of the channel object registered under key [k]. *)
Definition set_channel (k : string) (f : Channel.t → Channel.t)
    (s : IRCServer) : IRCServer :=
  match OrderedDict.get (channels s) k with
  | Some ch => with_channels (OrderedDict.set (channels s) k (f ch)) s
  | None => s
  end.

Definition update_channel (k : string) (f : Channel.t → Channel.t) : M unit :=
  modify (set_channel k f).

(** [client.send(line)] *)
Definition send (to : cid) (line : string) : M unit := emit (Send to line).

(** [client.reply(code, *params)] *)
Definition reply (c : cid) (code : string) (params : list string) : M unit :=
  cl ← the_client c;
  emit (Reply c (Client.nick cl) code params).

(** [for member in ch.members.values(): member.send(line)] *)
Definition send_all (ch : Channel.t) (line : string) : M unit :=
  for_each (OrderedDict.values (Channel.members ch)) (λ m, send m line).

(** [if not ch.members: del self.channels[k]] *)
Definition drop_if_empty (k : string) : M unit :=
  s ← get_state;
  match OrderedDict.get (channels s) k with
  | Some ch =>
      match Channel.members ch with
      | [] => modify (λ s, with_channels (OrderedDict.pop (channels s) k) s)
      | _ :: _ => ret tt
      end
  | None => ret tt
  end.

(* ===================================================================== *)
(** * The server *)
(* ===================================================================== *)

Section Engine.

(** [re.fullmatch(pattern, text, re.IGNORECASE) is not None]; [None]
    when the engine rejects the pattern ([re.error]). *)
Variable re_fullmatch : string → string → option bool.

(** [ch.is_banned(mask)] *)
Fixpoint is_banned_in (bans : list string) (mask : string) : option bool :=
  match bans with
  | [] => Some false
  | ban :: rest =>
      match re_fullmatch (Channel.glob_to_regex ban) mask with
      | Some true => Some true
      | Some false => is_banned_in rest mask
      | None => None
      end
  end.

Definition is_banned (ch : Channel.t) (mask : string) : M bool := λ s,
  (is_banned_in (Channel.bans ch) mask, s, []).

(** ** Connection lifecycle *)

Definition broadcast_quit (c : cid) (msg : string) : M unit :=
  cl ← the_client c;
  _ ← fold_each (elements (Client.channels cl)) (∅ : gset cid)
      (λ notified ch_name,
         s ← get_state;
         match OrderedDict.get (channels s) ch_name with
         | Some ch =>
             notified ← fold_each (OrderedDict.values (Channel.members ch)) notified
               (λ notified member,
                  if decide (member ≠ c ∧ member ∉ notified)
                  then send member (":" +:+ Client.mask cl +:+ " QUIT :" +:+ msg) ;;
                       ret (notified ∪ {[member]})
                  else ret notified);
             update_channel ch_name (Channel.remove_member (Client.nick cl)) ;;
             update_client c (λ x, Client.with_channels (Client.channels x ∖ {[ch_name]}) x) ;;
             drop_if_empty ch_name ;;
             ret notified
         | None => ret notified
         end);
  ret tt.

Definition cleanup (c : cid) (quit_msg : string) : M unit :=
  cl ← the_client c;
  (if Client.registered cl then broadcast_quit c quit_msg else ret tt) ;;
  modify (λ s, with_clients (OrderedDict.pop (clients s) (Client.nick cl)) s) ;;
  cl ← the_client c;
  for_each (elements (Client.channels cl))
    (λ ch_name,
       s ← get_state;
       match OrderedDict.get (channels s) ch_name with
       | Some _ =>
           update_channel ch_name (Channel.remove_member (Client.nick cl)) ;;
           drop_if_empty ch_name
       | None => ret tt
       end).

(** ** Registration *)

Definition send_motd (c : cid) : M unit :=
  reply c RPL_MOTDSTART ["- " +:+ SERVER_NAME +:+ " Message of the Day -"] ;;
  for_each MOTD (λ line, reply c RPL_MOTD ["- " +:+ line]) ;;
  reply c RPL_ENDOFMOTD ["End of /MOTD command"].

Definition send_lusers (c : cid) : M unit :=
  s ← get_state;
  let reg := Z.of_nat (length (clients s)) in
  let unk := Z.of_nat (size (_all_clients s)) - reg in
  ops ← fold_each (OrderedDict.values (clients s)) 0
        (λ n m, cl ← the_client m;
                ret (if decide ("o"%char ∈ Client.modes cl) then n + 1 else n));
  reply c RPL_LUSERCLIENT
    ["There are " +:+ Py.str reg +:+ " users and 0 invisible on 1 servers"] ;;
  (if decide (ops = 0) then ret tt
   else reply c RPL_LUSEROP [Py.str ops; "IRC Operators online"]) ;;
  (if decide (unk = 0) then ret tt
   else reply c RPL_LUSERUNKNOWN [Py.str unk; "unknown connection(s)"]) ;;
  reply c RPL_LUSERCHANNELS
    [Py.str (Z.of_nat (length (channels s))); "channels formed"] ;;
  reply c RPL_LUSERME ["I have " +:+ Py.str reg +:+ " clients and 1 servers"].

Definition try_register (c : cid) : M unit :=
  cl ← the_client c;
  if negb (Client._nick_set cl && Client._user_set cl) then ret tt
  else
    update_client c (Client.with_registered true) ;;
    modify (λ s, with_clients (OrderedDict.set (clients s) (Client.nick cl) c) s) ;;
    s ← get_state;
    reply c RPL_WELCOME
      ["Welcome to " +:+ SERVER_NAME +:+ " " +:+ Client.mask cl] ;;
    reply c RPL_YOURHOST
      ["Your host is " +:+ SERVER_NAME +:+ ", running version " +:+ SERVER_VERSION] ;;
    reply c RPL_CREATED ["This server was created " +:+ started s] ;;
    reply c RPL_MYINFO [SERVER_NAME; SERVER_VERSION; "o"; "imnopqrstv"] ;;
    send_motd c ;;
    send_lusers c.

Definition cmd_CAP (c : cid) (params : list string) : M unit :=
  let sub := match params with p :: _ => Py.upper p | [] => "" end in
  if decide (sub = "LS") then send c (":" +:+ SERVER_NAME +:+ " CAP * LS :")
  else ret tt.

(** [nick.lower() in {n.lower() for n in self.clients}] *)
Definition nick_in_use (s : IRCServer) (nick : string) : bool :=
  bool_decide (Py.lower nick ∈ Py.lower <$> OrderedDict.keys (clients s)).

Definition cmd_NICK (c : cid) (params : list string) : M unit :=
  match params with
  | [] => reply c ERR_NONICKNAMEGIVEN ["No nickname given"]
  | nick :: _ =>
      if negb (valid_nick nick)
      then reply c ERR_ERRONEUSNICKNAME [nick; "Erroneous nickname"]
      else
        s ← get_state;
        cl ← the_client c;
        if nick_in_use s nick && negb (bool_decide (nick = Client.nick cl))
        then reply c ERR_NICKNAMEINUSE [nick; "Nickname is already in use"]
        else
          let old_nick := Client.nick cl in
          let old_mask := Client.mask cl in
          if Client.registered cl then
            modify (λ s, with_clients
                           (OrderedDict.set (OrderedDict.pop (clients s) old_nick) nick c) s) ;;
            update_client c (Client.with_nick nick) ;;
            affected ← fold_each (elements (Client.channels cl)) ({[c]} : gset cid)
              (λ affected ch_name,
                 s ← get_state;
                 match OrderedDict.get (channels s) ch_name with
                 | Some ch =>
                     let ch' := Channel.rename_member old_nick nick c ch in
                     update_channel ch_name (λ _, ch') ;;
                     ret (affected ∪ list_to_set (OrderedDict.values (Channel.members ch')))
                 | None => ret affected
                 end);
            for_each (elements affected)
              (λ m, send m (":" +:+ old_mask +:+ " NICK :" +:+ nick))
          else
            update_client c (λ x, Client.with_nick_set true (Client.with_nick nick x)) ;;
            try_register c
  end.

Definition cmd_USER (c : cid) (params : list string) : M unit :=
  cl ← the_client c;
  if Client.registered cl
  then reply c ERR_ALREADYREGISTRED ["You may not reregister"]
  else
    match params with
    | p0 :: _ :: _ :: p3 :: _ =>
        update_client c (λ x, Client.with_user_set true
                                (Client.with_user (Py.take 10 p0) p3 x)) ;;
        try_register c
    | _ => reply c ERR_NEEDMOREPARAMS ["USER"; "Not enough parameters"]
    end.

Definition cmd_PING (c : cid) (params : list string) : M unit :=
  let token := match params with p :: _ => p | [] => SERVER_NAME end in
  send c (":" +:+ SERVER_NAME +:+ " PONG " +:+ SERVER_NAME +:+ " :" +:+ token).

Definition cmd_PONG (c : cid) (params : list string) : M unit := ret tt.

Definition cmd_QUIT (c : cid) (params : list string) : M unit :=
  let msg := match params with p :: _ => p | [] => "Quit" end in
  cleanup c msg ;;
  emit (Close c).

(** ** Channels *)

(** Truth value of an optional string: [None] and the empty string
    are false. *)
Definition truthy (o : option string) : bool :=
  match o with
  | Some x => negb (bool_decide (x = ""))
  | None => false
  end.

(** [self.channels[k] = ch], also the write-back of a channel object
    registered under [k] that a handler has mutated. *)
Definition store_channel (k : string) (ch : Channel.t) : M unit :=
  modify (λ s, with_channels (OrderedDict.set (channels s) k ch) s).

Definition send_names (c : cid) (ch : Channel.t) : M unit :=
  let names :=
    Py.join " " ((λ n, Channel.prefix_for ch n +:+ n)
                   <$> OrderedDict.keys (Channel.members ch)) in
  reply c RPL_NAMREPLY ["="; Channel.name ch; names] ;;
  reply c RPL_ENDOFNAMES [Channel.name ch; "End of /NAMES list"].

(** The three mode gates of [cmd_JOIN], as the source tests them. *)
Definition limit_full (ch : Channel.t) : bool :=
  bool_decide ("l"%char ∈ Channel.modes ch)
  && match Channel.limit ch with
     | Some l => negb (bool_decide (l = 0))
                 && bool_decide (l ≤ Z.of_nat (length (Channel.members ch)))
     | None => false
     end.

Definition bad_key (ch : Channel.t) (key : option string) : bool :=
  bool_decide ("k"%char ∈ Channel.modes ch)
  && truthy (Channel.key ch)
  && negb (bool_decide (key = Channel.key ch)).

Definition not_invited (ch : Channel.t) (nick : string) : bool :=
  bool_decide ("i"%char ∈ Channel.modes ch)
  && negb (bool_decide (nick ∈ Channel.invites ch)).

(** One round of the loop of [cmd_JOIN]: the [i]-th name of the list. *)
Definition join_one (c : cid) (keys : list string) (i : nat) (raw_name : string)
  : M unit :=
  let ch_name := Py.strip raw_name in
  if decide (ch_name = "") then ret tt
  else if negb (valid_channel ch_name)
  then reply c ERR_NOSUCHCHANNEL [ch_name; "No such channel"]
  else
    let key := keys !! i in
    let k := Py.lower ch_name in
    s ← get_state;
    ch ← match OrderedDict.get (channels s) k with
         | Some ch => ret ch
         | None => store_channel k (Channel.new ch_name) ;; ret (Channel.new ch_name)
         end;
    cl ← the_client c;
    if decide (k ∈ Client.channels cl) then ret tt
    else if limit_full ch
    then reply c ERR_CHANNELISFULL [ch_name; "Cannot join channel (+l)"]
    else if bad_key ch key
    then reply c ERR_BADCHANNELKEY [ch_name; "Cannot join channel (+k)"]
    else if not_invited ch (Client.nick cl)
    then reply c ERR_INVITEONLYCHAN [ch_name; "Cannot join channel (+i)"]
    else
      banned ← is_banned ch (Client.mask cl);
      if (banned : bool)
      then reply c ERR_BANNEDFROMCHAN [ch_name; "Cannot join channel (+b)"]
      else
        let first := bool_decide (length (Channel.members ch) = 0%nat) in
        let ch1 := Channel.add_member (Client.nick cl) c ch in
        let ch2 := if first
                   then Channel.with_ops (Channel.ops ch1 ∪ {[Client.nick cl]}) ch1
                   else ch1 in
        store_channel k ch2 ;;
        update_client c (λ x, Client.with_channels (Client.channels x ∪ {[k]}) x) ;;
        send_all ch2 (":" +:+ Client.mask cl +:+ " JOIN :" +:+ ch_name) ;;
        (if decide (Channel.topic ch2 = "")
         then reply c RPL_NOTOPIC [ch_name; "No topic is set"]
         else reply c RPL_TOPIC [ch_name; Channel.topic ch2]) ;;
        send_names c ch2.

(** [for i, x in enumerate(l): body(i, x)] *)
Fixpoint for_each_indexed {A} (i : nat) (l : list A) (body : nat → A → M unit)
  : M unit :=
  match l with
  | [] => ret tt
  | x :: l' => body i x ;; for_each_indexed (S i) l' body
  end.

Definition cmd_JOIN (c : cid) (params : list string) : M unit :=
  cl ← the_client c;
  if negb (Client.registered cl) then ret tt
  else
    match params with
    | [] => reply c ERR_NEEDMOREPARAMS ["JOIN"; "Not enough parameters"]
    | p0 :: rest =>
        let chans := Py.split_on "," p0 in
        let keys := match rest with p1 :: _ => Py.split_on "," p1 | [] => [] end in
        for_each_indexed 0 chans (join_one c keys)
    end.

(** One round of the loop of [cmd_PART]. *)
Definition part_one (c : cid) (msg : string) (ch_name : string) : M unit :=
  let k := Py.lower ch_name in
  s ← get_state;
  match OrderedDict.get (channels s) k with
  | None => reply c ERR_NOSUCHCHANNEL [ch_name; "No such channel"]
  | Some ch =>
      cl ← the_client c;
      if decide (k ∉ Client.channels cl)
      then reply c ERR_NOTONCHANNEL [ch_name; "You're not on that channel"]
      else
        send_all ch (":" +:+ Client.mask cl +:+ " PART " +:+ ch_name +:+ " :" +:+ msg) ;;
        store_channel k (Channel.remove_member (Client.nick cl) ch) ;;
        update_client c (λ x, Client.with_channels (Client.channels x ∖ {[k]}) x) ;;
        drop_if_empty k
  end.

Definition cmd_PART (c : cid) (params : list string) : M unit :=
  match params with
  | [] => reply c ERR_NEEDMOREPARAMS ["PART"; "Not enough parameters"]
  | p0 :: rest =>
      cl ← the_client c;
      let msg := match rest with p1 :: _ => p1 | [] => Client.nick cl end in
      for_each (Py.split_on "," p0) (part_one c msg)
  end.

(** ** Messages *)

Definition is_away (cl : Client.t) : bool := truthy (Client.away_msg cl).

Definition _send_message (c : cid) (params : list string) (cmd : string) : M unit :=
  cl ← the_client c;
  if negb (Client.registered cl) then ret tt
  else
    match params with
    | target :: text :: _ =>
        if is_channel_target target then
          s ← get_state;
          match OrderedDict.get (channels s) (Py.lower target) with
          | None => reply c ERR_NOSUCHCHANNEL [target; "No such channel"]
          | Some ch =>
              if bool_decide ("n"%char ∈ Channel.modes ch)
                 && negb (bool_decide (Py.lower target ∈ Client.channels cl))
              then reply c ERR_CANNOTSENDTOCHAN [target; "Cannot send to channel"]
              else if bool_decide ("m"%char ∈ Channel.modes ch)
                      && negb (bool_decide (Client.nick cl ∈ Channel.ops ch))
                      && negb (bool_decide (Client.nick cl ∈ Channel.voices ch))
              then reply c ERR_CANNOTSENDTOCHAN [target; "Cannot send to channel (+m)"]
              else
                for_each (OrderedDict.values (Channel.members ch))
                  (λ member,
                     if decide (member ≠ c)
                     then send member (":" +:+ Client.mask cl +:+ " " +:+ cmd +:+ " "
                                       +:+ target +:+ " :" +:+ text)
                     else ret tt)
          end
        else
          s ← get_state;
          match OrderedDict.get (clients s) target with
          | None => reply c ERR_NOSUCHNICK [target; "No such nick/channel"]
          | Some dest =>
              d ← the_client dest;
              (if is_away d && bool_decide (cmd = "PRIVMSG")
               then reply c RPL_AWAY [target; default "" (Client.away_msg d)]
               else ret tt) ;;
              send dest (":" +:+ Client.mask cl +:+ " " +:+ cmd +:+ " "
                         +:+ target +:+ " :" +:+ text)
          end
    | _ => reply c ERR_NEEDMOREPARAMS [cmd; "Not enough parameters"]
    end.

Definition cmd_PRIVMSG (c : cid) (params : list string) : M unit :=
  _send_message c params "PRIVMSG".

Definition cmd_NOTICE (c : cid) (params : list string) : M unit :=
  _send_message c params "NOTICE".

Definition cmd_TOPIC (c : cid) (params : list string) : M unit :=
  match params with
  | [] => reply c ERR_NEEDMOREPARAMS ["TOPIC"; "Not enough parameters"]
  | ch_name :: rest =>
      s ← get_state;
      match OrderedDict.get (channels s) (Py.lower ch_name) with
      | None => reply c ERR_NOSUCHCHANNEL [ch_name; "No such channel"]
      | Some ch =>
          match rest with
          | [] =>
              if decide (Channel.topic ch = "")
              then reply c RPL_NOTOPIC [ch_name; "No topic is set"]
              else reply c RPL_TOPIC [ch_name; Channel.topic ch]
          | new_topic :: _ =>
              cl ← the_client c;
              if bool_decide ("t"%char ∈ Channel.modes ch)
                 && negb (bool_decide (Client.nick cl ∈ Channel.ops ch))
              then reply c ERR_CHANOPRIVSNEEDED [ch_name; "You're not channel operator"]
              else
                store_channel (Py.lower ch_name)
                  (Channel.with_topic new_topic (Client.nick cl) ch) ;;
                send_all ch (":" +:+ Client.mask cl +:+ " TOPIC " +:+ ch_name
                             +:+ " :" +:+ new_topic)
          end
      end
  end.

Definition cmd_NAMES (c : cid) (params : list string) : M unit :=
  s ← get_state;
  match params with
  | [] => for_each (OrderedDict.values (channels s)) (send_names c)
  | p0 :: _ =>
      for_each (Py.split_on "," p0)
        (λ ch_name,
           s ← get_state;
           match OrderedDict.get (channels s) (Py.lower ch_name) with
           | Some ch => send_names c ch
           | None => ret tt
           end)
  end.

Definition cmd_LIST (c : cid) (params : list string) : M unit :=
  s ← get_state;
  for_each (OrderedDict.values (channels s))
    (λ ch, reply c RPL_LIST
             [Channel.name ch;
              Py.str (Z.of_nat (length (Channel.members ch)));
              Channel.topic ch]) ;;
  reply c RPL_LISTEND ["End of /LIST"].

Definition cmd_INVITE (c : cid) (params : list string) : M unit :=
  match params with
  | nick :: ch_name :: _ =>
      s ← get_state;
      cl ← the_client c;
      let k := Py.lower ch_name in
      let ch := OrderedDict.get (channels s) k in
      if bool_decide (is_Some ch) && negb (bool_decide (k ∈ Client.channels cl))
      then reply c ERR_NOTONCHANNEL [ch_name; "You're not on that channel"]
      else if match ch with
              | Some ch => bool_decide ("i"%char ∈ Channel.modes ch)
                           && negb (bool_decide (Client.nick cl ∈ Channel.ops ch))
              | None => false
              end
      then reply c ERR_CHANOPRIVSNEEDED [ch_name; "You're not channel operator"]
      else
        match OrderedDict.get (clients s) nick with
        | None => reply c ERR_NOSUCHNICK [nick; "No such nick/channel"]
        | Some target =>
            match ch with
            | Some ch =>
                store_channel k (Channel.with_invites (Channel.invites ch ∪ {[nick]}) ch)
            | None => ret tt
            end ;;
            reply c RPL_INVITING [nick; ch_name] ;;
            send target (":" +:+ Client.mask cl +:+ " INVITE " +:+ nick
                         +:+ " :" +:+ ch_name)
        end
  | _ => reply c ERR_NEEDMOREPARAMS ["INVITE"; "Not enough parameters"]
  end.

Definition cmd_KICK (c : cid) (params : list string) : M unit :=
  match params with
  | ch_name :: nick :: rest =>
      cl ← the_client c;
      let reason := match rest with r :: _ => r | [] => Client.nick cl end in
      let k := Py.lower ch_name in
      s ← get_state;
      match OrderedDict.get (channels s) k with
      | None => reply c ERR_NOSUCHCHANNEL [ch_name; "No such channel"]
      | Some ch =>
          if decide (k ∉ Client.channels cl)
          then reply c ERR_NOTONCHANNEL [ch_name; "You're not on that channel"]
          else if decide (Client.nick cl ∉ Channel.ops ch)
          then reply c ERR_CHANOPRIVSNEEDED [ch_name; "You're not channel operator"]
          else
            let not_there :=
              reply c ERR_USERNOTINCHANNEL [nick; ch_name; "They aren't on that channel"] in
            match OrderedDict.get (clients s) nick with
            | None => not_there
            | Some target =>
                t ← the_client target;
                if decide (k ∉ Client.channels t) then not_there
                else
                  send_all ch (":" +:+ Client.mask cl +:+ " KICK " +:+ ch_name +:+ " "
                               +:+ nick +:+ " :" +:+ reason) ;;
                  store_channel k (Channel.remove_member nick ch) ;;
                  update_client target
                    (λ x, Client.with_channels (Client.channels x ∖ {[k]}) x)
            end
      end
  | _ => reply c ERR_NEEDMOREPARAMS ["KICK"; "Not enough parameters"]
  end.

(** ** Modes *)

(** The local variables of the loop of [handle_channel_mode]. *)
Record mode_vars : Type := mkVars {
  adding : bool;
  mp : list string;
  applied : list ascii
}.

Definition sign (adding : bool) : string := if adding then "+" else "-".

(** One round of the loop of [handle_channel_mode], on the letter [m].
    [k] is the key of the channel in the registry. *)
Definition mode_step (c : cid) (ch_name k : string) (v : mode_vars) (m : ascii)
  : M mode_vars :=
  s ← get_state;
  cl ← the_client c;
  match OrderedDict.get (channels s) k with
  | None => ret v
  | Some ch =>
      let line (letter : string) (arg : string) :=
        ":" +:+ Client.mask cl +:+ " MODE " +:+ ch_name +:+ " "
        +:+ sign (adding v) +:+ letter +:+ " " +:+ arg in
      if Ascii.eqb m "+"%char then ret (mkVars true (mp v) (applied v ++ [m]))
      else if Ascii.eqb m "-"%char then ret (mkVars false (mp v) (applied v ++ [m]))
      else if Py.mem m "mntisp" then
        store_channel k
          (Channel.with_modes
             (if adding v then Channel.modes ch ∪ {[m]} else Channel.modes ch ∖ {[m]}) ch) ;;
        ret (mkVars (adding v) (mp v) (applied v ++ [m]))
      else if Ascii.eqb m "k"%char then
        match adding v, mp v with
        | true, p :: rest =>
            store_channel k
              (Channel.with_key (Some p)
                 (Channel.with_modes (Channel.modes ch ∪ {[m]}) ch)) ;;
            ret (mkVars true rest (applied v ++ [m]))
        | true, [] => ret v
        | false, _ =>
            store_channel k
              (Channel.with_key None
                 (Channel.with_modes (Channel.modes ch ∖ {[m]}) ch)) ;;
            ret (mkVars false (mp v) (applied v ++ [m]))
        end
      else if Ascii.eqb m "l"%char then
        match adding v, mp v with
        | true, p :: rest =>
            match Py.int p with
            | Some n =>
                store_channel k
                  (Channel.with_modes (Channel.modes ch ∪ {[m]})
                     (Channel.with_limit (Some n) ch)) ;;
                ret (mkVars true rest (applied v ++ [m]))
            | None => ret (mkVars true rest (applied v))
            end
        | true, [] => ret v
        | false, _ =>
            store_channel k
              (Channel.with_limit None
                 (Channel.with_modes (Channel.modes ch ∖ {[m]}) ch)) ;;
            ret (mkVars false (mp v) (applied v ++ [m]))
        end
      else if Ascii.eqb m "o"%char then
        match mp v with
        | nick :: rest =>
            if OrderedDict.mem (Channel.members ch) nick then
              store_channel k
                (Channel.with_ops
                   (if adding v then Channel.ops ch ∪ {[nick]}
                    else Channel.ops ch ∖ {[nick]}) ch) ;;
              send_all ch (line "o" nick) ;;
              ret (mkVars (adding v) rest (applied v ++ [m]))
            else ret (mkVars (adding v) rest (applied v))
        | [] => ret v
        end
      else if Ascii.eqb m "v"%char then
        match mp v with
        | nick :: rest =>
            if OrderedDict.mem (Channel.members ch) nick then
              store_channel k
                (Channel.with_voices
                   (if adding v then Channel.voices ch ∪ {[nick]}
                    else Channel.voices ch ∖ {[nick]}) ch) ;;
              send_all ch (line "v" nick) ;;
              ret (mkVars (adding v) rest (applied v ++ [m]))
            else ret (mkVars (adding v) rest (applied v))
        | [] => ret v
        end
      else if Ascii.eqb m "b"%char then
        match mp v with
        | ban :: rest =>
            store_channel k
              (Channel.with_bans
                 (if adding v
                  then (if decide (ban ∈ Channel.bans ch) then Channel.bans ch
                        else Channel.bans ch ++ [ban])
                  else filter (λ b, b ≠ ban) (Channel.bans ch)) ch) ;;
            send_all ch (line "b" ban) ;;
            ret (mkVars (adding v) rest (applied v))
        | [] =>
            for_each (Channel.bans ch) (λ ban, reply c RPL_BANLIST [ch_name; ban]) ;;
            reply c RPL_ENDOFBANLIST [ch_name; "End of channel ban list"] ;;
            ret v
        end
      else ret v
  end.

Definition handle_channel_mode (c : cid) (ch_name : string)
    (mode_params : list string) : M unit :=
  let k := Py.lower ch_name in
  s ← get_state;
  match OrderedDict.get (channels s) k with
  | None => reply c ERR_NOSUCHCHANNEL [ch_name; "No such channel"]
  | Some ch =>
      match mode_params with
      | [] => reply c RPL_CHANNELMODEIS [ch_name; Channel.mode_string ch]
      | mode_str :: rest =>
          cl ← the_client c;
          if negb (bool_decide (Client.nick cl ∈ Channel.ops ch))
             && negb (bool_decide ("o"%char ∈ Client.modes cl))
          then reply c ERR_CHANOPRIVSNEEDED [ch_name; "You're not channel operator"]
          else
            v ← fold_each (list_ascii_of_string mode_str) (mkVars true rest [])
                  (mode_step c ch_name k);
            let mode_applied := string_of_list_ascii (applied v) in
            if decide (Py.strip_set (λ x, Py.mem x "+-") mode_applied = "")
            then ret tt
            else
              s ← get_state;
              match OrderedDict.get (channels s) k with
              | Some ch =>
                  send_all ch (":" +:+ Client.mask cl +:+ " MODE " +:+ ch_name
                               +:+ " " +:+ mode_applied)
              | None => ret tt
              end
      end
  end.

(** One round of the loop of [handle_user_mode]; [t] is the client
    whose modes change. *)
Definition user_mode_step (c t : cid) (adding : bool) (m : ascii) : M bool :=
  if Ascii.eqb m "+"%char then ret true
  else if Ascii.eqb m "-"%char then ret false
  else if Py.mem m "io" then
    update_client t
      (λ x, Client.with_modes
              (if adding then Client.modes x ∪ {[m]} else Client.modes x ∖ {[m]}) x) ;;
    ret adding
  else reply c ERR_UMODEUNKNOWNFLAG ["Unknown MODE flag"] ;; ret adding.

Definition handle_user_mode (c : cid) (target : string)
    (mode_params : list string) : M unit :=
  cl ← the_client c;
  if negb (bool_decide (target = Client.nick cl))
     && negb (bool_decide ("o"%char ∈ Client.modes cl))
  then reply c ERR_USERSDONTMATCH ["Cannot change mode for other users"]
  else
    s ← get_state;
    match OrderedDict.get (clients s) target with
    | None => reply c ERR_NOSUCHNICK [target; "No such nick"]
    | Some t =>
        match mode_params with
        | [] =>
            tc ← the_client t;
            send c (":" +:+ SERVER_NAME +:+ " 221 " +:+ Client.nick cl +:+ " +"
                    +:+ Channel.mode_letters (Client.modes tc))
        | mode_str :: _ =>
            _ ← fold_each (list_ascii_of_string mode_str) true (user_mode_step c t);
            send c (":" +:+ Client.mask cl +:+ " MODE " +:+ target +:+ " " +:+ mode_str)
        end
    end.

Definition cmd_MODE (c : cid) (params : list string) : M unit :=
  match params with
  | [] => reply c ERR_NEEDMOREPARAMS ["MODE"; "Not enough parameters"]
  | target :: rest =>
      if is_channel_target target then handle_channel_mode c target rest
      else handle_user_mode c target rest
  end.

(** ** Queries *)

Definition who_flags (member : Client.t) : string :=
  if is_away member then "G" else "H".

Definition cmd_WHO (c : cid) (params : list string) : M unit :=
  match params with
  | [] => ret tt
  | mask :: _ =>
      s ← get_state;
      match OrderedDict.get (channels s) (Py.lower mask) with
      | Some ch =>
          for_each (Channel.members ch)
            (λ '(nick, m),
               member ← the_client m;
               let flags := who_flags member +:+
                            (if decide (nick ∈ Channel.ops ch) then "@" else "") in
               reply c RPL_WHOREPLY
                 [Channel.name ch; Client.user member; Client.host member;
                  SERVER_NAME; nick; flags; "0 " +:+ Client.realname member]) ;;
          reply c RPL_ENDOFWHO [mask; "End of /WHO list"]
      | None =>
          for_each (clients s)
            (λ '(nick, m),
               member ← the_client m;
               matched ← (λ s, (re_fullmatch (Channel.glob_to_regex mask) nick, s, []));
               if (matched : bool)
               then reply c RPL_WHOREPLY
                      ["*"; Client.user member; Client.host member;
                       SERVER_NAME; nick; who_flags member;
                       "0 " +:+ Client.realname member]
               else ret tt) ;;
          reply c RPL_ENDOFWHO [mask; "End of /WHO list"]
      end
  end.

Definition cmd_WHOIS (c : cid) (params : list string) : M unit :=
  match params with
  | [] => reply c ERR_NEEDMOREPARAMS ["WHOIS"; "Not enough parameters"]
  | nick :: _ =>
      s ← get_state;
      match OrderedDict.get (clients s) nick with
      | None => reply c ERR_NOSUCHNICK [nick; "No such nick/channel"]
      | Some t =>
          target ← the_client t;
          reply c RPL_WHOISUSER
            [nick; Client.user target; Client.host target; "*"; Client.realname target] ;;
          reply c RPL_WHOISSERVER [nick; SERVER_NAME; "WebSocket IRCd"] ;;
          let chans :=
            Py.join " "
              ((λ ch, Channel.prefix_for ch nick +:+ Channel.name ch)
                 <$> filter (λ ch, OrderedDict.mem (Channel.members ch) nick = true)
                       (OrderedDict.values (channels s))) in
          (if decide (chans = "") then ret tt
           else reply c RPL_WHOISCHANNELS [nick; chans]) ;;
          reply c RPL_ENDOFWHOIS [nick; "End of /WHOIS list"]
      end
  end.

Definition cmd_AWAY (c : cid) (params : list string) : M unit :=
  match params with
  | p0 :: _ =>
      update_client c (Client.with_away_msg (Some p0)) ;;
      reply c RPL_NOWAWAY ["You have been marked as being away"]
  | [] =>
      update_client c (Client.with_away_msg None) ;;
      reply c RPL_UNAWAY ["You are no longer marked as being away"]
  end.

Definition cmd_ISON (c : cid) (params : list string) : M unit :=
  s ← get_state;
  let online := filter (λ n, OrderedDict.mem (clients s) n = true) params in
  reply c RPL_ISON [Py.join " " online].

Definition cmd_USERHOST (c : cid) (params : list string) : M unit :=
  s ← get_state;
  results ← fold_each (take 5 params) []
    (λ results nick,
       match OrderedDict.get (clients s) nick with
       | Some t =>
           tc ← the_client t;
           let away := if is_away tc then "-" else "+" in
           ret (results ++ [nick +:+ "=" +:+ away +:+ Client.user tc +:+ "@"
                            +:+ Client.host tc])
       | None => ret results
       end);
  reply c RPL_USERHOST [Py.join " " results].

Definition cmd_VERSION (c : cid) (params : list string) : M unit :=
  reply c RPL_VERSION [SERVER_VERSION +:+ "." +:+ SERVER_NAME; SERVER_NAME; ""].

(** [now] is the reading of the clock, already formatted. *)
Definition cmd_TIME (now : string) (c : cid) (params : list string) : M unit :=
  reply c RPL_TIME [SERVER_NAME; now].

Definition cmd_INFO (c : cid) (params : list string) : M unit :=
  s ← get_state;
  reply c RPL_INFO [SERVER_NAME +:+ " v" +:+ SERVER_VERSION] ;;
  reply c RPL_INFO ["WebSocket-based IRC server written in Python"] ;;
  reply c RPL_INFO ["Running since " +:+ started s] ;;
  reply c RPL_ENDOFINFO ["End of /INFO list"].

Definition cmd_LUSERS (c : cid) (params : list string) : M unit := send_lusers c.

Definition cmd_MOTD (c : cid) (params : list string) : M unit := send_motd c.

Definition cmd_OPER (c : cid) (params : list string) : M unit :=
  reply c ERR_NOPRIVILEGES ["Permission Denied- You're not an IRC operator"].

(** ** Message dispatcher *)

(** The methods [cmd_<NAME>] of the server, by [<NAME>]: what
    [getattr(self, f"cmd_{cmd}", None)] finds. *)
Definition handlers (now : string) : list (string * (cid → list string → M unit)) :=
  [ ("CAP", cmd_CAP); ("NICK", cmd_NICK); ("USER", cmd_USER);
    ("PING", cmd_PING); ("PONG", cmd_PONG); ("QUIT", cmd_QUIT);
    ("JOIN", cmd_JOIN); ("PART", cmd_PART); ("PRIVMSG", cmd_PRIVMSG);
    ("NOTICE", cmd_NOTICE); ("TOPIC", cmd_TOPIC); ("NAMES", cmd_NAMES);
    ("LIST", cmd_LIST); ("INVITE", cmd_INVITE); ("KICK", cmd_KICK);
    ("MODE", cmd_MODE); ("WHO", cmd_WHO); ("WHOIS", cmd_WHOIS);
    ("AWAY", cmd_AWAY); ("ISON", cmd_ISON); ("USERHOST", cmd_USERHOST);
    ("VERSION", cmd_VERSION); ("TIME", cmd_TIME now); ("INFO", cmd_INFO);
    ("LUSERS", cmd_LUSERS); ("MOTD", cmd_MOTD); ("OPER", cmd_OPER) ].

(** The first lines of [dispatch]: a leading [:prefix] is dropped. *)
Definition drop_prefix (line : string) : string :=
  if Py.startswith line ":" then
    match Py.split1 " " (Py.tail line) with
    | [_; rest] => rest
    | _ => ""
    end
  else line.

(** The tokens of a line; [" :" in line] holds exactly when the split
    at [" :"] gives two parts. *)
Definition tokens_of (line : string) : list string :=
  match Py.split1 " :" line with
  | [head; trailing] => Py.split head ++ [trailing]
  | _ => Py.split line
  end.

(** The command and the parameters of a line, as [dispatch] computes
    them; [None] when there is no token. *)
Definition parse_line (line : string) : option (string * list string) :=
  match tokens_of (drop_prefix line) with
  | [] => None
  | t0 :: params => Some (Py.upper t0, params)
  end.

Definition dispatch (now : string) (c : cid) (line : string) : M unit :=
  match parse_line line with
  | None => ret tt
  | Some (cmd, params) =>
      match OrderedDict.get (handlers now) cmd with
      | Some handler => handler c params
      | None =>
          cl ← the_client c;
          if Client.registered cl
          then reply c ERR_UNKNOWNCOMMAND [cmd; "Unknown command"]
          else ret tt
      end
  end.

(** ** Connection driver *)

(** [Client(ws, self)] and [self._all_clients.add(client)] *)
Definition accept (c : cid) (host : string) (s : IRCServer) : IRCServer :=
  with_all_clients (_all_clients s ∪ {[c]})
    (with_objs (<[c := Client.new host]> (objs s)) s).

(** The [finally] block of [handle]. *)
Definition disconnect (c : cid) : M unit :=
  cleanup c "Connection closed" ;;
  modify (λ s, with_all_clients (_all_clients s ∖ {[c]}) s).

(** The logical lines of a frame: split at line feeds, [strip("\r\n")],
    empty lines dropped. *)
Definition frame_lines (frame : string) : list string :=
  filter (λ l, l ≠ "")
    (Py.strip_set (λ x, Py.mem x (String "013" (String "010" "")))
       <$> Py.split_on "010" frame).

(** The body of the reading loop of [handle], for one frame. *)
Definition on_frame (now : string) (c : cid) (frame : string) : M unit :=
  for_each (frame_lines frame) (dispatch now c).

(** What happens to the server, seen from outside: a connection is
    accepted, a frame arrives on a connection, a connection ends.  The
    text of a frame is what is left once the JSON envelope, if any,
    has been removed; [now] is the reading of the clock. *)
Inductive event : Type :=
| Accept (c : cid) (host : string)
| Frame (now : string) (c : cid) (text : string)
| Closed (c : cid).

(** One event.  An exception that escapes a handler ends the reading
    loop, and the connection with it. *)
Definition step (e : event) (s : IRCServer) : IRCServer * list Out :=
  match e with
  | Accept c host =>
      if decide (objs s !! c = None) then (accept c host s, []) else (s, [])
  | Frame now c text =>
      if decide (c ∈ _all_clients s) then
        let r := on_frame now c text s in
        if returned r then (state_of r, output_of r)
        else let r' := disconnect c (state_of r) in
             (state_of r', output_of r ++ output_of r')
      else (s, [])
  | Closed c =>
      if decide (c ∈ _all_clients s)
      then let r := disconnect c s in (state_of r, output_of r)
      else (s, [])
  end.

Fixpoint run (script : list event) (s : IRCServer) : IRCServer * list Out :=
  match script with
  | [] => (s, [])
  | e :: rest =>
      let '(s1, o1) := step e s in
      let '(s2, o2) := run rest s1 in
      (s2, o1 ++ o2)
  end.

(** The states the server can be in. *)
Definition reachable (s : IRCServer) : Prop :=
  ∃ t script, s = (run script (new_server t)).1.

End Engine.

(* ===================================================================== *)
(** * Vocabulary of the properties *)
(* ===================================================================== *)

Local Close Scope Z_scope.

(** [prepend o r]: the run [r], after the output [o]. *)
Definition prepend {A} (o : list Out) (r : option A * IRCServer * list Out)
  : option A * IRCServer * list Out :=
  (r.1.1, r.1.2, o ++ r.2).

(** A numeric reply with the given code. *)
Definition is_reply (code : string) (o : Out) : bool :=
  match o with
  | Reply _ _ code' _ => bool_decide (code' = code)
  | _ => false
  end.

(** ** Invariants of the data model *)

(** No two live registered clients have nicks that are equal up to case. *)
Definition nick_unique (s : IRCServer) : Prop :=
  ∀ c1 c2 x1 x2,
    c1 ∈ _all_clients s → c2 ∈ _all_clients s → c1 ≠ c2 →
    objs s !! c1 = Some x1 → objs s !! c2 = Some x2 →
    Client.registered x1 = true → Client.registered x2 = true →
    Py.lower (Client.nick x1) ≠ Py.lower (Client.nick x2).

(** Every channel of the registry has a member. *)
Definition no_empty_channel (s : IRCServer) : Prop :=
  ∀ k ch, OrderedDict.get (channels s) k = Some ch → Channel.members ch ≠ [].

(** ** JOIN *)

(** The registry once [cmd_JOIN] has looked a name up: the channel is
    there, created if it was absent. *)
Definition with_channel_named (name : string) (s : IRCServer) : IRCServer :=
  match OrderedDict.get (channels s) (Py.lower name) with
  | Some _ => s
  | None =>
      with_channels
        (OrderedDict.set (channels s) (Py.lower name) (Channel.new name)) s
  end.

(** The channel object that lookup yields. *)
Definition channel_named (name : string) (s : IRCServer) : Channel.t :=
  match OrderedDict.get (channels s) (Py.lower name) with
  | Some ch => ch
  | None => Channel.new name
  end.

(** The channel object once [nick] (client [c]) has been let in. *)
Definition joined (nick : string) (c : cid) (ch : Channel.t) : Channel.t :=
  let ch1 := Channel.add_member nick c ch in
  if bool_decide (length (Channel.members ch) = 0%nat)
  then Channel.with_ops (Channel.ops ch1 ∪ {[nick]}) ch1
  else ch1.

(** The numerics with which [cmd_JOIN] turns a client away. *)
Definition join_rejections : list string :=
  [ERR_NOSUCHCHANNEL; ERR_CHANNELISFULL; ERR_BADCHANNELKEY;
   ERR_INVITEONLYCHAN; ERR_BANNEDFROMCHAN].

Definition is_join_rejection (o : Out) : bool :=
  match o with
  | Reply _ _ code _ => bool_decide (code ∈ join_rejections)
  | _ => false
  end.

(** ** MODE *)

(** The channel after [MODE +o nick] ([add]) or [MODE -o nick]. *)
Definition op_changed (ch : Channel.t) (add : bool) (nick : string) : Channel.t :=
  Channel.with_ops
    (if add then Channel.ops ch ∪ {[nick]} else Channel.ops ch ∖ {[nick]}) ch.

(** ** NOTICE against PRIVMSG *)

(** Two outputs that differ in the name of the command only. *)
Inductive same_but_cmd : Out → Out → Prop :=
| sbc_send to pre suf :
    same_but_cmd (Send to (pre +:+ "NOTICE" +:+ suf))
                 (Send to (pre +:+ "PRIVMSG" +:+ suf))
| sbc_reply to target code ps :
    same_but_cmd (Reply to target code ps) (Reply to target code ps)
| sbc_needmore to target rest :
    same_but_cmd (Reply to target ERR_NEEDMOREPARAMS ("NOTICE" :: rest))
                 (Reply to target ERR_NEEDMOREPARAMS ("PRIVMSG" :: rest)).

(** ** Lines *)

Definition nonspace (c : ascii) : bool := negb (Py.isspace c).

(** A word: not empty, no whitespace. *)
Definition is_word (w : string) : bool :=
  negb (bool_decide (w = "")) && Py.forallb nonspace w.

(** A command or a middle parameter: a word that does not begin with a
    colon. *)
Definition is_middle (w : string) : bool :=
  is_word w && negb (Py.startswith w ":").

Definition middles_text (middles : list string) : string :=
  foldr (λ m rest, " " +:+ m +:+ rest) "" middles.

Definition trailing_text (trailing : option string) : string :=
  match trailing with
  | Some t => " :" +:+ t
  | None => ""
  end.

(** A well-formed line without prefix: the command, the middle
    parameters, each after one space, and the trailing parameter, if
    any, after a space and a colon. *)
Definition irc_line (cmd : string) (middles : list string)
    (trailing : option string) : string :=
  cmd +:+ middles_text middles +:+ trailing_text trailing.

(** ** Concrete runs *)

(** An engine that rejects every pattern.  The runs below never consult
    it: no channel of theirs has a ban, and none uses WHO. *)
Definition no_regex : string → string → option bool := λ _ _, None.

(** Two connections ask for the same nick before either has registered. *)
Definition two_alices : list event :=
  [ Accept 0 "h0"; Accept 1 "h1";
    Frame "" 0 "NICK alice"; Frame "" 1 "NICK alice";
    Frame "" 0 "USER a 0 * :A"; Frame "" 1 "USER b 0 * :B" ].

(** [alice] registers on connection 0. *)
Definition alice_registers : list event :=
  [ Accept 0 "h0"; Frame "" 0 "NICK alice"; Frame "" 0 "USER a 0 * :A" ].

(** [bob] registers on connection 1. *)
Definition bob_registers : list event :=
  [ Accept 1 "h1"; Frame "" 1 "NICK bob"; Frame "" 1 "USER b 0 * :B" ].

(** [alice] creates [#test] and is its only member and operator. *)
Definition alice_in_test : list event :=
  alice_registers ++ [ Frame "" 0 "JOIN #test" ].

(** [alice] then kicks herself out of it. *)
Definition alice_kicks_herself : list event :=
  alice_in_test ++ [ Frame "" 0 "KICK #test alice" ].

(** [alice] holds [#room], invite-only, with a key and room for one;
    [bob] is registered and invited. *)
Definition guarded_room : list event :=
  alice_registers
  ++ [ Frame "" 0 "JOIN #room"; Frame "" 0 "MODE #room +ikl secret 1" ]
  ++ bob_registers
  ++ [ Frame "" 0 "INVITE bob #room" ].

(** [alice] holds [#room], invite-only; [bob] is registered and invited. *)
Definition invite_only_room : list event :=
  alice_registers
  ++ [ Frame "" 0 "JOIN #room"; Frame "" 0 "MODE #room +i" ]
  ++ bob_registers
  ++ [ Frame "" 0 "INVITE bob #room" ].

Definition state_after (script : list event) : IRCServer :=
  (run no_regex script (new_server "T0")).1.

(** The client objects and the channel objects of these runs. *)
Definition alice : Client.t :=
  Client.mk "alice" "a" "A" "h0" true None ∅ ∅ true true.
Definition alice_on (k : string) : Client.t :=
  Client.mk "alice" "a" "A" "h0" true None {[k]} ∅ true true.
Definition bob : Client.t :=
  Client.mk "bob" "b" "B" "h1" true None ∅ ∅ true true.
Definition test_channel : Channel.t :=
  Channel.mk "#test" "" "" [("alice", 0%nat)] {["alice"]} ∅ ∅ None None ∅ [].
Definition room_invite_only : Channel.t :=
  Channel.mk "#room" "" "" [("alice", 0%nat)] {["alice"]} ∅ {["i"%char]}
             None None {["bob"]} [].
Definition room_guarded : Channel.t :=
  Channel.mk "#room" "" "" [("alice", 0%nat)] {["alice"]} ∅
             {["i"%char; "k"%char; "l"%char]} (Some "secret") (Some 1%Z) {["bob"]} [].

(** [alice] and [bob] are both on [#test]; [alice], who created it, is
    its operator. *)
Definition two_in_test : list event :=
  alice_in_test ++ bob_registers ++ [ Frame "" 1 "JOIN #test" ].

Definition test_with_bob : Channel.t :=
  Channel.mk "#test" "" "" [("alice", 0%nat); ("bob", 1%nat)] {["alice"]} ∅ ∅
             None None ∅ [].

(** ** Frames *)

Definition LF : ascii := "010"%char.
Definition CR : ascii := "013"%char.

(** The characters [strip("\r\n")] removes. *)
Definition crlf (x : ascii) : bool := Py.mem x (String CR (String LF "")).

(** A line as a client means it: not empty, no line feed inside, no
    carriage return or line feed at either end. *)
Definition plain_line (l : string) : Prop :=
  l ≠ "" ∧ Py.mem LF l = false ∧ Py.strip_set crlf l = l.

(** The lines [ls], each followed by the end-of-line mark [eol]. *)
Definition terminated (eol : string) (ls : list string) : string :=
  foldr (λ l rest, l +:+ eol +:+ rest) "" ls.

(** ** Well-formed states *)

(** What holds of every [Client] object between two commands. *)
Record client_ok (cl : Client.t) : Prop := {
  ok_nick :
    if Client._nick_set cl then valid_nick (Client.nick cl) = true
    else Client.nick cl = "*";
  ok_registered :
    Client.registered cl = Client._nick_set cl && Client._user_set cl;
  ok_unregistered : Client.registered cl = false → Client.channels cl = ∅;
  ok_user : String.length (Client.user cl) ≤ 10;
  ok_umodes : ∀ m, m ∈ Client.modes cl → m = "i"%char ∨ m = "o"%char
}.

(** What holds of the channel object registered under the key [k]. *)
Record channel_ok (k : string) (ch : Channel.t) : Prop := {
  ok_key : k = Py.lower (Channel.name ch);
  ok_name : valid_channel (Channel.name ch) = true;
  ok_members : NoDup (OrderedDict.keys (Channel.members ch));
  ok_ops : ∀ n, n ∈ Channel.ops ch → n ∈ OrderedDict.keys (Channel.members ch);
  ok_voices : ∀ n, n ∈ Channel.voices ch → n ∈ OrderedDict.keys (Channel.members ch);
  ok_modes : ∀ m, m ∈ Channel.modes ch → Py.mem m "mntispkl" = true;
  ok_mode_k : "k"%char ∈ Channel.modes ch ↔ is_Some (Channel.key ch);
  ok_mode_l : "l"%char ∈ Channel.modes ch ↔ is_Some (Channel.limit ch);
  ok_bans : NoDup (Channel.bans ch)
}.

(** [c] is a live connection, registered under the nick [n]. *)
Definition registered_as (s : IRCServer) (n : string) (c : cid) : Prop :=
  c ∈ _all_clients s
  ∧ ∃ cl, objs s !! c = Some cl ∧ Client.nick cl = n ∧ Client.registered cl = true.

(** [c] is a live, registered connection with nick [n] that counts the
    channel of key [k] among its channels. *)
Definition member_ok (s : IRCServer) (k n : string) (c : cid) : Prop :=
  c ∈ _all_clients s
  ∧ ∃ cl, objs s !! c = Some cl ∧ Client.nick cl = n ∧ Client.registered cl = true
          ∧ k ∈ Client.channels cl.

(** The state of the server between two commands.  While a registered
    client is being renamed the entries of the member lists that still
    carry its old nick are the exceptions [P]. *)
Record wf_but (P : string → string → cid → Prop) (s : IRCServer) : Prop := {
  wf_live : ∀ c, c ∈ _all_clients s → is_Some (objs s !! c);
  wf_client : ∀ c cl, objs s !! c = Some cl → client_ok cl;
  wf_registry_keys : NoDup (OrderedDict.keys (clients s));
  wf_registry : ∀ n c, OrderedDict.get (clients s) n = Some c → registered_as s n c;
  wf_channel_keys : NoDup (OrderedDict.keys (channels s));
  wf_channel : ∀ k ch, OrderedDict.get (channels s) k = Some ch → channel_ok k ch;
  wf_member_but : ∀ k ch n m,
    OrderedDict.get (channels s) k = Some ch →
    OrderedDict.get (Channel.members ch) n = Some m →
    member_ok s k n m ∨ P k n m
}.

Definition well_formed : IRCServer → Prop := wf_but (λ _ _ _, False).

(** Nothing in the registry or in a member list refers to [c]. *)
Definition unreferenced (s : IRCServer) (c : cid) : Prop :=
  (∀ n, OrderedDict.get (clients s) n ≠ Some c)
  ∧ (∀ k ch n, OrderedDict.get (channels s) k = Some ch →
               OrderedDict.get (Channel.members ch) n ≠ Some c).

(** An engine that accepts every pattern. *)
Definition total (re : string → string → option bool) : Prop :=
  ∀ pattern text, is_Some (re pattern text).

(** A run that leaves the state alone and, with an engine that accepts
    every pattern, returns. *)
Definition silent (re : string → string → option bool) {A} (m : M A)
    (s : IRCServer) : Prop :=
  state_of (m s) = s ∧ (total re → is_Some (m s).1.1).

(** A run on behalf of the connection [c] that ends in a well-formed
    state with [c] still live and, with an engine that accepts every
    pattern, returns. *)
Definition good (re : string → string → option bool) (c : cid) {A}
    (r : option A * IRCServer * list Out) : Prop :=
  well_formed (state_of r) ∧ c ∈ _all_clients (state_of r) ∧ (total re → is_Some r.1.1).

(** The state once the client [c], with object [cl], has created the
    channel [name] by joining it. *)
Definition created_by (name : string) (c : cid) (cl : Client.t) (s : IRCServer)
    : IRCServer :=
  with_objs
    (alter (λ x, Client.with_channels (Client.channels x ∪ {[Py.lower name]}) x)
       c (objs s))
    (with_channels
       (OrderedDict.set (channels s) (Py.lower name)
          (joined (Client.nick cl) c (Channel.new name))) s).

(** While [cmd_NICK] renames the client [c]: the entries of the member
    lists that still carry the old nick, in the channels [rem] the loop
    has yet to visit. *)
Definition renaming (c : cid) (old : string) (rem : list string)
    (k n : string) (m : cid) : Prop :=
  m = c ∧ n = old ∧ k ∈ rem.

(** One round of the loop of [cmd_NICK] over the channels of the client
    [c], renamed from [old] to [new]. *)
Definition rename_round (c : cid) (old new : string)
    (affected : gset cid) (ch_name : string) : M (gset cid) :=
  s ← get_state;
  match OrderedDict.get (channels s) ch_name with
  | Some ch =>
      let ch' := Channel.rename_member old new c ch in
      update_channel ch_name (λ _, ch') ;;
      ret (affected ∪ list_to_set (OrderedDict.values (Channel.members ch')))
  | None => ret affected
  end.

(** The member lists that refer to [c] are those of the channels
    [rem]: what the loop of [broadcast_quit] has yet to visit. *)
Definition listed_only (c : cid) (rem : list string) (s : IRCServer) : Prop :=
  ∀ k ch n, OrderedDict.get (channels s) k = Some ch →
            OrderedDict.get (Channel.members ch) n = Some c → k ∈ rem.

(** One round of the loop of [broadcast_quit], for the client [c] whose
    object was [cl] when the loop began. *)
Definition quit_round (c : cid) (cl : Client.t) (msg : string)
    (notified : gset cid) (ch_name : string) : M (gset cid) :=
  s ← get_state;
  match OrderedDict.get (channels s) ch_name with
  | Some ch =>
      notified ← fold_each (OrderedDict.values (Channel.members ch)) notified
        (λ notified member,
           if decide (member ≠ c ∧ member ∉ notified)
           then send member (":" +:+ Client.mask cl +:+ " QUIT :" +:+ msg) ;;
                ret (notified ∪ {[member]})
           else ret notified);
      update_channel ch_name (Channel.remove_member (Client.nick cl)) ;;
      update_client c (λ x, Client.with_channels (Client.channels x ∖ {[ch_name]}) x) ;;
      drop_if_empty ch_name ;;
      ret notified
  | None => ret notified
  end.

(** What the loop of [broadcast_quit] keeps: the state is well formed,
    [c] is live, registered and has kept its nick. *)
Definition leaving (c : cid) (nick : string) (s : IRCServer) : Prop :=
  well_formed s ∧ c ∈ _all_clients s
  ∧ ∃ x, objs s !! c = Some x ∧ Client.nick x = nick ∧ Client.registered x = true.

(** One round of the loop of [cleanup]. *)
Definition sweep (nick : string) (ch_name : string) : M unit :=
  s ← get_state;
  match OrderedDict.get (channels s) ch_name with
  | Some _ =>
      update_channel ch_name (Channel.remove_member nick) ;;
      drop_if_empty ch_name
  | None => ret tt
  end.

(** What the loop of [cleanup] keeps. *)
Definition swept (c : cid) (s : IRCServer) : Prop :=
  well_formed s ∧ c ∈ _all_clients s ∧ unreferenced s c.


(** [bob], once he has joined [#test]. *)
Definition bob_on (k : string) : Client.t :=
  Client.mk "bob" "b" "B" "h1" true None {[k]} ∅ true true.
(* ===================================================================== *)
(** * Reasoning about handlers *)
(* ===================================================================== *)

(** ** Sets *)

Lemma add_discard (A : gset string) x : (A ∪ {[x]}) ∖ {[x]} = A ∖ {[x]}.
Proof.
  apply set_eq. intros y. rewrite !elem_of_difference, elem_of_union. tauto.
Qed.

Lemma discard_absent (A : gset string) x : x ∉ A → A ∖ {[x]} = A.
Proof.
  intros H. apply set_eq. intros y.
  rewrite elem_of_difference, elem_of_singleton. split; [tauto|].
  intros Hy. split; [done|]. by intros ->.
Qed.

Lemma elem_of_add_l (A : gset string) x y : y ∈ A → y ∈ A ∪ {[x]}.
Proof. intros. apply elem_of_union. by left. Qed.

Lemma elem_of_add (A : gset string) x : x ∈ A ∪ {[x]}.
Proof. apply elem_of_union. right. by apply elem_of_singleton. Qed.

(** ** The monad *)

Lemma prepend_nil {A} (r : option A * IRCServer * list Out) : prepend [] r = r.
Proof. by destruct r as [[??]?]. Qed.

Lemma prepend_prepend {A} o1 o2 (r : option A * IRCServer * list Out) :
  prepend o1 (prepend o2 r) = prepend (o1 ++ o2) r.
Proof. unfold prepend; simpl. by rewrite app_assoc. Qed.

Lemma state_of_prepend {A} o (r : option A * IRCServer * list Out) :
  state_of (prepend o r) = state_of r.
Proof. done. Qed.

Lemma output_of_prepend {A} o (r : option A * IRCServer * list Out) :
  output_of (prepend o r) = o ++ output_of r.
Proof. done. Qed.

Lemma bind_run {A B} (m : M A) (k : A → M B) (s : IRCServer) :
  (m ≫= k) s =
  match m s with
  | (Some a, s1, o1) => prepend o1 (k a s1)
  | (None, s1, o1) => (None, s1, o1)
  end.
Proof.
  unfold mbind, M_bind, bind, prepend.
  destruct (m s) as [[[a|] s1] o1]; [|done]. by destruct (k a s1) as [[??]?].
Qed.

Lemma bind_ret {A B} (a : A) (k : A → M B) s : (ret a ≫= k) s = k a s.
Proof. rewrite bind_run. apply prepend_nil. Qed.

Lemma bind_get_state {B} (k : IRCServer → M B) s : (get_state ≫= k) s = k s s.
Proof. rewrite bind_run. apply prepend_nil. Qed.

Lemma bind_modify {B} f (k : unit → M B) s : (modify f ≫= k) s = k tt (f s).
Proof. rewrite bind_run. apply prepend_nil. Qed.

Lemma bind_emit {B} o (k : unit → M B) s : (emit o ≫= k) s = prepend [o] (k tt s).
Proof. by rewrite bind_run. Qed.

Lemma bind_raise {A B} (k : A → M B) s : (raise ≫= k) s = (None, s, []).
Proof. by rewrite bind_run. Qed.

Lemma bind_assoc {A B C} (m : M A) (k : A → M B) (h : B → M C) s :
  ((m ≫= k) ≫= h) s = (m ≫= λ a, k a ≫= h) s.
Proof.
  rewrite !bind_run. destruct (m s) as [[[a|] s1] o1]; [|done].
  rewrite bind_run. destruct (k a s1) as [[[b|] s2] o2]; simpl; [|done].
  by rewrite prepend_prepend.
Qed.

Lemma bind_store_channel {B} k ch (h : unit → M B) s :
  (store_channel k ch ≫= h) s
  = h tt (with_channels (OrderedDict.set (channels s) k ch) s).
Proof. unfold store_channel. by rewrite bind_modify. Qed.

Lemma bind_update_client {B} c f (h : unit → M B) s :
  (update_client c f ≫= h) s = h tt (with_objs (alter f c (objs s)) s).
Proof. unfold update_client. by rewrite bind_modify. Qed.

Section Access.
Context (s : IRCServer) (c : cid) (cl : Client.t).
Hypothesis Hc : objs s !! c = Some cl.

Lemma the_client_run : the_client c s = (Some cl, s, []).
Proof using Hc. unfold the_client. by rewrite Hc. Qed.

Lemma bind_the_client {B} (k : Client.t → M B) : (the_client c ≫= k) s = k cl s.
Proof using Hc. rewrite bind_run, the_client_run. apply prepend_nil. Qed.

Lemma reply_run code ps :
  reply c code ps s = (Some tt, s, [Reply c (Client.nick cl) code ps]).
Proof using Hc. unfold reply. by rewrite bind_the_client. Qed.

Lemma bind_reply {B} code ps (k : unit → M B) :
  (reply c code ps ≫= k) s = prepend [Reply c (Client.nick cl) code ps] (k tt s).
Proof using Hc. by rewrite bind_run, reply_run. Qed.
End Access.

(** ** Dictionaries *)

Section DictFacts.
Context {V : Type}.
Implicit Types (d : list (string * V)) (k : string) (v : V).

Lemma get_keys d k v : OrderedDict.get d k = Some v → k ∈ OrderedDict.keys d.
Proof.
  induction d as [|[k' v'] d IH]; simpl; [done|].
  case_decide; intros ?; simplify_eq; [left|right; auto].
Qed.

Lemma get_None_keys d k : OrderedDict.get d k = None ↔ k ∉ OrderedDict.keys d.
Proof.
  induction d as [|[k' v'] d IH]; simpl.
  - split; [intros _ []%elem_of_nil|done].
  - rewrite not_elem_of_cons. case_decide; subst.
    + split; [done|]. by intros [? _].
    + rewrite IH. split; [done|]. by intros [_ ?].
Qed.

Lemma get_set_eq d k v : OrderedDict.get (OrderedDict.set d k v) k = Some v.
Proof.
  induction d as [|[k' v'] d IH]; simpl.
  - by rewrite decide_True.
  - case_decide; simpl; [by rewrite decide_True|by rewrite decide_False].
Qed.

Lemma get_set_ne d k k' v :
  k ≠ k' → OrderedDict.get (OrderedDict.set d k v) k' = OrderedDict.get d k'.
Proof.
  intros Hne. induction d as [|[k0 v0] d IH]; simpl.
  - by rewrite decide_False.
  - case_decide; simpl; subst.
    + by rewrite !decide_False.
    + case_decide; [done|apply IH].
Qed.

Lemma get_pop_ne d k k' :
  k ≠ k' → OrderedDict.get (OrderedDict.pop d k) k' = OrderedDict.get d k'.
Proof.
  intros Hne. induction d as [|[k0 v0] d IH]; simpl; [done|].
  case_decide; simpl; subst.
  - by rewrite decide_False.
  - case_decide; [done|apply IH].
Qed.

Lemma get_pop_eq d k : OrderedDict.get (OrderedDict.pop d k) k = None.
Proof.
  induction d as [|[k0 v0] d IH]; simpl; [done|].
  case_decide; simpl; [done|]. by rewrite decide_False.
Qed.

Lemma mem_get d k : OrderedDict.mem d k = true ↔ is_Some (OrderedDict.get d k).
Proof. unfold OrderedDict.mem. apply bool_decide_eq_true. Qed.
End DictFacts.

(** ** Loops that only send *)

Lemma for_each_cons {A} (x : A) l (body : A → M unit) :
  for_each (x :: l) body = (body x ≫= λ _, for_each l body).
Proof. done. Qed.

Lemma fold_each_cons {A S} (x : A) l (acc : S) (body : S → A → M S) :
  fold_each (x :: l) acc body = (body acc x ≫= λ acc', fold_each l acc' body).
Proof. done. Qed.

Lemma for_each_send_run (l : list cid) (line : cid → string) s :
  for_each l (λ m, send m (line m)) s = (Some tt, s, (λ m, Send m (line m)) <$> l).
Proof.
  induction l as [|m l IH]; [done|].
  rewrite for_each_cons, bind_run. cbv beta. unfold send at 1, emit. by rewrite IH.
Qed.

Lemma send_all_run ch line s :
  send_all ch line s
  = (Some tt, s, (λ m, Send m line) <$> OrderedDict.values (Channel.members ch)).
Proof. apply (for_each_send_run _ (λ _, line)). Qed.

Lemma bind_send_all {B} ch line (k : unit → M B) s :
  (send_all ch line ≫= k) s
  = prepend ((λ m, Send m line) <$> OrderedDict.values (Channel.members ch)) (k tt s).
Proof. by rewrite bind_run, send_all_run. Qed.

Section ModeO.
Context (s : IRCServer) (c : cid) (cl : Client.t) (ch_name : string) (ch : Channel.t).
Hypothesis Hc : objs s !! c = Some cl.
Hypothesis Hch : OrderedDict.get (channels s) (Py.lower ch_name) = Some ch.

Lemma mode_step_sign v (b : bool) :
  mode_step c ch_name (Py.lower ch_name) v (if b then "+" else "-")%char s
  = (Some (mkVars b (mp v) (applied v ++ [(if b then "+" else "-")%char])), s, []).
Proof using Hc Hch.
  unfold mode_step. rewrite bind_get_state, (bind_the_client _ _ _ Hc), Hch.
  by destruct b.
Qed.

Lemma mode_step_o add ap nick rest :
  OrderedDict.mem (Channel.members ch) nick = true →
  ∃ o,
    mode_step c ch_name (Py.lower ch_name) (mkVars add (nick :: rest) ap) "o" s
    = (Some (mkVars add rest (ap ++ ["o"%char])),
       with_channels
         (OrderedDict.set (channels s) (Py.lower ch_name) (op_changed ch add nick)) s,
       o).
Proof using Hc Hch.
  intros Hmem.
  unfold mode_step. rewrite bind_get_state, (bind_the_client _ _ _ Hc), Hch.
  cbn [Ascii.eqb Bool.eqb Py.mem orb andb mp adding applied]. rewrite Hmem.
  unfold store_channel. rewrite bind_modify, bind_send_all.
  eexists. reflexivity.
Qed.

(** [MODE ch_name +o nick] and [MODE ch_name -o nick], issued by a client
    allowed to change modes, on a member. *)
Lemma handle_channel_mode_o (add : bool) nick :
  Client.nick cl ∈ Channel.ops ch ∨ "o"%char ∈ Client.modes cl →
  OrderedDict.mem (Channel.members ch) nick = true →
  let r := handle_channel_mode c ch_name [sign add +:+ "o"; nick] s in
  returned r = true
  ∧ state_of r
    = with_channels
        (OrderedDict.set (channels s) (Py.lower ch_name) (op_changed ch add nick)) s.
Proof using Hc Hch.
  intros Hauth Hmem.
  unfold handle_channel_mode.
  rewrite bind_get_state, Hch, (bind_the_client _ _ _ Hc).
  assert (negb (bool_decide (Client.nick cl ∈ Channel.ops ch))
          && negb (bool_decide ("o"%char ∈ Client.modes cl)) = false) as ->.
  { destruct Hauth as [H|H]; rewrite (bool_decide_eq_true_2 _ H); simpl;
      [done|apply andb_false_r]. }
  destruct (mode_step_o true [(if add then "+" else "-")%char] nick [] Hmem)
    as [o1 Ho1].
  destruct (mode_step_o false [(if add then "+" else "-")%char] nick [] Hmem)
    as [o2 Ho2].
  assert (∃ o,
    fold_each (list_ascii_of_string (sign add +:+ "o"))
      (mkVars true [nick] []) (mode_step c ch_name (Py.lower ch_name)) s
    = (Some (mkVars add [] [(if add then "+" else "-")%char; "o"%char]),
       with_channels
         (OrderedDict.set (channels s) (Py.lower ch_name) (op_changed ch add nick)) s,
       o)) as [o Hfold].
  { destruct add;
      [change (list_ascii_of_string (sign true +:+ "o")) with ["+"; "o"]%char
      |change (list_ascii_of_string (sign false +:+ "o")) with ["-"; "o"]%char];
      rewrite fold_each_cons, bind_run;
      [rewrite (mode_step_sign _ true)|rewrite (mode_step_sign _ false)];
      cbn [mp applied app];
      rewrite fold_each_cons, bind_run; [rewrite Ho1|rewrite Ho2];
      eexists; reflexivity. }
  rewrite bind_run, Hfold. cbv zeta.
  case_decide; [done|].
  rewrite bind_get_state. cbn [channels with_channels].
  rewrite get_set_eq, send_all_run. done.
Qed.
End ModeO.

(** C7 (amended).  Let a client that may change the modes of channel
    [ch_name] (a channel operator, or a holder of user mode [o]) issue
    [MODE ch_name +o X] and then [MODE ch_name -o X] for a member [X].
    Afterwards the operators of the channel are the operators it had
    before, without [X]: the set is unchanged when [X] was not an
    operator before the pair, and has lost [X] when it was. *)
Theorem op_then_deop s c cl ch_name ch X :
  objs s !! c = Some cl →
  OrderedDict.get (channels s) (Py.lower ch_name) = Some ch →
  Client.nick cl ∈ Channel.ops ch ∨ "o"%char ∈ Client.modes cl →
  OrderedDict.mem (Channel.members ch) X = true →
  let s1 := state_of (handle_channel_mode c ch_name ["+o"; X] s) in
  let s2 := state_of (handle_channel_mode c ch_name ["-o"; X] s1) in
  ∃ ch2,
    OrderedDict.get (channels s2) (Py.lower ch_name) = Some ch2
    ∧ Channel.ops ch2 = Channel.ops ch ∖ {[X]}
    ∧ (X ∉ Channel.ops ch → Channel.ops ch2 = Channel.ops ch).
Proof.
  intros Hc Hch Hauth Hmem s1 s2.
  destruct (handle_channel_mode_o s c cl ch_name ch Hc Hch true X Hauth Hmem)
    as [_ Hs1].
  change (sign true +:+ "o") with "+o" in Hs1. fold s1 in Hs1.
  assert (Hch1 : OrderedDict.get (channels s1) (Py.lower ch_name)
                 = Some (op_changed ch true X)).
  { rewrite Hs1. apply get_set_eq. }
  assert (Hc1 : objs s1 !! c = Some cl) by (by rewrite Hs1).
  destruct (handle_channel_mode_o s1 c cl ch_name _ Hc1 Hch1 false X) as [_ Hs2].
  { destruct Hauth as [H|H]; [left|by right]. by apply elem_of_add_l. }
  { done. }
  change (sign false +:+ "o") with "-o" in Hs2. fold s2 in Hs2.
  eexists. split; [rewrite Hs2; apply get_set_eq|].
  cbn [op_changed Channel.ops Channel.with_ops]. rewrite add_discard.
  split; [done|]. apply discard_absent.
Qed.

Lemma append_cons x (a b : string) : String x a +:+ b = String x (a +:+ b).
Proof. done. Qed.

Lemma append_assoc (a b c : string) : (a +:+ b) +:+ c = a +:+ b +:+ c.
Proof. induction a as [|x a IH]; [done|]. by rewrite !append_cons, IH. Qed.

Lemma msg_line_split (mask cmd target text : string) :
  ":" +:+ mask +:+ " " +:+ cmd +:+ " " +:+ target +:+ " :" +:+ text
  = (":" +:+ mask +:+ " ") +:+ cmd +:+ (" " +:+ target +:+ " :" +:+ text).
Proof. by rewrite !append_assoc. Qed.

Section Lookup.
Context (s : IRCServer) (c : cid) (cl : Client.t).
Hypothesis Hc : objs s !! c = Some cl.
Hypothesis Hreg : Client.registered cl = true.

Lemma whois_miss target :
  OrderedDict.get (clients s) target = None →
  cmd_WHOIS c [target] s
  = (Some tt, s, [Reply c (Client.nick cl) ERR_NOSUCHNICK [target; "No such nick/channel"]]).
Proof using Hc.
  intros Hmiss. unfold cmd_WHOIS. rewrite bind_get_state, Hmiss.
  by rewrite (reply_run _ _ _ Hc).
Qed.

Lemma send_message_miss target text cmd :
  is_channel_target target = false →
  OrderedDict.get (clients s) target = None →
  _send_message c [target; text] cmd s
  = (Some tt, s, [Reply c (Client.nick cl) ERR_NOSUCHNICK [target; "No such nick/channel"]]).
Proof using Hc Hreg.
  intros Hu Hmiss. unfold _send_message.
  rewrite (bind_the_client _ _ _ Hc), Hreg. cbn [negb]. rewrite Hu.
  rewrite bind_get_state, Hmiss. by rewrite (reply_run _ _ _ Hc).
Qed.

Lemma send_message_hit target dest d text cmd :
  is_channel_target target = false →
  OrderedDict.get (clients s) target = Some dest →
  objs s !! dest = Some d →
  ∃ o, _send_message c [target; text] cmd s
       = (Some tt, s,
          o ++ [Send dest (":" +:+ Client.mask cl +:+ " " +:+ cmd +:+ " "
                           +:+ target +:+ " :" +:+ text)])
       ∧ ∀ x, x ∈ o → is_reply RPL_AWAY x = true.
Proof using Hc Hreg.
  intros Hu Hhit Hd. unfold _send_message.
  rewrite (bind_the_client _ _ _ Hc), Hreg. cbn [negb]. rewrite Hu.
  rewrite bind_get_state, Hhit, (bind_the_client _ _ _ Hd).
  destruct (is_away d && bool_decide (cmd = "PRIVMSG")).
  - rewrite (bind_reply _ _ _ Hc). eexists [_]. split; [done|].
    intros x ->%list_elem_of_singleton. done.
  - rewrite bind_ret. exists []. split; [done|]. intros x []%elem_of_nil.
Qed.

Lemma whois_hit target dest d :
  OrderedDict.get (clients s) target = Some dest →
  objs s !! dest = Some d →
  ∃ o, cmd_WHOIS c [target] s
       = (Some tt, s,
          Reply c (Client.nick cl) RPL_WHOISUSER
            [target; Client.user d; Client.host d; "*"; Client.realname d] :: o).
Proof using Hc.
  intros Hhit Hd. unfold cmd_WHOIS.
  rewrite bind_get_state, Hhit, (bind_the_client _ _ _ Hd).
  rewrite !(bind_reply _ _ _ Hc).
  case_decide.
  - rewrite bind_ret, (reply_run _ _ _ Hc). by eexists.
  - rewrite (bind_reply _ _ _ Hc), (reply_run _ _ _ Hc). by eexists.
Qed.
End Lookup.

(** C4 (amended).  The registry resolves a nick argument by its exact
    spelling.  For a registered client: an argument that is not a key of
    the registry as it is spelled gets [ERR_NOSUCHNICK] from WHOIS and
    from PRIVMSG and NOTICE to a user target, whatever case variant of a
    registered nick it may be; an argument that is a key resolves to
    the client registered under it (WHOIS answers with that client's
    [RPL_WHOISUSER], the message is delivered to that client). *)
Theorem nick_lookup_exact s c cl :
  objs s !! c = Some cl →
  Client.registered cl = true →
  (∀ target,
     OrderedDict.get (clients s) target = None →
     cmd_WHOIS c [target] s
     = (Some tt, s,
        [Reply c (Client.nick cl) ERR_NOSUCHNICK [target; "No such nick/channel"]]))
  ∧ (∀ target text cmd,
       is_channel_target target = false →
       OrderedDict.get (clients s) target = None →
       _send_message c [target; text] cmd s
       = (Some tt, s,
          [Reply c (Client.nick cl) ERR_NOSUCHNICK [target; "No such nick/channel"]]))
  ∧ (∀ target dest d,
       OrderedDict.get (clients s) target = Some dest →
       objs s !! dest = Some d →
       ∃ o, cmd_WHOIS c [target] s
            = (Some tt, s,
               Reply c (Client.nick cl) RPL_WHOISUSER
                 [target; Client.user d; Client.host d; "*"; Client.realname d] :: o))
  ∧ (∀ target dest d text cmd,
       is_channel_target target = false →
       OrderedDict.get (clients s) target = Some dest →
       objs s !! dest = Some d →
       ∃ o, _send_message c [target; text] cmd s
            = (Some tt, s,
               o ++ [Send dest (":" +:+ Client.mask cl +:+ " " +:+ cmd +:+ " "
                                +:+ target +:+ " :" +:+ text)])
            ∧ ∀ x, x ∈ o → is_reply RPL_AWAY x = true).
Proof.
  intros Hc Hreg. split; [|split; [|split]].
  - intros target. by apply whois_miss.
  - intros target text cmd. by apply send_message_miss.
  - intros target dest d. by apply whois_hit.
  - intros target dest d text cmd. by apply send_message_hit.
Qed.

(** ** NOTICE against PRIVMSG *)
Lemma fan_out_same (l : list cid) c pre suf s :
  ∃ o1 o2,
    for_each l (λ member, if decide (member ≠ c)
                          then send member (pre +:+ "NOTICE" +:+ suf) else ret tt) s
    = (Some tt, s, o1)
    ∧ for_each l (λ member, if decide (member ≠ c)
                            then send member (pre +:+ "PRIVMSG" +:+ suf) else ret tt) s
      = (Some tt, s, o2)
    ∧ Forall2 same_but_cmd o1 o2
    ∧ Forall (λ o, is_reply RPL_AWAY o = false) o1
    ∧ Forall (λ o, is_reply RPL_AWAY o = false) o2.
Proof.
  induction l as [|m l (o1 & o2 & H1 & H2 & HF & Ha1 & Ha2)].
  - exists [], []. by repeat split.
  - rewrite !for_each_cons, !bind_run. cbv beta.
    case_decide.
    + unfold send at 1 3, emit. rewrite H1, H2.
      eexists (_ :: o1), (_ :: o2). repeat split; constructor; try done.
      constructor.
    + unfold ret at 1 3. rewrite H1, H2. exists o1, o2. by repeat split.
Qed.

Lemma filter_no_away (l : list Out) :
  Forall (λ o, is_reply RPL_AWAY o = false) l →
  filter (λ o, is_reply RPL_AWAY o = false) l = l.
Proof.
  induction 1 as [|x l Hx _ IH]; [done|].
  rewrite filter_cons_True by done. by rewrite IH.
Qed.

(** C6 (amended).  NOTICE is routed as PRIVMSG is and leaves the state
    alone; it never sends [RPL_AWAY]; but on a routing failure it sends
    the sender the very error numerics PRIVMSG sends (461, 403, 404,
    401): its output is that of PRIVMSG without the [RPL_AWAY] replies,
    up to the name of the command. *)
Theorem notice_routing s c params :
  let n := cmd_NOTICE c params s in
  let p := cmd_PRIVMSG c params s in
  state_of n = s ∧ state_of p = s ∧ n.1.1 = p.1.1
  ∧ Forall (λ o, is_reply RPL_AWAY o = false) (output_of n)
  ∧ Forall2 same_but_cmd (output_of n)
      (filter (λ o, is_reply RPL_AWAY o = false) (output_of p)).
Proof.
  unfold cmd_NOTICE, cmd_PRIVMSG, _send_message. cbv zeta.
  rewrite !bind_run. unfold the_client.
  destruct (objs s !! c) as [cl|] eqn:Hc; [|by repeat split; try constructor].
  rewrite !prepend_nil.
  destruct (Client.registered cl); cbn [negb]; [|by repeat split; try constructor].
  destruct params as [|target [|text rest]].
  1,2: rewrite !(reply_run _ _ _ Hc); repeat split; try done;
       repeat constructor.
  destruct (is_channel_target target).
  - rewrite !bind_get_state.
    destruct (OrderedDict.get (channels s) (Py.lower target)) as [ch|].
    2: { rewrite !(reply_run _ _ _ Hc). repeat split; try done; repeat constructor. }
    destruct (_ && _).
    { rewrite !(reply_run _ _ _ Hc). repeat split; try done; repeat constructor. }
    destruct (_ && _).
    { rewrite !(reply_run _ _ _ Hc). repeat split; try done; repeat constructor. }
    rewrite !msg_line_split.
    destruct (fan_out_same (OrderedDict.values (Channel.members ch)) c
                (":" +:+ Client.mask cl +:+ " ") (" " +:+ target +:+ " :" +:+ text) s)
      as (o1 & o2 & -> & -> & HF & Ha1 & Ha2).
    unfold state_of, output_of; simpl. rewrite filter_no_away by done. done.
  - rewrite !bind_get_state.
    destruct (OrderedDict.get (clients s) target) as [dest|].
    2: { rewrite !(reply_run _ _ _ Hc). repeat split; try done; repeat constructor. }
    rewrite !bind_run. unfold the_client.
    destruct (objs s !! dest) as [d|]; [|by repeat split; try constructor].
    rewrite !prepend_nil.
    change (bool_decide ("NOTICE" = "PRIVMSG")) with false.
    change (bool_decide ("PRIVMSG" = "PRIVMSG")) with true.
    rewrite andb_false_r, andb_true_r, bind_ret, !msg_line_split.
    destruct (is_away d).
    + rewrite (bind_reply _ _ _ Hc).
      repeat split; try done; repeat constructor.
    + rewrite bind_ret. repeat split; try done; repeat constructor.
Qed.

Section Join.
Variable re : string → string → option bool.
Context (s : IRCServer) (c : cid) (cl : Client.t).
Hypothesis Hc : objs s !! c = Some cl.

Lemma get_with_channel_named name :
  OrderedDict.get (channels (with_channel_named name s)) (Py.lower name)
  = Some (channel_named name s).
Proof.
  unfold with_channel_named, channel_named.
  destruct (OrderedDict.get (channels s) (Py.lower name)) eqn:E; simpl; [done|].
  apply get_set_eq.
Qed.

Lemma objs_with_channel_named name :
  objs (with_channel_named name s) = objs s.
Proof.
  unfold with_channel_named. by destruct (OrderedDict.get _ _).
Qed.

(** [join_one] from the lookup of the channel on. *)
Lemma join_one_lookup keys i raw :
  Py.strip raw ≠ "" → valid_channel (Py.strip raw) = true →
  let name := Py.strip raw in
  let ch := channel_named name s in
  let s1 := with_channel_named name s in
  join_one re c keys i raw s
  = (if decide (Py.lower name ∈ Client.channels cl) then ret tt
     else if limit_full ch
     then reply c ERR_CHANNELISFULL [name; "Cannot join channel (+l)"]
     else if bad_key ch (keys !! i)
     then reply c ERR_BADCHANNELKEY [name; "Cannot join channel (+k)"]
     else if not_invited ch (Client.nick cl)
     then reply c ERR_INVITEONLYCHAN [name; "Cannot join channel (+i)"]
     else
       match is_banned_in re (Channel.bans ch) (Client.mask cl) with
       | None => raise
       | Some true => reply c ERR_BANNEDFROMCHAN [name; "Cannot join channel (+b)"]
       | Some false =>
           let ch2 := joined (Client.nick cl) c ch in
           store_channel (Py.lower name) ch2 ;;
           update_client c (λ x, Client.with_channels
                                   (Client.channels x ∪ {[Py.lower name]}) x) ;;
           send_all ch2 (":" +:+ Client.mask cl +:+ " JOIN :" +:+ name) ;;
           (if decide (Channel.topic ch2 = "")
            then reply c RPL_NOTOPIC [name; "No topic is set"]
            else reply c RPL_TOPIC [name; Channel.topic ch2]) ;;
           send_names c ch2
       end) s1.
Proof using Hc.
  intros Hne Hvalid name ch s1. unfold join_one. cbv zeta.
  rewrite decide_False by done. rewrite Hvalid. cbn [negb]. fold name.
  rewrite bind_get_state.
  assert (Hc1 : objs s1 !! c = Some cl) by (by unfold s1; rewrite objs_with_channel_named).
  subst s1 ch. unfold with_channel_named, channel_named in *.
  destruct (OrderedDict.get (channels s) (Py.lower name)) as [ch0|] eqn:E.
  - rewrite bind_ret, (bind_the_client _ _ _ Hc).
    destruct (decide (_ ∈ _)); [reflexivity|].
    destruct (limit_full ch0); [reflexivity|]. destruct (bad_key ch0 _); [reflexivity|].
    destruct (not_invited ch0 _); [reflexivity|].
    unfold is_banned. rewrite bind_run.
    destruct (is_banned_in re _ _) as [[|]|]; rewrite ?prepend_nil; reflexivity.
  - rewrite bind_assoc, bind_store_channel, bind_ret.
    rewrite (bind_the_client _ _ _ Hc1).
    destruct (decide (_ ∈ _)); [reflexivity|].
    destruct (limit_full _); [reflexivity|]. destruct (bad_key _ _); [reflexivity|].
    destruct (not_invited _ _); [reflexivity|].
    unfold is_banned. rewrite bind_run.
    destruct (is_banned_in re _ _) as [[|]|]; rewrite ?prepend_nil; reflexivity.
Qed.
End Join.

Lemma send_names_run s c cl ch :
  objs s !! c = Some cl →
  ∃ names,
    send_names c ch s
    = (Some tt, s,
       [Reply c (Client.nick cl) RPL_NAMREPLY ["="; Channel.name ch; names];
        Reply c (Client.nick cl) RPL_ENDOFNAMES [Channel.name ch; "End of /NAMES list"]]).
Proof.
  intros Hc. unfold send_names.
  rewrite (bind_reply _ _ _ Hc), (reply_run _ _ _ Hc). by eexists.
Qed.

Section Joined.
Context (s : IRCServer) (c : cid) (cl : Client.t) (name : string) (ch2 : Channel.t).
Hypothesis Hc : objs s !! c = Some cl.

(** The tail of a round of [cmd_JOIN], for a client that passed the gates. *)
Lemma join_tail_run :
  ∃ o,
    (store_channel (Py.lower name) ch2 ;;
     update_client c (λ x, Client.with_channels
                             (Client.channels x ∪ {[Py.lower name]}) x) ;;
     send_all ch2 (":" +:+ Client.mask cl +:+ " JOIN :" +:+ name) ;;
     (if decide (Channel.topic ch2 = "")
      then reply c RPL_NOTOPIC [name; "No topic is set"]
      else reply c RPL_TOPIC [name; Channel.topic ch2]) ;;
     send_names c ch2) s
    = (Some tt,
       with_objs
         (alter (λ x, Client.with_channels (Client.channels x ∪ {[Py.lower name]}) x)
            c (objs s))
         (with_channels (OrderedDict.set (channels s) (Py.lower name) ch2) s),
       o)
    ∧ Forall (λ x, is_join_rejection x = false) o.
Proof using Hc.
  rewrite bind_store_channel, bind_update_client, bind_send_all.
  set (s' := with_objs _ _).
  assert (Hc' : objs s' !! c
                = Some (Client.with_channels
                          (Client.channels cl ∪ {[Py.lower name]}) cl)).
  { unfold s'. cbn [objs with_objs with_channels]. by rewrite lookup_alter_eq, Hc. }
  destruct (send_names_run s' c _ ch2 Hc') as [names Hn].
  case_decide; rewrite (bind_reply _ _ _ Hc'), Hn;
    (eexists; split; [reflexivity|]);
    apply Forall_app; (split; [apply Forall_fmap, Forall_true; by intros|]);
    by repeat constructor.
Qed.
End Joined.

Lemma valid_channel_nonempty name : valid_channel name = true → name ≠ "".
Proof. by intros H ->. Qed.

Lemma get_set_same_key {V} (d : list (string * V)) k v :
  is_Some (OrderedDict.get (OrderedDict.set d k v) k).
Proof. rewrite get_set_eq. by eexists. Qed.

Section JoinFacts.
Variable re : string → string → option bool.
Context (s : IRCServer) (c : cid) (cl : Client.t).
Hypothesis Hc : objs s !! c = Some cl.

(** C5.  One name of a JOIN command, for a client [c] with object [cl]
    (registered or not: [cmd_JOIN] only gets here for a registered
    one).  An invalid name gets [ERR_NOSUCHCHANNEL].  Otherwise the
    channel is in the registry afterwards, created if it was absent,
    and a client that is not on it yet meets the gates in this order:
    limit full, 471; else wrong key, 475; else not invited, 473; else
    banned, 474; else it is let in, with no rejection numeric, as a
    member, and as an operator when the channel had no member. *)
Theorem join_gate_order keys i raw :
  Py.strip raw ≠ "" →
  let name := Py.strip raw in
  let k := Py.lower name in
  let nick := Client.nick cl in
  let ch := channel_named name s in
  let r := join_one re c keys i raw s in
  let turned_away code text :=
    r = (Some tt, with_channel_named name s, [Reply c nick code [name; text]]) in
  (valid_channel name = false →
     r = (Some tt, s, [Reply c nick ERR_NOSUCHCHANNEL [name; "No such channel"]]))
  ∧ (valid_channel name = true →
     is_Some (OrderedDict.get (channels (state_of r)) k)
     ∧ (k ∉ Client.channels cl →
        (limit_full ch = true →
           turned_away ERR_CHANNELISFULL "Cannot join channel (+l)")
        ∧ (limit_full ch = false → bad_key ch (keys !! i) = true →
           turned_away ERR_BADCHANNELKEY "Cannot join channel (+k)")
        ∧ (limit_full ch = false → bad_key ch (keys !! i) = false →
           not_invited ch nick = true →
           turned_away ERR_INVITEONLYCHAN "Cannot join channel (+i)")
        ∧ (limit_full ch = false → bad_key ch (keys !! i) = false →
           not_invited ch nick = false →
           is_banned_in re (Channel.bans ch) (Client.mask cl) = Some true →
           turned_away ERR_BANNEDFROMCHAN "Cannot join channel (+b)")
        ∧ (limit_full ch = false → bad_key ch (keys !! i) = false →
           not_invited ch nick = false →
           is_banned_in re (Channel.bans ch) (Client.mask cl) = Some false →
           returned r = true
           ∧ Forall (λ o, is_join_rejection o = false) (output_of r)
           ∧ ∃ ch',
               OrderedDict.get (channels (state_of r)) k = Some ch'
               ∧ OrderedDict.get (Channel.members ch') nick = Some c
               ∧ (Channel.members ch = [] → nick ∈ Channel.ops ch')))).
Proof using Hc.
  intros Hne name k nick ch r turned_away.
  subst turned_away r ch nick k name. cbv beta. split.
  - intros Hinv. unfold join_one. cbv zeta.
    rewrite decide_False by done. rewrite Hinv. cbn [negb].
    by rewrite (reply_run _ _ _ Hc).
  - intros Hvalid.
    rewrite (join_one_lookup re s c cl Hc keys i raw Hne Hvalid). cbv zeta.
    pose proof (get_with_channel_named s (Py.strip raw)) as Hget.
    assert (Hc1 : objs (with_channel_named (Py.strip raw) s) !! c = Some cl)
      by (by rewrite objs_with_channel_named).
    destruct (join_tail_run _ c cl (Py.strip raw)
                (joined (Client.nick cl) c (channel_named (Py.strip raw) s)) Hc1)
      as (o & Htail & Ho).
    split.
    + destruct (decide (_ ∈ Client.channels cl));
        [by cbn [state_of ret raise fst snd]; rewrite Hget|].
      destruct (limit_full _); [by rewrite (reply_run _ _ _ Hc1); cbn [state_of ret raise fst snd]; rewrite Hget|].
      destruct (bad_key _ _); [by rewrite (reply_run _ _ _ Hc1); cbn [state_of ret raise fst snd]; rewrite Hget|].
      destruct (not_invited _ _); [by rewrite (reply_run _ _ _ Hc1); cbn [state_of ret raise fst snd]; rewrite Hget|].
      destruct (is_banned_in re _ _) as [[|]|];
        [by rewrite (reply_run _ _ _ Hc1); cbn [state_of ret raise fst snd]; rewrite Hget| |by cbn [state_of ret raise fst snd]; rewrite Hget].
      rewrite Htail. apply get_set_same_key.
    + intros Hnew. rewrite decide_False by done.
      split; [|split; [|split; [|split]]].
      * intros ->. by rewrite (reply_run _ _ _ Hc1).
      * intros -> ->. by rewrite (reply_run _ _ _ Hc1).
      * intros -> -> ->. by rewrite (reply_run _ _ _ Hc1).
      * intros -> -> -> ->. by rewrite (reply_run _ _ _ Hc1).
      * intros -> -> -> ->. rewrite Htail. split; [done|]. split; [done|].
        eexists. split; [apply get_set_eq|].
        unfold joined. split.
        -- case_bool_decide; apply get_set_eq.
        -- intros ->. cbn. apply elem_of_add.
Qed.
End JoinFacts.

Lemma invites_joined nick c ch :
  Channel.invites (joined nick c ch) = Channel.invites ch
  ∧ Channel.modes (joined nick c ch) = Channel.modes ch.
Proof. unfold joined. by case_bool_decide. Qed.

Section Invitation.
Variable re : string → string → option bool.

(** What a round of [cmd_JOIN] leaves alone: the nick of the client,
    the invitations and the modes of the channel. *)
Lemma join_one_frame s c cl keys i name :
  objs s !! c = Some cl →
  Py.strip name = name → valid_channel name = true →
  let s' := state_of (join_one re c keys i name s) in
  (∃ cl', objs s' !! c = Some cl' ∧ Client.nick cl' = Client.nick cl)
  ∧ ∃ ch', OrderedDict.get (channels s') (Py.lower name) = Some ch'
           ∧ Channel.invites ch' = Channel.invites (channel_named name s)
           ∧ Channel.modes ch' = Channel.modes (channel_named name s).
Proof.
  intros Hc Hstrip Hvalid.
  pose proof (valid_channel_nonempty _ Hvalid) as Hne.
  rewrite <- Hstrip in Hne, Hvalid.
  cbv zeta. rewrite (join_one_lookup re s c cl Hc keys i name Hne Hvalid).
  cbv zeta. rewrite !Hstrip.
  pose proof (get_with_channel_named s name) as Hget.
  assert (Hc1 : objs (with_channel_named name s) !! c = Some cl)
    by (by rewrite objs_with_channel_named).
  assert (Hsame :
    (∃ cl', objs (with_channel_named name s) !! c = Some cl'
            ∧ Client.nick cl' = Client.nick cl)
    ∧ ∃ ch', OrderedDict.get (channels (with_channel_named name s)) (Py.lower name)
             = Some ch'
             ∧ Channel.invites ch' = Channel.invites (channel_named name s)
             ∧ Channel.modes ch' = Channel.modes (channel_named name s))
    by (split; eauto).
  destruct (decide (_ ∈ Client.channels cl)); [done|].
  destruct (limit_full _); [by rewrite (reply_run _ _ _ Hc1)|].
  destruct (bad_key _ _); [by rewrite (reply_run _ _ _ Hc1)|].
  destruct (not_invited _ _); [by rewrite (reply_run _ _ _ Hc1)|].
  destruct (is_banned_in re _ _) as [[|]|];
    [by rewrite (reply_run _ _ _ Hc1)| |done].
  destruct (join_tail_run _ c cl name
              (joined (Client.nick cl) c (channel_named name s)) Hc1)
    as (o & -> & _).
  cbn [state_of fst snd objs channels with_objs with_channels]. split.
  - rewrite lookup_alter_eq, Hc1. by eexists.
  - rewrite get_set_eq. eexists. split; [done|]. apply invites_joined.
Qed.

(** The same for a round of [cmd_PART], when the channel survives. *)
Lemma part_one_frame s c cl msg name :
  objs s !! c = Some cl →
  let s' := state_of (part_one c msg name s) in
  (∃ cl', objs s' !! c = Some cl' ∧ Client.nick cl' = Client.nick cl)
  ∧ ∀ ch', OrderedDict.get (channels s') (Py.lower name) = Some ch' →
      ∃ ch, OrderedDict.get (channels s) (Py.lower name) = Some ch
            ∧ Channel.invites ch' = Channel.invites ch
            ∧ Channel.modes ch' = Channel.modes ch.
Proof.
  intros Hc. cbv zeta. unfold part_one. rewrite bind_get_state.
  destruct (OrderedDict.get (channels s) (Py.lower name)) as [ch|] eqn:Hch.
  2: { rewrite (reply_run _ _ _ Hc). split; [by eexists|]. cbn. by rewrite Hch. }
  rewrite (bind_the_client _ _ _ Hc).
  case_decide.
  { rewrite (reply_run _ _ _ Hc). split; [by eexists|]. cbn. rewrite Hch. eauto. }
  rewrite bind_send_all, bind_store_channel, bind_update_client.
  unfold drop_if_empty. rewrite bind_get_state.
  cbn [channels with_objs with_channels]. rewrite get_set_eq.
  destruct (Channel.members (Channel.remove_member (Client.nick cl) ch));
    cbn [state_of prepend modify ret fst snd objs channels with_objs with_channels].
  - split; [rewrite lookup_alter_eq, Hc; by eexists|].
    intros ch'. by rewrite get_pop_eq.
  - split; [rewrite lookup_alter_eq, Hc; by eexists|].
    intros ch'. rewrite get_set_eq. intros [= <-]. by eexists.
Qed.

(** A client whose nick is on the invitation list is not turned away
    for want of an invitation. *)
Lemma join_one_invited s c cl keys i name :
  objs s !! c = Some cl →
  Py.strip name = name → valid_channel name = true →
  (∀ ch, OrderedDict.get (channels s) (Py.lower name) = Some ch →
         Client.nick cl ∈ Channel.invites ch) →
  Forall (λ o, is_reply ERR_INVITEONLYCHAN o = false)
         (output_of (join_one re c keys i name s)).
Proof.
  intros Hc Hstrip Hvalid Hinv.
  pose proof (valid_channel_nonempty _ Hvalid) as Hne.
  rewrite <- Hstrip in Hne, Hvalid.
  rewrite (join_one_lookup re s c cl Hc keys i name Hne Hvalid).
  cbv zeta. rewrite !Hstrip.
  assert (Hc1 : objs (with_channel_named name s) !! c = Some cl)
    by (by rewrite objs_with_channel_named).
  assert (not_invited (channel_named name s) (Client.nick cl) = false) as ->.
  { unfold channel_named, not_invited.
    destruct (OrderedDict.get (channels s) (Py.lower name)) as [ch|]; [|done].
    rewrite (bool_decide_eq_true_2 _ (Hinv ch eq_refl)). apply andb_false_r. }
  destruct (decide (_ ∈ Client.channels cl)); [by constructor|].
  destruct (limit_full _); [rewrite (reply_run _ _ _ Hc1); by repeat constructor|].
  destruct (bad_key _ _); [rewrite (reply_run _ _ _ Hc1); by repeat constructor|].
  destruct (is_banned_in re _ _) as [[|]|];
    [rewrite (reply_run _ _ _ Hc1); by repeat constructor| |by constructor].
  destruct (join_tail_run _ c cl name
              (joined (Client.nick cl) c (channel_named name s)) Hc1)
    as (o & -> & Ho).
  cbn [output_of snd]. eapply Forall_impl; [exact Ho|].
  intros [| ? ? code ?|]; cbn; try done.
  intros Hcode. apply bool_decide_eq_false. intros ->.
  apply bool_decide_eq_false in Hcode. apply Hcode.
  unfold join_rejections. rewrite !elem_of_cons. tauto.
Qed.

(** C10.  An invitation is not used up.  Let the nick of a client be
    on the invitation list of a channel.  A JOIN of that channel by the
    client, whatever its outcome, leaves the list as it was; so does a
    later PART, as long as the channel stays in the registry; and a
    JOIN after that is not answered with [ERR_INVITEONLYCHAN]. *)
Theorem invitation_survives_join s c cl keys i name ch :
  objs s !! c = Some cl →
  Py.strip name = name → valid_channel name = true →
  OrderedDict.get (channels s) (Py.lower name) = Some ch →
  Client.nick cl ∈ Channel.invites ch →
  let s1 := state_of (join_one re c keys i name s) in
  (∃ ch1, OrderedDict.get (channels s1) (Py.lower name) = Some ch1
          ∧ Channel.invites ch1 = Channel.invites ch)
  ∧ ∀ msg,
      let s2 := state_of (part_one c msg name s1) in
      (∀ ch2, OrderedDict.get (channels s2) (Py.lower name) = Some ch2 →
              Channel.invites ch2 = Channel.invites ch)
      ∧ ∀ keys' i',
          Forall (λ o, is_reply ERR_INVITEONLYCHAN o = false)
                 (output_of (join_one re c keys' i' name s2)).
Proof.
  intros Hc Hstrip Hvalid Hch Hinv s1.
  destruct (join_one_frame s c cl keys i name Hc Hstrip Hvalid)
    as [(cl1 & Hc1 & Hn1) (ch1 & Hch1 & Hi1 & _)].
  fold s1 in Hc1, Hch1.
  assert (channel_named name s = ch) as Hnamed by (unfold channel_named; by rewrite Hch).
  rewrite Hnamed in Hi1.
  split; [by eexists|].
  intros msg s2.
  destruct (part_one_frame s1 c cl1 msg name Hc1) as [(cl2 & Hc2 & Hn2) Hkeep].
  fold s2 in Hc2, Hkeep.
  assert (Hinv2 : ∀ ch2, OrderedDict.get (channels s2) (Py.lower name) = Some ch2 →
                         Channel.invites ch2 = Channel.invites ch).
  { intros ch2 Hch2. destruct (Hkeep ch2 Hch2) as (ch1' & Hch1' & Hi2 & _).
    rewrite Hch1 in Hch1'. injection Hch1' as <-. congruence. }
  split; [done|].
  intros keys' i'. apply (join_one_invited s2 c cl2); try done.
  intros ch2 Hch2. rewrite (Hinv2 ch2 Hch2). congruence.
Qed.
End Invitation.

(** ** Lines *)

Lemma append_nil_r (a : string) : a +:+ "" = a.
Proof. induction a as [|x a IH]; [done|]. by rewrite append_cons, IH. Qed.

Lemma words_word t w rest :
  Py.forallb nonspace t = true →
  Py.words w (t +:+ rest) = Py.words (w +:+ t) rest.
Proof.
  revert w. induction t as [|x t IH]; intros w Ht.
  - by rewrite append_nil_r.
  - cbn [Py.forallb] in Ht. apply andb_true_iff in Ht as [Hx Ht].
    rewrite append_cons. cbn [Py.words].
    unfold nonspace in Hx. apply negb_true_iff in Hx. rewrite Hx.
    rewrite IH by done. by rewrite append_assoc.
Qed.

Lemma words_space w rest :
  w ≠ "" → Py.words w (" " +:+ rest) = w :: Py.words "" rest.
Proof.
  intros Hw. change (" " +:+ rest) with (String " " rest). cbn [Py.words].
  change (Py.isspace " ") with true. cbv iota. by rewrite decide_False.
Qed.

Lemma is_word_spec w :
  is_word w = true → w ≠ "" ∧ Py.forallb nonspace w = true.
Proof.
  unfold is_word. intros [H1 H2]%andb_true_iff. split; [|done].
  by apply negb_true_iff, bool_decide_eq_false in H1.
Qed.

Lemma startswith_colon x w : Py.startswith (String x w) ":" = true ↔ x = ":"%char.
Proof.
  unfold Py.startswith. cbn [Py.strip_prefix]. rewrite bool_decide_eq_true.
  case_decide; subst; [by split; eauto|]. split; [by intros [??]|done].
Qed.

Lemma is_middle_spec w :
  is_middle w = true →
  is_word w = true ∧ ∃ x w', w = String x w' ∧ x ≠ ":"%char.
Proof.
  unfold is_middle. intros [H1 H2]%andb_true_iff. split; [done|].
  apply is_word_spec in H1 as [Hne _].
  destruct w as [|x w']; [done|]. exists x, w'. split; [done|].
  intros Hx. apply startswith_colon with (w:=w') in Hx. by rewrite Hx in H2.
Qed.

(** [split] reads back the command and the middle parameters. *)
Lemma split_words cmd middles :
  is_word cmd = true → Forall (λ m, is_middle m = true) middles →
  Py.split (cmd +:+ middles_text middles) = cmd :: middles.
Proof.
  unfold Py.split. intros Hcmd Hm. revert cmd Hcmd.
  induction Hm as [|m middles Hmid _ IH]; intros cmd Hcmd;
    apply is_word_spec in Hcmd as [Hne Hns].
  - cbn [middles_text foldr]. rewrite words_word by done.
    change ("" +:+ cmd) with cmd. cbn [Py.words]. by rewrite decide_False.
  - cbn [middles_text foldr]. rewrite words_word by done.
    change ("" +:+ cmd) with cmd. rewrite words_space by done.
    f_equal. apply IH. by apply is_middle_spec in Hmid as [? _].
Qed.

Lemma partition_cons_None x s :
  Py.strip_prefix " :" (String x s) = None →
  Py.partition " :" (String x s)
  = (λ p, (String x p.1, p.2)) <$> Py.partition " :" s.
Proof.
  intros H. cbn [Py.partition]. rewrite H.
  by destruct (Py.partition " :" s) as [[??]|].
Qed.

Lemma partition_word w rest :
  Py.forallb nonspace w = true →
  Py.partition " :" (w +:+ rest)
  = (λ p, (w +:+ p.1, p.2)) <$> Py.partition " :" rest.
Proof.
  induction w as [|x w IH]; intros Hw.
  - change ("" +:+ rest) with rest.
    by destruct (Py.partition " :" rest) as [[??]|].
  - cbn [Py.forallb] in Hw. apply andb_true_iff in Hw as [Hx Hw].
    rewrite append_cons, partition_cons_None.
    + rewrite IH by done. by destruct (Py.partition " :" rest) as [[??]|].
    + cbn [Py.strip_prefix]. rewrite decide_False; [done|].
      intros <-. by vm_compute in Hx.
Qed.

Lemma partition_space m rest :
  is_middle m = true →
  Py.partition " :" (" " +:+ m +:+ rest)
  = (λ p, (" " +:+ m +:+ p.1, p.2)) <$> Py.partition " :" rest.
Proof.
  intros Hm. destruct (is_middle_spec _ Hm) as [Hw (x & w' & Hmx & Hx)].
  apply is_word_spec in Hw as [_ Hns].
  change (" " +:+ m +:+ rest) with (String " " (m +:+ rest)).
  rewrite partition_cons_None.
  - rewrite partition_word by done.
    by destruct (Py.partition " :" rest) as [[??]|].
  - subst m. rewrite append_cons. cbn [Py.strip_prefix].
    rewrite decide_True by done. by rewrite decide_False.
Qed.

Lemma partition_middles middles tail :
  Forall (λ m, is_middle m = true) middles →
  Py.partition " :" (middles_text middles +:+ tail)
  = (λ p, (middles_text middles +:+ p.1, p.2)) <$> Py.partition " :" tail.
Proof.
  induction 1 as [|m middles Hm _ IH].
  - change (middles_text [] +:+ tail) with tail.
    by destruct (Py.partition " :" tail) as [[??]|].
  - cbn [middles_text foldr]. fold (middles_text middles).
    rewrite !append_assoc, partition_space, IH by done.
    destruct (Py.partition " :" tail) as [[a b]|]; [|done].
    cbn. by rewrite !append_assoc.
Qed.

(** The tokens of a well-formed line. *)
Lemma tokens_of_irc_line cmd middles trailing :
  is_word cmd = true → Forall (λ m, is_middle m = true) middles →
  tokens_of (irc_line cmd middles trailing) = cmd :: middles ++ option_list trailing.
Proof.
  intros Hcmd Hm. unfold tokens_of, irc_line, Py.split1.
  destruct (is_word_spec _ Hcmd) as [_ Hns].
  rewrite partition_word, partition_middles by done.
  destruct trailing as [t|]; cbn [trailing_text].
  - change (Py.partition " :" (" :" +:+ t)) with (Some ("", t)).
    cbn [fmap option_fmap option_map fst snd]. rewrite !append_nil_r.
    by rewrite split_words.
  - change (Py.partition " :" "") with (@None (string * string)).
    cbn [fmap option_fmap option_map]. rewrite !append_nil_r.
    rewrite split_words by done. by rewrite app_nil_r.
Qed.

Lemma upper_char_nonspace x : nonspace x = true → nonspace (Py.upper_char x) = true.
Proof. by destruct x as [[] [] [] [] [] [] [] []]. Qed.

Lemma upper_char_idemp x : Py.upper_char (Py.upper_char x) = Py.upper_char x.
Proof. by destruct x as [[] [] [] [] [] [] [] []]. Qed.

Lemma upper_idemp w : Py.upper (Py.upper w) = Py.upper w.
Proof.
  unfold Py.upper. induction w as [|x w IH]; [done|].
  cbn [Py.map]. by rewrite upper_char_idemp, IH.
Qed.

Lemma upper_is_word w : is_word w = true → is_word (Py.upper w) = true.
Proof.
  intros [Hne Hns]%is_word_spec. unfold is_word. apply andb_true_iff. split.
  - apply negb_true_iff, bool_decide_eq_false. by destruct w.
  - clear Hne. unfold Py.upper. induction w as [|x w IH]; [done|].
    cbn [Py.forallb Py.map] in *. apply andb_true_iff in Hns as [Hx Hw].
    by rewrite upper_char_nonspace, IH.
Qed.

Lemma drop_prefix_line cmd middles trailing :
  is_middle cmd = true →
  drop_prefix (irc_line cmd middles trailing) = irc_line cmd middles trailing.
Proof.
  intros (_ & x & w & -> & Hx)%is_middle_spec. unfold drop_prefix, irc_line.
  rewrite append_cons.
  destruct (Py.startswith _ _) eqn:E; [|done].
  by apply startswith_colon in E.
Qed.

Lemma partition_one_space origin rest :
  Py.mem " " origin = false →
  Py.partition " " (origin +:+ " " +:+ rest) = Some (origin, rest).
Proof.
  induction origin as [|x origin IH]; intros Ho; [done|].
  cbn [Py.mem] in Ho. apply orb_false_iff in Ho as [Hx Ho].
  rewrite append_cons. cbn [Py.partition Py.strip_prefix].
  rewrite decide_False; [by rewrite IH|].
  intros <-. done.
Qed.

Lemma drop_prefix_send_from origin cmd params :
  Py.mem " " origin = false →
  drop_prefix (send_from_line origin cmd params)
  = cmd +:+ " " +:+ Py.join " " (colon_last params).
Proof.
  intros Ho. unfold drop_prefix, send_from_line.
  change (":" +:+ origin +:+ " " +:+ cmd +:+ " " +:+ Py.join " " (colon_last params))
    with (String ":" (origin +:+ " " +:+ cmd +:+ " " +:+ Py.join " " (colon_last params))).
  assert (Py.startswith (String ":" (origin +:+ " " +:+ cmd +:+ " "
            +:+ Py.join " " (colon_last params))) ":" = true) as ->
    by (by apply startswith_colon).
  cbn [Py.tail]. unfold Py.split1. by rewrite partition_one_space.
Qed.

(** What the formatter writes after the command is the text of a line
    whose last parameter is the trailing one. *)
Lemma formatted_params p params :
  " " +:+ Py.join " " (colon_last (p :: params))
  = middles_text (removelast (p :: params))
    +:+ trailing_text (Some (List.last (p :: params) "")).
Proof.
  revert p. induction params as [|q params IH]; intros p; [done|].
  change (colon_last (p :: q :: params)) with (p :: colon_last (q :: params)).
  change (removelast (p :: q :: params)) with (p :: removelast (q :: params)).
  change (List.last (p :: q :: params) "") with (List.last (q :: params) "").
  cbn [middles_text foldr]. fold (middles_text (removelast (q :: params))).
  rewrite !append_assoc, <- IH.
  unfold Py.join. destruct params; reflexivity.
Qed.

Lemma tokens_of_command cmd :
  is_word cmd = true → tokens_of (cmd +:+ " " +:+ "") = [cmd].
Proof.
  intros Hcmd. destruct (is_word_spec _ Hcmd) as [Hne Hns].
  unfold tokens_of, Py.split1. rewrite partition_word by done.
  change (Py.partition " :" (" " +:+ "")) with (@None (string * string)).
  cbn [fmap option_fmap option_map]. unfold Py.split.
  rewrite words_word by done. change ("" +:+ cmd) with cmd.
  rewrite words_space by done. done.
Qed.

(** C8.  A well-formed line without prefix (a command, middle
    parameters and an optional trailing parameter, the command and the
    middle parameters being words that do not begin with a colon) is
    parsed by the dispatcher into its command, in upper case, and its
    parameters, the trailing one last and verbatim; the formatter's
    line for that command and those parameters, from any origin without
    a space, is parsed into the same command and the same parameters. *)
Theorem parse_format_roundtrip origin cmd middles trailing :
  is_middle cmd = true →
  Forall (λ m, is_middle m = true) middles →
  Py.mem " " origin = false →
  let params := middles ++ option_list trailing in
  parse_line (irc_line cmd middles trailing) = Some (Py.upper cmd, params)
  ∧ parse_line (send_from_line origin (Py.upper cmd) params)
    = Some (Py.upper cmd, params).
Proof.
  intros Hcmd Hm Ho params.
  pose proof (is_middle_spec _ Hcmd) as [Hw _].
  split; unfold parse_line.
  - by rewrite drop_prefix_line, tokens_of_irc_line.
  - rewrite drop_prefix_send_from by done.
    destruct params as [|p ps] eqn:Hp.
    + rewrite tokens_of_command by (by apply upper_is_word).
      by rewrite upper_idemp.
    + rewrite formatted_params.
      fold (irc_line (Py.upper cmd) (removelast (p :: ps)) (Some (List.last (p :: ps) ""))).
      rewrite tokens_of_irc_line.
      * cbn [option_list option_rect]. rewrite <- app_removelast_last by done.
        by rewrite upper_idemp.
      * by apply upper_is_word.
      * rewrite <- Hp. subst params. destruct trailing as [t|]; cbn [option_list option_rect].
        -- by rewrite removelast_last.
        -- rewrite app_nil_r. clear Hp.
           induction Hm as [|m [|m' ms] Hmid Hrest IH]; [done|done|].
           change (removelast (m :: m' :: ms)) with (m :: removelast (m' :: ms)).
           by constructor.
Qed.

Section Nick.
Context (s : IRCServer) (c : cid) (cl : Client.t).
Hypothesis Hc : objs s !! c = Some cl.

(** The loop of [cmd_NICK] over the channels of the client sends nothing. *)
Lemma rename_loop_silent old_nick nick (l : list string) (acc : gset cid) s0 :
  ∃ acc' s',
    fold_each l acc
      (λ affected ch_name,
         s ← get_state;
         match OrderedDict.get (channels s) ch_name with
         | Some ch =>
             let ch' := Channel.rename_member old_nick nick c ch in
             update_channel ch_name (λ _, ch') ;;
             ret (affected ∪ list_to_set (OrderedDict.values (Channel.members ch')))
         | None => ret affected
         end) s0
    = (Some acc', s', []).
Proof.
  revert acc s0. induction l as [|x l IH]; intros acc s0; [by eexists _, _|].
  rewrite fold_each_cons, bind_assoc, bind_get_state.
  destruct (OrderedDict.get (channels s0) x) as [ch|].
  - unfold update_channel. rewrite bind_assoc, bind_modify, bind_ret. apply IH.
  - rewrite bind_ret. apply IH.
Qed.

(** C9 (amended).  A registered client whose nick [N] is a key of the
    registry asks for a valid nick equal to [N] up to case.  If the new
    nick is not [N] itself, the request is refused with
    [ERR_NICKNAMEINUSE] and nothing changes: the collision check
    compares every key of the registry, the client's own included,
    without regard to case, and exempts the new nick only when it is
    exactly the current one.  If it is [N] itself, the request goes
    through, with no [ERR_NICKNAMEINUSE]. *)
Theorem nick_case_change_rejected new :
  Client.registered cl = true →
  OrderedDict.get (clients s) (Client.nick cl) = Some c →
  valid_nick new = true →
  Py.lower new = Py.lower (Client.nick cl) →
  (new ≠ Client.nick cl →
     cmd_NICK c [new] s
     = (Some tt, s,
        [Reply c (Client.nick cl) ERR_NICKNAMEINUSE [new; "Nickname is already in use"]]))
  ∧ (new = Client.nick cl →
     returned (cmd_NICK c [new] s) = true
     ∧ Forall (λ o, is_reply ERR_NICKNAMEINUSE o = false)
              (output_of (cmd_NICK c [new] s))).
Proof using Hc.
  intros Hreg Hown Hvalid Hlow.
  assert (Hrun : cmd_NICK c [new] s = _) by (unfold cmd_NICK; reflexivity).
  rewrite Hvalid in Hrun. cbn [negb] in Hrun.
  rewrite bind_get_state, (bind_the_client _ _ _ Hc) in Hrun.
  assert (nick_in_use s new = true) as Huse.
  { unfold nick_in_use. apply bool_decide_eq_true. rewrite Hlow.
    apply list_elem_of_fmap_2. by eapply get_keys. }
  rewrite Huse, Hreg in Hrun. rewrite Hrun. clear Hrun. split.
  - intros Hne. rewrite bool_decide_eq_false_2 by done. cbn [negb andb].
    by rewrite (reply_run _ _ _ Hc).
  - intros Heq. rewrite bool_decide_eq_true_2 by done. cbn [negb andb].
    rewrite bind_modify, bind_update_client, bind_run.
    edestruct rename_loop_silent as (acc' & s' & ->).
    rewrite prepend_nil.
    rewrite (for_each_send_run _ (λ _, _)). split; [done|].
    cbn [output_of snd]. apply Forall_fmap, Forall_true. by intros.
Qed.
End Nick.

(** ** PART and the channels without members *)

Lemma for_each_state {A} (P : IRCServer → Prop) (body : A → M unit) l s :
  (∀ x s, P s → P (state_of (body x s))) →
  P s → P (state_of (for_each l body s)).
Proof.
  intros Hbody. revert s. induction l as [|x l IH]; intros s Hs; [done|].
  rewrite for_each_cons, bind_run.
  specialize (Hbody x s Hs). destruct (body x s) as [[[[]|] s1] o1]; [|done].
  by apply IH.
Qed.

(** One round of [cmd_PART] leaves no channel without members behind. *)
Lemma part_one_keeps_channels_inhabited c msg name s :
  no_empty_channel s → no_empty_channel (state_of (part_one c msg name s)).
Proof.
  intros Hs. unfold part_one. rewrite bind_get_state.
  destruct (OrderedDict.get (channels s) (Py.lower name)) as [ch|] eqn:Hch.
  2: { unfold reply. rewrite bind_run. unfold the_client.
       by destruct (objs s !! c). }
  rewrite bind_run. unfold the_client.
  destruct (objs s !! c) as [cl|] eqn:Hc; [|done].
  rewrite prepend_nil. case_decide; [by rewrite (reply_run _ _ _ Hc)|].
  rewrite bind_send_all, bind_store_channel, bind_update_client.
  unfold drop_if_empty. rewrite bind_get_state.
  cbn [channels with_objs with_channels]. rewrite get_set_eq.
  destruct (Channel.members (Channel.remove_member (Client.nick cl) ch)) eqn:Hm;
    unfold no_empty_channel;
    cbn [state_of prepend modify ret fst snd objs channels with_objs with_channels];
    intros k ch'.
  - destruct (decide (Py.lower name = k)) as [<-|Hk]; [by rewrite get_pop_eq|].
    rewrite get_pop_ne, get_set_ne by done. apply Hs.
  - destruct (decide (Py.lower name = k)) as [<-|Hk].
    + rewrite get_set_eq. intros [= <-]. by rewrite Hm.
    + rewrite get_set_ne by done. apply Hs.
Qed.

(** X17.  PART leaves no channel without members behind: when every
    channel of the registry has a member before the command, every
    channel of the registry has one when the handler returns, the
    channel whose last member left being gone. *)
Lemma cmd_PART_keeps_channels_inhabited c params s :
  no_empty_channel s → no_empty_channel (state_of (cmd_PART c params s)).
Proof.
  intros Hs. unfold cmd_PART. destruct params as [|p0 rest].
  - unfold reply. rewrite bind_run. unfold the_client. by destruct (objs s !! c).
  - rewrite bind_run. unfold the_client. destruct (objs s !! c); [|done].
    rewrite prepend_nil. apply (for_each_state no_empty_channel); [|done].
    intros x s'. apply part_one_keeps_channels_inhabited.
Qed.

(* ===================================================================== *)
(** * Where the server departs from its invariants *)
(* ===================================================================== *)

Lemma reachable_run re script : reachable re (run re script (new_server "T0")).1.
Proof. by exists "T0", script. Qed.

(** C1.  The server reaches a state in which two live clients are
    registered under the same nick: [cmd_NICK] looks for a collision
    among the registered clients only, so two connections may both hold
    [alice] before either registers, and [try_register] installs each
    of them without looking again. *)
Theorem two_clients_register_one_nick (re : string → string → option bool) :
  let s := (run re two_alices (new_server "T0")).1 in
  reachable re s
  ∧ objs s !! 0 = Some (Client.mk "alice" "a" "A" "h0" true None ∅ ∅ true true)
  ∧ objs s !! 1 = Some (Client.mk "alice" "b" "B" "h1" true None ∅ ∅ true true)
  ∧ clients s = [("alice", 1)]
  ∧ ¬ nick_unique s.
Proof.
  cbv zeta. split; [apply reachable_run|].
  assert (H0 : objs (run re two_alices (new_server "T0")).1 !! 0
               = Some (Client.mk "alice" "a" "A" "h0" true None ∅ ∅ true true))
    by (vm_compute; reflexivity).
  assert (H1 : objs (run re two_alices (new_server "T0")).1 !! 1
               = Some (Client.mk "alice" "b" "B" "h1" true None ∅ ∅ true true))
    by (vm_compute; reflexivity).
  split; [exact H0|]. split; [exact H1|]. split; [vm_compute; reflexivity|].
  intros Hu. apply (Hu 0 1 _ _ ltac:(vm_compute; reflexivity)
                     ltac:(vm_compute; reflexivity) ltac:(done) H0 H1);
    reflexivity.
Qed.

(** C2.  After KICK has returned, the registry may hold a channel
    without members: the only member of [#test], its operator, kicks
    herself; the member goes and the channel stays, where PART, QUIT
    and the cleanup of a connection delete it. *)
Theorem kick_leaves_empty_channel (re : string → string → option bool) :
  let s0 := (run re alice_in_test (new_server "T0")).1 in
  let r := cmd_KICK 0 ["#test"; "alice"] s0 in
  reachable re s0
  ∧ channels s0 = [("#test", test_channel)]
  ∧ returned r = true
  ∧ channels (state_of r) = [("#test", Channel.with_ops ∅ (Channel.with_members [] test_channel))]
  ∧ reachable re (state_of r)
  ∧ ¬ no_empty_channel (state_of r).
Proof.
  cbv zeta. split; [apply reachable_run|].
  split; [vm_compute; reflexivity|]. split; [vm_compute; reflexivity|].
  assert (Hk : channels (state_of (cmd_KICK 0 ["#test"; "alice"]
                                     (run re alice_in_test (new_server "T0")).1))
               = [("#test", Channel.with_ops ∅ (Channel.with_members [] test_channel))])
    by (vm_compute; reflexivity).
  split; [exact Hk|]. split.
  - exists "T0", alice_kicks_herself. vm_compute. reflexivity.
  - intros Hne. eapply (Hne "#test"); [by rewrite Hk|done].
Qed.

(** C3.  A client that has not registered is served all the same by the
    handlers that do not look at [registered]: LIST answers it with
    [RPL_LISTEND], and its TOPIC changes the topic of a channel and is
    announced to the members. *)
Theorem unregistered_client_is_served (re : string → string → option bool)
    (now : string) :
  let s := (run re [Accept 0 "h0"] (new_server "T0")).1 in
  let s' := (run re (alice_in_test ++ [Accept 1 "h1"]) (new_server "T0")).1 in
  let r := dispatch re now 1 "TOPIC #test :taken" s' in
  (Client.registered <$> objs s !! 0 = Some false
   ∧ dispatch re now 0 "LIST" s
     = (Some tt, s, [Reply 0 "*" RPL_LISTEND ["End of /LIST"]]))
  ∧ (Client.registered <$> objs s' !! 1 = Some false
     ∧ Channel.topic <$> OrderedDict.get (channels s') "#test" = Some ""
     ∧ Channel.topic <$> OrderedDict.get (channels (state_of r)) "#test" = Some "taken"
     ∧ output_of r = [Send 0 ":*!@h1 TOPIC #test :taken"]).
Proof. cbv zeta. repeat split; vm_compute; reflexivity. Qed.

(* ===================================================================== *)
(** * The theorems at work, and the claims that fail *)
(* ===================================================================== *)

(** ** Nick lookup *)

Lemma nick_lookup_exact_witness :
  let s := state_after (alice_registers ++ bob_registers) in
  cmd_WHOIS 1 ["ALICE"] s
  = (Some tt, s, [Reply 1 "bob" ERR_NOSUCHNICK ["ALICE"; "No such nick/channel"]])
  ∧ ∃ o, cmd_WHOIS 1 ["alice"] s
         = (Some tt, s, Reply 1 "bob" RPL_WHOISUSER ["alice"; "a"; "h0"; "*"; "A"] :: o).
Proof.
  cbv zeta.
  destruct (nick_lookup_exact (state_after (alice_registers ++ bob_registers)) 1 bob)
    as (Hmiss & _ & Hhit & _).
  - vm_compute. reflexivity.
  - reflexivity.
  - split.
    + apply Hmiss. vm_compute. reflexivity.
    + apply (Hhit "alice" 0 alice); vm_compute; reflexivity.
Defined.

(** [alice] is registered, [ALICE] is her nick up to case, and yet WHOIS
    and PRIVMSG from [bob] for [ALICE] end in [ERR_NOSUCHNICK]. *)
Lemma nick_lookup_misses_case_variant :
  let s := state_after (alice_registers ++ bob_registers) in
  objs s !! 0 = Some alice
  ∧ OrderedDict.get (clients s) "alice" = Some 0
  ∧ Py.lower "ALICE" = Py.lower "alice"
  ∧ cmd_WHOIS 1 ["ALICE"] s
    = (Some tt, s, [Reply 1 "bob" ERR_NOSUCHNICK ["ALICE"; "No such nick/channel"]])
  ∧ cmd_PRIVMSG 1 ["ALICE"; "hi"] s
    = (Some tt, s, [Reply 1 "bob" ERR_NOSUCHNICK ["ALICE"; "No such nick/channel"]]).
Proof. cbv zeta. repeat split; vm_compute; reflexivity. Qed.

(** ** JOIN *)

(** [bob], invited, joins the guarded room without a key: the room is
    full, and that is what he is told, not that his key is wrong. *)
Lemma join_gate_order_witness :
  let s := state_after guarded_room in
  limit_full room_guarded = true ∧ bad_key room_guarded None = true
  ∧ join_one no_regex 1 [] 0 "#room" s
    = (Some tt, s, [Reply 1 "bob" ERR_CHANNELISFULL ["#room"; "Cannot join channel (+l)"]]).
Proof.
  cbv zeta. split; [reflexivity|]. split; [reflexivity|].
  destruct (join_gate_order no_regex (state_after guarded_room) 1 bob) with
    (keys := @nil string) (i := 0) (raw := "#room") as [_ Hvalid].
  - vm_compute. reflexivity.
  - vm_compute. discriminate.
  - destruct Hvalid as [_ Hgates]; [reflexivity|].
    destruct Hgates as [Hfull _]; [apply not_elem_of_empty|].
    rewrite Hfull; [|vm_compute; reflexivity].
    vm_compute. reflexivity.
Defined.

(** ** NOTICE *)

(** NOTICE to a nick that is not there, and NOTICE without parameters,
    are answered with error numerics. *)
Lemma notice_answers_with_error :
  let s := state_after alice_registers in
  cmd_NOTICE 0 ["bob"; "hi"] s
  = (Some tt, s, [Reply 0 "alice" ERR_NOSUCHNICK ["bob"; "No such nick/channel"]])
  ∧ cmd_NOTICE 0 [] s
    = (Some tt, s, [Reply 0 "alice" ERR_NEEDMOREPARAMS ["NOTICE"; "Not enough parameters"]]).
Proof. cbv zeta. split; vm_compute; reflexivity. Qed.

(** ** MODE *)

(** [alice] gives [bob] the operator status and takes it back. *)
Lemma op_then_deop_witness :
  let s := state_after two_in_test in
  let s1 := state_of (handle_channel_mode 0 "#test" ["+o"; "bob"] s) in
  let s2 := state_of (handle_channel_mode 0 "#test" ["-o"; "bob"] s1) in
  ∃ ch2,
    OrderedDict.get (channels s2) "#test" = Some ch2
    ∧ Channel.ops ch2 = Channel.ops test_with_bob.
Proof.
  cbv zeta.
  destruct (op_then_deop (state_after two_in_test) 0 (alice_on "#test")
              "#test" test_with_bob "bob") as (ch2 & Hget & _ & Hsame).
  - vm_compute. reflexivity.
  - vm_compute. reflexivity.
  - left. change ("alice" ∈ ({["alice"]} : gset string)).
    by apply elem_of_singleton_2.
  - reflexivity.
  - exists ch2. split; [exact Hget|]. apply Hsame.
    change ("bob" ∉ ({["alice"]} : gset string)).
    intros H%elem_of_singleton_1. discriminate.
Defined.

(** [alice], already the operator of [#test], gives herself the
    operator status and takes it back: she is an operator no more. *)
Lemma op_then_deop_drops_operator :
  let s := state_after alice_in_test in
  let s1 := state_of (handle_channel_mode 0 "#test" ["+o"; "alice"] s) in
  let s2 := state_of (handle_channel_mode 0 "#test" ["-o"; "alice"] s1) in
  Channel.ops <$> OrderedDict.get (channels s) "#test" = Some {["alice"]}
  ∧ Channel.members <$> OrderedDict.get (channels s) "#test" = Some [("alice", 0)]
  ∧ Channel.ops <$> OrderedDict.get (channels s2) "#test" = Some ∅
  ∧ Channel.ops <$> OrderedDict.get (channels s2) "#test"
    ≠ Channel.ops <$> OrderedDict.get (channels s) "#test".
Proof.
  cbv zeta. split; [vm_compute; reflexivity|]. split; [vm_compute; reflexivity|].
  split; [vm_compute; reflexivity|]. vm_compute. discriminate.
Qed.

(** ** Lines *)

Lemma parse_format_roundtrip_witness :
  parse_line "privmsg #test :hello  :world"
  = Some ("PRIVMSG", ["#test"; "hello  :world"])
  ∧ parse_line ":alice!a@h0 PRIVMSG #test :hello  :world"
    = Some ("PRIVMSG", ["#test"; "hello  :world"]).
Proof.
  apply (parse_format_roundtrip "alice!a@h0" "privmsg" ["#test"] (Some "hello  :world")).
  - reflexivity.
  - repeat constructor.
  - reflexivity.
Defined.

(** ** NICK *)

Lemma nick_case_change_rejected_witness :
  let s := state_after alice_registers in
  cmd_NICK 0 ["Alice"] s
  = (Some tt, s, [Reply 0 "alice" ERR_NICKNAMEINUSE ["Alice"; "Nickname is already in use"]]).
Proof.
  cbv zeta.
  destruct (nick_case_change_rejected (state_after alice_registers) 0 alice)
    with (new := "Alice") as [Hrefused _].
  - vm_compute. reflexivity.
  - reflexivity.
  - vm_compute. reflexivity.
  - reflexivity.
  - reflexivity.
  - apply Hrefused. discriminate.
Defined.

(** [alice] asks to be [Alice]: the same nick up to case, her own, and
    the server answers that it is in use. *)
Lemma nick_restyle_refused :
  let s := state_after alice_registers in
  objs s !! 0 = Some alice
  ∧ clients s = [("alice", 0)]
  ∧ Py.lower "Alice" = Py.lower (Client.nick alice)
  ∧ cmd_NICK 0 ["Alice"] s
    = (Some tt, s, [Reply 0 "alice" ERR_NICKNAMEINUSE ["Alice"; "Nickname is already in use"]]).
Proof. cbv zeta. repeat split; vm_compute; reflexivity. Qed.

(** ** INVITE *)

(** [bob], invited to the invite-only room, joins it, leaves it, and
    may join it again. *)
Lemma invitation_survives_join_witness :
  let s := state_after invite_only_room in
  let s1 := state_of (join_one no_regex 1 [] 0 "#room" s) in
  (∃ ch1, OrderedDict.get (channels s1) "#room" = Some ch1
          ∧ Channel.invites ch1 = {["bob"]})
  ∧ ∀ msg,
      let s2 := state_of (part_one 1 msg "#room" s1) in
      Forall (λ o, is_reply ERR_INVITEONLYCHAN o = false)
             (output_of (join_one no_regex 1 [] 0 "#room" s2)).
Proof.
  cbv zeta.
  destruct (invitation_survives_join no_regex (state_after invite_only_room) 1 bob
              [] 0 "#room" room_invite_only) as [Hkept Hagain].
  - vm_compute. reflexivity.
  - reflexivity.
  - reflexivity.
  - vm_compute. reflexivity.
  - change ("bob" ∈ ({["bob"]} : gset string)). by apply elem_of_singleton_2.
  - split; [exact Hkept|]. intros msg. apply (Hagain msg).
Defined.

(* ===================================================================== *)
(** * More of the code: names, lines and frames *)
(* ===================================================================== *)

(** ** Names *)

Lemma drop_final_newline_head s c rest :
  drop_final_newline s = String c rest → ∃ rest', s = String c rest'.
Proof.
  destruct s as [|x s']; [done|]. destruct s' as [|y s''].
  - cbn. case_decide; [done|]. intros [= <- <-]. by eexists.
  - cbn [drop_final_newline]. intros [= <- _]. by eexists.
Qed.

Lemma nick_first_no_sigil c : nick_first c = true → channel_sigil c = false.
Proof. by destruct c as [[] [] [] [] [] [] [] []]. Qed.

Lemma lower_char_sigil c : channel_sigil c = true → Py.lower_char c = c.
Proof. by destruct c as [[] [] [] [] [] [] [] []]. Qed.

(** X1.  A name that is a valid nick or a valid channel name is
    of one kind only, and the test on the first character that
    [_send_message] and [cmd_MODE] use to tell a channel from a nick,
    applied to the name or to the name in lower case, says which. *)
Theorem valid_name_kind name :
  valid_nick name = true ∨ valid_channel name = true →
  is_channel_target name = valid_channel name
  ∧ is_channel_target (Py.lower name) = valid_channel name
  ∧ valid_nick name = negb (valid_channel name).
Proof.
  intros [Hn|Hc].
  - assert (is_channel_target name = false ∧ is_channel_target (Py.lower name) = false
            ∧ valid_channel name = false) as (H1 & H2 & H3).
    { unfold valid_nick in Hn. unfold valid_channel.
      destruct (drop_final_newline name) as [|c rest] eqn:E; [done|].
      apply drop_final_newline_head in E as [rest' ->].
      apply andb_true_iff in Hn as [[Hc _]%andb_true_iff _].
      pose proof (nick_first_no_sigil _ Hc) as Hs.
      cbn [is_channel_target Py.lower Py.map]. rewrite Hs. split; [done|].
      split; [|done].
      clear -Hc. by destruct c as [[] [] [] [] [] [] [] []]. }
    by rewrite H1, H2, H3, Hn.
  - assert (is_channel_target name = true ∧ is_channel_target (Py.lower name) = true
            ∧ valid_nick name = false) as (H1 & H2 & H3).
    { unfold valid_channel in Hc. unfold valid_nick.
      destruct (drop_final_newline name) as [|c rest] eqn:E; [done|].
      apply drop_final_newline_head in E as [rest' ->].
      apply andb_true_iff in Hc as [[Hc _]%andb_true_iff _].
      cbn [is_channel_target Py.lower Py.map]. rewrite lower_char_sigil, Hc by done.
      split; [done|]. split; [done|].
      destruct (nick_first c) eqn:Hf; [|done].
      apply nick_first_no_sigil in Hf. congruence. }
    by rewrite H1, H2, H3, Hc.
Qed.

Lemma valid_name_kind_witness :
  is_channel_target "#Test" = true ∧ is_channel_target "alice" = false.
Proof.
  split.
  - rewrite (proj1 (valid_name_kind "#Test" (or_intror eq_refl))). reflexivity.
  - rewrite (proj1 (valid_name_kind "alice" (or_introl eq_refl))). reflexivity.
Defined.

(** X2.  [Channel.is_banned] goes through the ban list in order:
    it answers yes exactly when some mask matches and the engine said no
    to every mask before it, no exactly when the engine says no to every
    mask, and it fails exactly when the engine rejects a pattern before
    any mask has matched. *)
Theorem is_banned_first_match (re : string → string → option bool) bans mask :
  (is_banned_in re bans mask = Some true ↔
     ∃ i ban, bans !! i = Some ban
       ∧ re (Channel.glob_to_regex ban) mask = Some true
       ∧ ∀ j b, (j < i)%nat → bans !! j = Some b →
           re (Channel.glob_to_regex b) mask = Some false)
  ∧ (is_banned_in re bans mask = Some false ↔
       ∀ ban, ban ∈ bans → re (Channel.glob_to_regex ban) mask = Some false)
  ∧ (is_banned_in re bans mask = None ↔
       ∃ i ban, bans !! i = Some ban
         ∧ re (Channel.glob_to_regex ban) mask = None
         ∧ ∀ j b, (j < i)%nat → bans !! j = Some b →
             re (Channel.glob_to_regex b) mask = Some false).
Proof.
  induction bans as [|ban bans (IH1 & IH2 & IH3)].
  - cbn [is_banned_in]. split; [|split].
    + split; [done|]. by intros (i & b & ? & _).
    + split; [|done]. by intros _ b ?%elem_of_nil.
    + split; [done|]. by intros (i & b & ? & _).
  - cbn [is_banned_in].
    destruct (re (Channel.glob_to_regex ban) mask) as [[]|] eqn:E.
    + split; [|split].
      * split; [|done]. intros _. exists 0%nat, ban. split; [done|]. split; [done|].
        intros j b Hj. lia.
      * split; [done|]. intros H. specialize (H ban (list_elem_of_here _ _)). congruence.
      * split; [done|]. intros ([|i] & b & Hb & Hre & Hlt).
        -- cbn in Hb. simplify_eq; congruence.
        -- specialize (Hlt 0%nat ban ltac:(lia) eq_refl). congruence.
    + split; [|split].
      * rewrite IH1. split.
        -- intros (i & b & Hb & Hre & Hlt). exists (S i), b. split; [done|]. split; [done|].
           intros [|j] b' Hj Hb'; cbn in Hb'; [by simplify_eq|].
           apply (Hlt j); [lia|done].
        -- intros ([|i] & b & Hb & Hre & Hlt); cbn in Hb.
           ++ simplify_eq; congruence.
           ++ exists i, b. split; [done|]. split; [done|].
              intros j b' Hj Hb'. apply (Hlt (S j)); [lia|done].
      * rewrite IH2. split.
        -- intros H b [->|?]%elem_of_cons; [done|by apply H].
        -- intros H b Hb. apply H. by right.
      * rewrite IH3. split.
        -- intros (i & b & Hb & Hre & Hlt). exists (S i), b. split; [done|]. split; [done|].
           intros [|j] b' Hj Hb'; cbn in Hb'; [by simplify_eq|].
           apply (Hlt j); [lia|done].
        -- intros ([|i] & b & Hb & Hre & Hlt); cbn in Hb.
           ++ simplify_eq; congruence.
           ++ exists i, b. split; [done|]. split; [done|].
              intros j b' Hj Hb'. apply (Hlt (S j)); [lia|done].
    + split; [|split].
      * split; [done|]. intros ([|i] & b & Hb & Hre & Hlt); cbn in Hb.
        -- simplify_eq; congruence.
        -- specialize (Hlt 0%nat ban ltac:(lia) eq_refl). congruence.
      * split; [done|]. intros H. specialize (H ban (list_elem_of_here _ _)). congruence.
      * split; [|done]. intros _. exists 0%nat, ban. split; [done|]. split; [done|].
        intros j b Hj. lia.
Qed.

(** ** The dispatcher *)

Lemma words_blank w s :
  Py.forallb Py.isspace s = true →
  Py.words w s = if decide (w = "") then [] else [w].
Proof.
  revert w. induction s as [|x s IH]; intros w Hs; [done|].
  cbn [Py.forallb] in Hs. apply andb_true_iff in Hs as [Hx Hs].
  cbn [Py.words]. rewrite Hx. case_decide; [by rewrite IH|].
  by rewrite IH.
Qed.

Lemma isspace_not_colon x : Py.isspace x = true → x ≠ ":"%char.
Proof. by intros H ->. Qed.

Lemma partition_blank s :
  Py.forallb Py.isspace s = true → Py.partition " :" s = None.
Proof.
  induction s as [|x s IH]; intros Hs; [done|].
  cbn [Py.forallb] in Hs. apply andb_true_iff in Hs as [Hx Hs].
  cbn [Py.partition]. rewrite IH by done.
  assert (Py.strip_prefix " :" (String x s) = None) as ->; [|done].
  cbn [Py.strip_prefix]. case_decide; [|done].
  destruct s as [|y s]; [done|].
  cbn [Py.forallb] in Hs. apply andb_true_iff in Hs as [Hy _].
  rewrite decide_False; [done|]. intros <-. done.
Qed.

Lemma parse_blank line :
  Py.forallb Py.isspace line = true → parse_line line = None.
Proof.
  intros Hs. unfold parse_line, drop_prefix.
  assert (Py.startswith line ":" = false) as ->.
  { destruct line as [|x line]; [done|].
    cbn [Py.forallb] in Hs. apply andb_true_iff in Hs as [Hx _].
    destruct (Py.startswith (String x line) ":") eqn:E; [|done].
    apply startswith_colon in E. by subst. }
  unfold tokens_of, Py.split1. rewrite partition_blank by done.
  unfold Py.split. by rewrite words_blank.
Qed.

Lemma partition_none_space origin :
  Py.mem " " origin = false → Py.partition " " origin = None.
Proof.
  induction origin as [|x origin IH]; intros Ho; [done|].
  cbn [Py.mem] in Ho. apply orb_false_iff in Ho as [Hx Ho].
  cbn [Py.partition Py.strip_prefix].
  rewrite decide_False; [by rewrite IH|]. by intros <-.
Qed.

Lemma parse_prefix_only origin :
  Py.mem " " origin = false → parse_line (":" +:+ origin) = None.
Proof.
  intros Ho. unfold parse_line, drop_prefix.
  change (":" +:+ origin) with (String ":" origin).
  assert (Py.startswith (String ":" origin) ":" = true) as ->
    by (by apply startswith_colon).
  cbn [Py.tail]. unfold Py.split1. by rewrite partition_none_space.
Qed.

(** X3.  A line without a token (only whitespace, or only a
    prefix) is ignored by [dispatch]: nothing is sent and nothing
    changes. *)
Theorem empty_line_ignored re now c line s :
  Py.forallb Py.isspace line = true
  ∨ (∃ origin, line = ":" +:+ origin ∧ Py.mem " " origin = false) →
  dispatch re now c line s = (Some tt, s, []).
Proof.
  intros H. unfold dispatch.
  assert (parse_line line = None) as ->; [|done].
  destruct H as [H|(origin & -> & H)];
    [by apply parse_blank|by apply parse_prefix_only].
Qed.

Lemma empty_line_ignored_witness :
  dispatch no_regex "" 0 "  " (new_server "T0") = (Some tt, new_server "T0", [])
  ∧ dispatch no_regex "" 0 ":alice!a@h" (new_server "T0")
    = (Some tt, new_server "T0", []).
Proof.
  split.
  - apply (empty_line_ignored no_regex "" 0 "  "). left. reflexivity.
  - apply (empty_line_ignored no_regex "" 0 ":alice!a@h"). right.
    exists "alice!a@h". split; reflexivity.
Defined.

Lemma drop_prefix_prefixed origin line :
  Py.mem " " origin = false →
  drop_prefix (":" +:+ origin +:+ " " +:+ line) = line.
Proof.
  intros Ho. unfold drop_prefix.
  change (":" +:+ origin +:+ " " +:+ line)
    with (String ":" (origin +:+ " " +:+ line)).
  assert (Py.startswith (String ":" (origin +:+ " " +:+ line)) ":" = true) as ->
    by (by apply startswith_colon).
  cbn [Py.tail]. unfold Py.split1. by rewrite partition_one_space.
Qed.

(** X4.  The prefix a client puts before its line is dropped: the
    line is handled as if it had been sent without it. *)
Theorem client_prefix_dropped re now c origin line :
  Py.mem " " origin = false →
  Py.startswith line ":" = false →
  dispatch re now c (":" +:+ origin +:+ " " +:+ line) = dispatch re now c line.
Proof.
  intros Ho Hl. unfold dispatch, parse_line.
  rewrite drop_prefix_prefixed by done.
  unfold drop_prefix at 1. by rewrite Hl.
Qed.

Lemma client_prefix_dropped_witness :
  dispatch no_regex "" 0 ":bob!b@h PING x" = dispatch no_regex "" 0 "PING x".
Proof.
  apply (client_prefix_dropped no_regex "" 0 "bob!b@h" "PING x"); reflexivity.
Defined.

Lemma parse_irc_line cmd middles trailing :
  is_middle cmd = true →
  Forall (λ m, is_middle m = true) middles →
  parse_line (irc_line cmd middles trailing)
  = Some (Py.upper cmd, middles ++ option_list trailing).
Proof.
  intros Hcmd Hm. pose proof (is_middle_spec _ Hcmd) as [Hw _].
  unfold parse_line. by rewrite drop_prefix_line, tokens_of_irc_line.
Qed.

(** X5.  The name of the command is read without regard to
    letter case: two well-formed lines that differ in the case of the
    letters of the command only are handled alike. *)
Theorem command_case_insensitive re now c cmd cmd' middles trailing :
  is_middle cmd = true → is_middle cmd' = true →
  Py.upper cmd = Py.upper cmd' →
  Forall (λ m, is_middle m = true) middles →
  dispatch re now c (irc_line cmd middles trailing)
  = dispatch re now c (irc_line cmd' middles trailing).
Proof.
  intros Hc Hc' Hu Hm. unfold dispatch.
  by rewrite !parse_irc_line, Hu.
Qed.

Lemma command_case_insensitive_witness :
  dispatch no_regex "" 0 "join #a,#b k1" = dispatch no_regex "" 0 "JoIn #a,#b k1".
Proof.
  apply (command_case_insensitive no_regex "" 0 "join" "JoIn" ["#a,#b"; "k1"] None);
    [reflexivity|reflexivity|reflexivity|].
  repeat constructor.
Defined.

(** X6.  A command for which the server has no handler is answered
    with [ERR_UNKNOWNCOMMAND], the name in upper case, when the client is
    registered, and ignored otherwise; the state is left as it is. *)
Theorem unknown_command re now s c cl cmd middles trailing :
  objs s !! c = Some cl →
  is_middle cmd = true →
  Forall (λ m, is_middle m = true) middles →
  Py.upper cmd ∉ OrderedDict.keys (handlers re now) →
  dispatch re now c (irc_line cmd middles trailing) s
  = (Some tt, s,
     if Client.registered cl
     then [Reply c (Client.nick cl) ERR_UNKNOWNCOMMAND [Py.upper cmd; "Unknown command"]]
     else []).
Proof.
  intros Hc Hcmd Hm Hk. unfold dispatch. rewrite parse_irc_line by done.
  apply get_None_keys in Hk. rewrite Hk.
  rewrite (bind_the_client _ _ _ Hc).
  destruct (Client.registered cl); [|done].
  by rewrite (reply_run _ _ _ Hc).
Qed.

Lemma unknown_command_witness :
  dispatch no_regex "" 0 "frobnicate now" (state_after alice_registers)
  = (Some tt, state_after alice_registers,
     [Reply 0 "alice" ERR_UNKNOWNCOMMAND ["FROBNICATE"; "Unknown command"]]).
Proof.
  refine (unknown_command no_regex "" (state_after alice_registers) 0 alice
            "frobnicate" ["now"] None _ _ _ _).
  - vm_compute. reflexivity.
  - reflexivity.
  - repeat constructor.
  - vm_compute. intros H. repeat (apply elem_of_cons in H as [H|H]; [discriminate H|]).
    by apply elem_of_nil in H.
Defined.

(** ** Replies *)

Lemma tokens_no_params code target :
  is_middle code = true → is_middle target = true →
  tokens_of (code +:+ " " +:+ target +:+ " " +:+ "") = [code; target].
Proof.
  intros Hc Ht.
  destruct (is_middle_spec _ Hc) as [Hcw _].
  destruct (is_word_spec _ Hcw) as [Hcne Hcns].
  destruct (is_middle_spec _ Ht) as [Htw _].
  destruct (is_word_spec _ Htw) as [Htne Htns].
  unfold tokens_of, Py.split1.
  rewrite partition_word, partition_space by done.
  change (Py.partition " :" (" " +:+ "")) with (@None (string * string)).
  cbn [fmap option_fmap option_map]. unfold Py.split.
  rewrite words_word by done. change ("" +:+ code) with code.
  rewrite words_space by done.
  rewrite words_word by done. change ("" +:+ target) with target.
  by rewrite words_space.
Qed.

(** X7.  What [Client.reply] writes is read back by the tokenizer
    of [dispatch] as the numeric, the target and the parameters, the last
    parameter verbatim. *)
Theorem reply_line_parsed target code params :
  is_middle code = true → is_middle target = true →
  Forall (λ m, is_middle m = true) (removelast params) →
  parse_line (reply_line target code params) = Some (Py.upper code, target :: params).
Proof.
  intros Hc Ht Hm. unfold parse_line.
  change (reply_line target code params)
    with (":" +:+ SERVER_NAME +:+ " " +:+ (code +:+ " " +:+ target +:+ " "
            +:+ Py.join " " (colon_last params))).
  rewrite drop_prefix_prefixed by done.
  destruct params as [|p ps].
  - change (Py.join " " (colon_last [])) with "".
    by rewrite tokens_no_params.
  - rewrite formatted_params.
    assert (code +:+ " " +:+ target +:+ middles_text (removelast (p :: ps))
            +:+ trailing_text (Some (List.last (p :: ps) ""))
            = irc_line code (target :: removelast (p :: ps))
                (Some (List.last (p :: ps) ""))) as ->.
    { unfold irc_line. cbn [middles_text foldr]. by rewrite !append_assoc. }
    rewrite tokens_of_irc_line.
    + cbn [option_list option_rect]. rewrite <- app_comm_cons.
      by rewrite <- app_removelast_last.
    + by apply is_middle_spec in Hc as [? _].
    + by constructor.
Qed.

Lemma reply_line_parsed_witness :
  parse_line (reply_line "alice" RPL_NAMREPLY ["="; "#test"; "@alice +bob"])
  = Some ("353", ["alice"; "="; "#test"; "@alice +bob"]).
Proof.
  apply (reply_line_parsed "alice" RPL_NAMREPLY ["="; "#test"; "@alice +bob"]);
    [reflexivity|reflexivity|].
  repeat constructor.
Defined.

Section Strip.
Variable p : ascii → bool.

Lemma lstrip_length s : String.length (Py.lstrip p s) ≤ String.length s.
Proof.
  induction s as [|x s IH]; [done|]. cbn [Py.lstrip].
  destruct (p x); cbn [String.length]; lia.
Qed.

Lemma rstrip_length s : String.length (Py.rstrip p s) ≤ String.length s.
Proof.
  induction s as [|x s IH]; [done|]. cbn [Py.rstrip].
  destruct (Py.rstrip p s) as [|y r]; [destruct (p x)|];
    cbn [String.length] in *; lia.
Qed.

Lemma lstrip_fixed s :
  String.length (Py.lstrip p s) = String.length s → Py.lstrip p s = s.
Proof.
  destruct s as [|x s]; [done|]. cbn [Py.lstrip].
  destruct (p x); [|done]. pose proof (lstrip_length s).
  cbn [String.length]. lia.
Qed.

Lemma strip_fixed s :
  Py.strip_set p s = s → Py.lstrip p s = s ∧ Py.rstrip p s = s.
Proof.
  unfold Py.strip_set. intros H.
  assert (Py.lstrip p s = s) as Hl.
  { apply lstrip_fixed. pose proof (lstrip_length s).
    pose proof (rstrip_length (Py.lstrip p s)). rewrite H in *. lia. }
  by rewrite Hl in H.
Qed.

Lemma lstrip_head s : s ≠ "" → Py.lstrip p s = s → ∃ x r, s = String x r ∧ p x = false.
Proof.
  destruct s as [|x s]; [done|]. intros _. cbn [Py.lstrip].
  destruct (p x) eqn:E; [|by eauto].
  intros H. pose proof (lstrip_length s). rewrite H in *.
  cbn [String.length] in *. lia.
Qed.

Lemma lstrip_cons x s : p x = false → Py.lstrip p (String x s) = String x s.
Proof. intros H. cbn [Py.lstrip]. by rewrite H. Qed.

Lemma rstrip_snoc s r :
  Py.forallb p r = true → Py.rstrip p (s +:+ r) = Py.rstrip p s.
Proof.
  intros Hr. induction s as [|x s IH].
  - change ("" +:+ r) with r. induction r as [|y r IHr]; [done|].
    cbn [Py.forallb] in Hr. apply andb_true_iff in Hr as [Hy Hr].
    cbn [Py.rstrip]. rewrite IHr by done. cbn [Py.rstrip]. by rewrite Hy.
  - rewrite append_cons. cbn [Py.rstrip]. by rewrite IH.
Qed.

Lemma rstrip_head x s : p x = false → ∃ r, Py.rstrip p (String x s) = String x r.
Proof.
  intros H. cbn [Py.rstrip]. destruct (Py.rstrip p s); [rewrite H|]; by eexists.
Qed.

Lemma lstrip_no_head s :
  Py.lstrip p s = "" ∨ ∃ x r, Py.lstrip p s = String x r ∧ p x = false.
Proof.
  induction s as [|x s IH]; [by left|]. cbn [Py.lstrip].
  destruct (p x) eqn:E; [done|]. right. by eauto.
Qed.

Lemma rstrip_idemp s : Py.rstrip p (Py.rstrip p s) = Py.rstrip p s.
Proof.
  induction s as [|x s IH]; [done|]. cbn [Py.rstrip].
  destruct (Py.rstrip p s) as [|y r] eqn:E.
  - destruct (p x) eqn:Hx; [done|]. cbn [Py.rstrip]. by rewrite Hx.
  - cbn [Py.rstrip] in *. by rewrite IH.
Qed.

(** [strip] leaves what it returns alone. *)
Lemma strip_idemp s : Py.strip_set p (Py.strip_set p s) = Py.strip_set p s.
Proof.
  unfold Py.strip_set.
  destruct (lstrip_no_head s) as [->|(x & r & -> & Hx)]; [done|].
  destruct (rstrip_head x r Hx) as [r' E]. rewrite E at 1.
  rewrite lstrip_cons by done. rewrite <- E. apply rstrip_idemp.
Qed.

Lemma mem_lstrip c s : Py.mem c s = false → Py.mem c (Py.lstrip p s) = false.
Proof.
  induction s as [|x s IH]; [done|]. cbn [Py.lstrip Py.mem].
  intros [H1 H2]%orb_false_iff. destruct (p x); [by apply IH|].
  cbn [Py.mem]. by rewrite H1, H2.
Qed.

Lemma mem_rstrip c s : Py.mem c s = false → Py.mem c (Py.rstrip p s) = false.
Proof.
  induction s as [|x s IH]; [done|]. cbn [Py.rstrip Py.mem].
  intros [H1 H2]%orb_false_iff. specialize (IH H2).
  destruct (Py.rstrip p s) as [|y r].
  - destruct (p x); [done|]. cbn [Py.mem]. by rewrite H1.
  - cbn [Py.mem] in *. by rewrite H1, IH.
Qed.
End Strip.

Lemma mem_snoc c l x :
  Py.mem c l = false → Ascii.eqb c x = false → Py.mem c (l +:+ String x "") = false.
Proof.
  intros Hl Hx. induction l as [|y l IH].
  { change ("" +:+ String x "") with (String x ""). cbn [Py.mem]. by rewrite Hx. }
  cbn [Py.mem] in Hl. apply orb_false_iff in Hl as [H1 H2].
  rewrite append_cons. cbn [Py.mem]. by rewrite H1, IH.
Qed.

Lemma fields_no_sep sep w s :
  Py.mem sep w = false →
  Forall (λ l, Py.mem sep l = false) (Py.fields sep w s).
Proof.
  revert w. induction s as [|x s IH]; intros w Hw.
  - cbn [Py.fields]. by constructor.
  - cbn [Py.fields]. case_decide.
    + constructor; [done|]. by apply IH.
    + apply IH, mem_snoc; [done|]. apply Ascii.eqb_neq. congruence.
Qed.

Lemma fields_line sep w l rest :
  Py.mem sep l = false →
  Py.fields sep w (l +:+ String sep rest) = (w +:+ l) :: Py.fields sep "" rest.
Proof.
  revert w. induction l as [|x l IH]; intros w Hl.
  - change ("" +:+ String sep rest) with (String sep rest).
    cbn [Py.fields]. rewrite decide_True by done. by rewrite append_nil_r.
  - cbn [Py.mem] in Hl. apply orb_false_iff in Hl as [Hx Hl].
    rewrite append_cons. cbn [Py.fields]. rewrite decide_False.
    + rewrite IH by done. by rewrite append_assoc.
    + intros ->. by rewrite Ascii.eqb_refl in Hx.
Qed.

Lemma fields_last sep w l :
  Py.mem sep l = false → Py.fields sep w l = [w +:+ l].
Proof.
  revert w. induction l as [|x l IH]; intros w Hl.
  - cbn [Py.fields]. by rewrite append_nil_r.
  - cbn [Py.mem] in Hl. apply orb_false_iff in Hl as [Hx Hl].
    cbn [Py.fields]. rewrite decide_False.
    + rewrite IH by done. by rewrite append_assoc.
    + intros ->. by rewrite Ascii.eqb_refl in Hx.
Qed.

Lemma frame_lines_cons l rest :
  Py.mem LF l = false →
  frame_lines (l +:+ String LF rest)
  = (if decide (Py.strip_set crlf l = "") then [] else [Py.strip_set crlf l])
    ++ frame_lines rest.
Proof.
  intros Hl. unfold frame_lines, Py.split_on.
  rewrite fields_line by done. change ("" +:+ l) with l.
  rewrite fmap_cons, filter_cons. unfold crlf, CR, LF.
  by repeat case_decide.
Qed.

Lemma frame_lines_last l :
  Py.mem LF l = false →
  frame_lines l = if decide (Py.strip_set crlf l = "") then [] else [Py.strip_set crlf l].
Proof.
  intros Hl. unfold frame_lines, Py.split_on.
  rewrite fields_last by done. change ("" +:+ l) with l.
  rewrite fmap_cons, filter_cons. unfold crlf, CR, LF.
  by repeat case_decide.
Qed.

Lemma strip_plain_cr l :
  plain_line l → Py.strip_set crlf (l +:+ String CR "") = l.
Proof.
  intros (Hne & _ & Hs). apply strip_fixed in Hs as [Hl Hr].
  destruct (lstrip_head _ _ Hne Hl) as (x & r & -> & Hx).
  unfold Py.strip_set. rewrite append_cons, lstrip_cons by done.
  rewrite <- append_cons. by rewrite rstrip_snoc.
Qed.

(** X8.  What [handle] hands to [dispatch] is never an empty
    line, never a line with a line feed, never one with a carriage return
    or a line feed at either end. *)
Theorem frame_lines_plain frame l :
  l ∈ frame_lines frame → plain_line l.
Proof.
  unfold frame_lines. intros [Hne Hl]%list_elem_of_filter.
  apply list_elem_of_fmap in Hl as (l0 & -> & Hl0).
  change (λ x, Py.mem x (String "013" (String "010" ""))) with crlf in *.
  split; [done|]. split; [|apply strip_idemp].
  unfold Py.strip_set. apply mem_rstrip, mem_lstrip.
  pose proof (fields_no_sep LF "" frame eq_refl) as HF.
  by apply (proj1 (Forall_forall _ _) HF).
Qed.

Lemma frame_lines_plain_witness : plain_line "NICK alice".
Proof.
  apply (frame_lines_plain ("NICK alice" +:+ String CR (String LF "")) "NICK alice").
  vm_compute. left.
Defined.

(** X9.  The lines of a frame are the lines the client wrote,
    whether it ends each with a line feed or with a carriage return and a
    line feed, and whether or not the last one is so ended. *)
Theorem frame_lines_of_text eol ls :
  eol = String LF "" ∨ eol = String CR (String LF "") →
  Forall plain_line ls →
  frame_lines (terminated eol ls) = ls
  ∧ frame_lines (Py.join eol ls) = ls.
Proof.
  intros Heol Hls.
  assert (∀ l rest, plain_line l →
            frame_lines (l +:+ eol +:+ rest) = l :: frame_lines rest) as Hcons.
  { intros l rest Hl. pose proof Hl as (Hne & Hlf & Hs).
    destruct Heol as [->| ->].
    - change (l +:+ String LF "" +:+ rest) with (l +:+ String LF rest).
      rewrite frame_lines_cons by done. rewrite Hs.
      by rewrite decide_False.
    - change (l +:+ String CR (String LF "") +:+ rest)
        with (l +:+ String CR (String LF rest)).
      assert (l +:+ String CR (String LF rest)
              = (l +:+ String CR "") +:+ String LF rest) as ->
        by (by rewrite append_assoc).
      rewrite frame_lines_cons by (by apply mem_snoc).
      rewrite strip_plain_cr by done. by rewrite decide_False. }
  split.
  - induction Hls as [|l ls Hl _ IH]; [done|].
    cbn [terminated foldr]. fold (terminated eol ls). by rewrite Hcons, IH.
  - induction Hls as [|l ls Hl Hls IH]; [done|].
    destruct ls as [|l' ls].
    + change (Py.join eol [l]) with l. destruct Hl as (Hne & Hlf & Hs).
      rewrite frame_lines_last by done. rewrite Hs. by rewrite decide_False.
    + change (Py.join eol (l :: l' :: ls)) with (l +:+ eol +:+ Py.join eol (l' :: ls)).
      by rewrite Hcons, IH.
Qed.

Lemma frame_lines_of_text_witness :
  frame_lines (terminated (String CR (String LF "")) ["NICK alice"; "USER a 0 * :A"])
  = ["NICK alice"; "USER a 0 * :A"].
Proof.
  apply (frame_lines_of_text (String CR (String LF "")) ["NICK alice"; "USER a 0 * :A"]).
  - by right.
  - repeat constructor; vm_compute; congruence.
Defined.


(* ===================================================================== *)
(** * More of the code: what single commands do *)
(* ===================================================================== *)

(** X10.  A client allowed to set the topic sets it: every
    member of the channel is told, and a later TOPIC query, however the
    name of the channel is spelled, returns the text ([RPL_NOTOPIC] when
    the text is empty). *)
Theorem topic_set_then_read s c cl c' cl' name name' ch text :
  objs s !! c = Some cl → objs s !! c' = Some cl' →
  OrderedDict.get (channels s) (Py.lower name) = Some ch →
  "t"%char ∉ Channel.modes ch ∨ Client.nick cl ∈ Channel.ops ch →
  Py.lower name' = Py.lower name →
  let r := cmd_TOPIC c [name; text] s in
  output_of r
  = (λ m, Send m (":" +:+ Client.mask cl +:+ " TOPIC " +:+ name +:+ " :" +:+ text))
      <$> OrderedDict.values (Channel.members ch)
  ∧ cmd_TOPIC c' [name'] (state_of r)
    = (Some tt, state_of r,
       [if decide (text = "")
        then Reply c' (Client.nick cl') RPL_NOTOPIC [name'; "No topic is set"]
        else Reply c' (Client.nick cl') RPL_TOPIC [name'; text]]).
Proof.
  intros Hc Hc' Hch Hauth Hname r.
  assert (r = (Some tt,
               with_channels
                 (OrderedDict.set (channels s) (Py.lower name)
                    (Channel.with_topic text (Client.nick cl) ch)) s,
               (λ m, Send m (":" +:+ Client.mask cl +:+ " TOPIC " +:+ name
                             +:+ " :" +:+ text))
                 <$> OrderedDict.values (Channel.members ch))) as ->.
  { unfold r, cmd_TOPIC. rewrite bind_get_state, Hch, (bind_the_client _ _ _ Hc).
    assert (bool_decide ("t"%char ∈ Channel.modes ch)
            && negb (bool_decide (Client.nick cl ∈ Channel.ops ch)) = false) as ->.
    { destruct Hauth as [H|H].
      - by rewrite (bool_decide_eq_false_2 _ H).
      - rewrite (bool_decide_eq_true_2 _ H). apply andb_false_r. }
    rewrite bind_store_channel, send_all_run. done. }
  split; [done|]. cbn [state_of fst snd].
  unfold cmd_TOPIC. rewrite bind_get_state. cbn [channels with_channels].
  rewrite Hname, get_set_eq. cbn [Channel.topic Channel.with_topic].
  set (s1 := with_channels _ s).
  assert (objs s1 !! c' = Some cl') as Hc1 by done.
  case_decide; by rewrite (reply_run _ _ _ Hc1).
Qed.

(** X11.  After [AWAY :msg] a PRIVMSG to the client is answered
    with [RPL_AWAY] and [msg] (unless [msg] is empty) before it is
    delivered; after [AWAY] without a parameter it is delivered without
    that reply. *)
Theorem away_announced s c cl c' cl' msg text :
  objs s !! c = Some cl → objs s !! c' = Some cl' →
  Client.registered cl' = true →
  OrderedDict.get (clients s) (Client.nick cl) = Some c →
  is_channel_target (Client.nick cl) = false →
  let line := ":" +:+ Client.mask cl' +:+ " PRIVMSG " +:+ Client.nick cl
              +:+ " :" +:+ text in
  let s1 := state_of (cmd_AWAY c [msg] s) in
  let s2 := state_of (cmd_AWAY c [] s1) in
  output_of (cmd_PRIVMSG c' [Client.nick cl; text] s1)
  = (if decide (msg = "") then []
     else [Reply c' (Client.nick cl') RPL_AWAY [Client.nick cl; msg]])
    ++ [Send c line]
  ∧ output_of (cmd_PRIVMSG c' [Client.nick cl; text] s2) = [Send c line].
Proof.
  intros Hc Hc' Hreg Hn Ht line s1 s2.
  assert (∀ (a : option string) s0 cl0 cl0',
            objs s0 !! c = Some cl0 → objs s0 !! c' = Some cl0' →
            Client.nick cl0 = Client.nick cl → Client.mask cl0' = Client.mask cl' →
            Client.nick cl0' = Client.nick cl' →
            Client.registered cl0' = true →
            clients s0 = clients s →
            let s' := with_objs (alter (Client.with_away_msg a) c (objs s0)) s0 in
            state_of (cmd_AWAY c (option_list a) s0) = s'
            ∧ output_of (cmd_PRIVMSG c' [Client.nick cl; text] s')
              = (if truthy a
                 then [Reply c' (Client.nick cl') RPL_AWAY [Client.nick cl; default "" a]]
                 else []) ++ [Send c line]
            ∧ ∃ cl1 cl1', objs s' !! c = Some cl1 ∧ objs s' !! c' = Some cl1'
                ∧ Client.nick cl1 = Client.nick cl ∧ Client.mask cl1' = Client.mask cl'
                ∧ Client.nick cl1' = Client.nick cl'
                ∧ Client.registered cl1' = true ∧ clients s' = clients s) as Hstep.
  { intros a s0 cl0 cl0' H0 H0' Hnick Hmask Hnick' Hreg0 Hcl s'.
    assert (objs s' !! c = Some (Client.with_away_msg a cl0)) as H1.
    { unfold s'. cbn [objs with_objs]. by rewrite lookup_alter_eq, H0. }
    assert (∃ cl1', objs s' !! c' = Some cl1' ∧ Client.mask cl1' = Client.mask cl'
                    ∧ Client.nick cl1' = Client.nick cl'
                    ∧ Client.registered cl1' = true) as (cl1' & H1' & Hm1 & Hn1 & Hr1).
    { unfold s'. cbn [objs with_objs]. destruct (decide (c' = c)) as [->|Hne].
      - rewrite lookup_alter_eq, H0. simplify_eq. by eexists.
      - rewrite lookup_alter_ne by done. by eexists. }
    split; [|split].
    - destruct a as [a|]; cbn [option_list option_rect]; unfold cmd_AWAY;
        rewrite bind_update_client; fold s';
        by rewrite (reply_run _ _ _ H1).
    - unfold cmd_PRIVMSG, _send_message.
      rewrite (bind_the_client _ _ _ H1'), Hr1. cbn [negb]. rewrite Ht.
      rewrite bind_get_state.
      assert (clients s' = clients s) as -> by done.
      rewrite Hn, (bind_the_client _ _ _ H1).
      unfold is_away. cbn [Client.away_msg Client.with_away_msg].
      rewrite andb_true_r, Hm1. destruct (truthy a).
      + rewrite (bind_reply _ _ _ H1'). by rewrite Hn1.
      + by rewrite bind_ret.
    - exists (Client.with_away_msg a cl0), cl1'. done. }
  destruct (Hstep (Some msg) s cl cl' Hc Hc' eq_refl eq_refl eq_refl Hreg eq_refl)
    as (Hs1 & Hout1 & cl1 & cl1' & H1 & H1' & Hn1 & Hm1 & Hn1' & Hr1 & Hcl1).
  cbn [option_list option_rect] in Hs1. fold s1 in Hs1.
  rewrite <- Hs1 in *.
  destruct (Hstep None s1 cl1 cl1' H1 H1' Hn1 Hm1 Hn1' Hr1 Hcl1)
    as (Hs2 & Hout2 & _).
  cbn [option_list option_rect] in Hs2. fold s2 in Hs2. rewrite <- Hs2 in *.
  split.
  - rewrite Hout1. cbn [truthy default]. case_decide; subst.
    + done.
    + by rewrite bool_decide_eq_false_2.
  - by rewrite Hout2.
Qed.

(** ** Dictionaries, continued *)

Section DictMore.
Context {V : Type}.
Implicit Types (d : list (string * V)) (k : string) (v : V).

Lemma set_set d k v v' :
  OrderedDict.set (OrderedDict.set d k v) k v' = OrderedDict.set d k v'.
Proof.
  induction d as [|[k0 v0] d IH]; cbn [OrderedDict.set].
  - by rewrite decide_True.
  - case_decide; cbn [OrderedDict.set].
    + by rewrite decide_True.
    + rewrite decide_False by done. by rewrite IH.
Qed.

Lemma set_get_id d k v :
  OrderedDict.get d k = Some v → OrderedDict.set d k v = d.
Proof.
  induction d as [|[k0 v0] d IH]; cbn [OrderedDict.get OrderedDict.set]; [done|].
  case_decide; [by intros [= ->]; subst|]. intros ?. by rewrite IH.
Qed.

Lemma pop_absent d k : OrderedDict.get d k = None → OrderedDict.pop d k = d.
Proof.
  induction d as [|[k0 v0] d IH]; cbn [OrderedDict.get OrderedDict.pop]; [done|].
  case_decide; [done|]. intros ?. by rewrite IH.
Qed.

Lemma pop_set_absent d k v :
  OrderedDict.get d k = None → OrderedDict.pop (OrderedDict.set d k v) k = d.
Proof.
  induction d as [|[k0 v0] d IH]; cbn [OrderedDict.get OrderedDict.set OrderedDict.pop].
  - by rewrite decide_True.
  - case_decide; [done|]. intros ?. cbn [OrderedDict.pop].
    rewrite decide_False by done. by rewrite IH.
Qed.
End DictMore.

(** ** Channel modes with a parameter *)

Section ModeArg.
Context (s : IRCServer) (c : cid) (cl : Client.t) (name : string) (ch : Channel.t).
Hypothesis Hc : objs s !! c = Some cl.
Hypothesis Hch : OrderedDict.get (channels s) (Py.lower name) = Some ch.
Hypothesis Hauth : Client.nick cl ∈ Channel.ops ch ∨ "o"%char ∈ Client.modes cl.

Lemma mode_authorised :
  negb (bool_decide (Client.nick cl ∈ Channel.ops ch))
  && negb (bool_decide ("o"%char ∈ Client.modes cl)) = false.
Proof using Hauth.
  destruct Hauth as [H|H]; rewrite (bool_decide_eq_true_2 _ H);
    [done|apply andb_false_r].
Qed.

(** [MODE name +b mask] and [MODE name -b mask] *)
Lemma handle_channel_mode_b (add : bool) mask :
  handle_channel_mode c name [sign add +:+ "b"; mask] s
  = (Some tt,
     with_channels
       (OrderedDict.set (channels s) (Py.lower name)
          (Channel.with_bans
             (if add
              then (if decide (mask ∈ Channel.bans ch) then Channel.bans ch
                    else Channel.bans ch ++ [mask])
              else filter (λ b, b ≠ mask) (Channel.bans ch)) ch)) s,
     (λ m, Send m (":" +:+ Client.mask cl +:+ " MODE " +:+ name +:+ " "
                   +:+ sign add +:+ "b" +:+ " " +:+ mask))
       <$> OrderedDict.values (Channel.members ch)).
Proof using Hc Hch Hauth.
  unfold handle_channel_mode.
  rewrite bind_get_state, Hch, (bind_the_client _ _ _ Hc), mode_authorised.
  rewrite bind_run.
  assert (fold_each (list_ascii_of_string (sign add +:+ "b"))
            (mkVars true [mask] []) (mode_step c name (Py.lower name)) s
          = (Some (mkVars add [] [(if add then "+" else "-")%char]),
             with_channels
               (OrderedDict.set (channels s) (Py.lower name)
                  (Channel.with_bans
                     (if add
                      then (if decide (mask ∈ Channel.bans ch) then Channel.bans ch
                            else Channel.bans ch ++ [mask])
                      else filter (λ b, b ≠ mask) (Channel.bans ch)) ch)) s,
             (λ m, Send m (":" +:+ Client.mask cl +:+ " MODE " +:+ name +:+ " "
                           +:+ sign add +:+ "b" +:+ " " +:+ mask))
               <$> OrderedDict.values (Channel.members ch))) as ->.
  { assert (list_ascii_of_string (sign add +:+ "b")
            = [(if add then "+" else "-")%char; "b"%char]) as -> by (by destruct add).
    rewrite fold_each_cons, bind_run.
    rewrite (mode_step_sign s c cl name ch Hc Hch _ add).
    cbn [mp applied app]. rewrite prepend_nil.
    rewrite fold_each_cons, bind_run.
    unfold mode_step at 1. rewrite bind_get_state, (bind_the_client _ _ _ Hc), Hch.
    cbn [Ascii.eqb Bool.eqb Py.mem orb andb mp adding applied].
    rewrite bind_store_channel, bind_send_all.
    unfold ret, prepend. cbn [fst snd fold_each]. unfold ret. cbn [fst snd].
    by rewrite !app_nil_r. }
  cbv zeta. cbn [applied].
  assert (Py.strip_set (λ x, Py.mem x "+-")
            (string_of_list_ascii [(if add then "+" else "-")%char]) = "") as ->
    by (by destruct add).
  rewrite decide_True by done. unfold ret, prepend. cbn [fst snd].
  by rewrite app_nil_r.
Qed.

(** X13.  [MODE name +l text], from a client allowed to change
    the modes: when [text] reads as an integer the limit is set and the
    change announced to the members, without the number; when it does
    not, nothing changes and nothing is sent. *)
Theorem limit_wants_a_number text :
  handle_channel_mode c name ["+l"; text] s
  = match Py.int text with
    | Some n =>
        (Some tt,
         with_channels
           (OrderedDict.set (channels s) (Py.lower name)
              (Channel.with_modes (Channel.modes ch ∪ {["l"%char]})
                 (Channel.with_limit (Some n) ch))) s,
         (λ m, Send m (":" +:+ Client.mask cl +:+ " MODE " +:+ name +:+ " +l"))
           <$> OrderedDict.values (Channel.members ch))
    | None => (Some tt, s, [])
    end.
Proof using Hc Hch Hauth.
  unfold handle_channel_mode.
  rewrite bind_get_state, Hch, (bind_the_client _ _ _ Hc), mode_authorised.
  rewrite bind_run.
  change (list_ascii_of_string "+l") with ["+"; "l"]%char.
  rewrite fold_each_cons, bind_run.
  rewrite (mode_step_sign s c cl name ch Hc Hch _ true).
  cbn [mp applied app]. rewrite prepend_nil.
  rewrite fold_each_cons, bind_run.
  unfold mode_step at 1. rewrite bind_get_state, (bind_the_client _ _ _ Hc), Hch.
  cbn [Ascii.eqb Bool.eqb Py.mem orb andb mp adding applied].
  destruct (Py.int text) as [n|].
  - rewrite bind_store_channel. unfold ret at 1. cbv iota beta.
    rewrite prepend_nil. cbn [fold_each]. unfold ret at 1. rewrite prepend_nil.
    cbv zeta. cbn [applied app].
    change (Py.strip_set (λ x, Py.mem x "+-") (string_of_list_ascii ["+"; "l"]%char))
      with "l".
    rewrite decide_False by done.
    rewrite bind_get_state. cbn [channels with_channels].
    rewrite get_set_eq, send_all_run. done.
  - unfold ret at 1. cbv iota beta.
    rewrite prepend_nil. cbn [fold_each]. unfold ret at 1. rewrite prepend_nil.
    cbv zeta. cbn [applied].
    change (Py.strip_set (λ x, Py.mem x "+-") (string_of_list_ascii ["+"]%char))
      with "".
    by rewrite decide_True.
Qed.
End ModeArg.

Lemma filter_ne_snoc (l : list string) x :
  x ∉ l → filter (λ b, b ≠ x) (l ++ [x]) = l.
Proof.
  intros Hx. rewrite filter_app, filter_cons, decide_False by (by intros ?).
  rewrite filter_nil, app_nil_r.
  induction l as [|y l IH]; [done|].
  apply not_elem_of_cons in Hx as [Hne Hx].
  rewrite filter_cons, decide_True by done. by rewrite IH.
Qed.

Lemma with_bans_same ch : Channel.with_bans (Channel.bans ch) ch = ch.
Proof. by destruct ch. Qed.

Lemma with_channels_same s : with_channels (channels s) s = s.
Proof. by destruct s. Qed.

(** X12.  A ban that is set and then lifted: after
    [MODE +b mask] the mask is on the list, once; after [MODE -b mask] it
    is on it no more, and the server is in the state it was in before the
    two commands when the mask was not on the list at first. *)
Theorem ban_set_then_lifted s c cl name ch mask :
  objs s !! c = Some cl →
  OrderedDict.get (channels s) (Py.lower name) = Some ch →
  Client.nick cl ∈ Channel.ops ch ∨ "o"%char ∈ Client.modes cl →
  let s1 := state_of (handle_channel_mode c name ["+b"; mask] s) in
  let s2 := state_of (handle_channel_mode c name ["-b"; mask] s1) in
  OrderedDict.get (channels s1) (Py.lower name)
  = Some (Channel.with_bans
            (if decide (mask ∈ Channel.bans ch) then Channel.bans ch
             else Channel.bans ch ++ [mask]) ch)
  ∧ OrderedDict.get (channels s2) (Py.lower name)
    = Some (Channel.with_bans (filter (λ b, b ≠ mask) (Channel.bans ch)) ch)
  ∧ (mask ∉ Channel.bans ch → s2 = s).
Proof.
  intros Hc Hch Hauth s1 s2.
  pose proof (handle_channel_mode_b s c cl name ch Hc Hch Hauth true mask) as H1.
  change (sign true +:+ "b") with "+b" in H1.
  assert (Hs1 : s1 = with_channels
            (OrderedDict.set (channels s) (Py.lower name)
               (Channel.with_bans
                  (if decide (mask ∈ Channel.bans ch) then Channel.bans ch
                   else Channel.bans ch ++ [mask]) ch)) s)
    by (unfold s1; by rewrite H1).
  set (ch1 := Channel.with_bans _ ch) in Hs1.
  assert (Hc1 : objs s1 !! c = Some cl) by (by rewrite Hs1).
  assert (Hch1 : OrderedDict.get (channels s1) (Py.lower name) = Some ch1)
    by (rewrite Hs1; apply get_set_eq).
  pose proof (handle_channel_mode_b s1 c cl name ch1 Hc1 Hch1 Hauth false mask) as H2.
  change (sign false +:+ "b") with "-b" in H2.
  assert (Hs2 : s2 = with_channels
            (OrderedDict.set (channels s1) (Py.lower name)
               (Channel.with_bans (filter (λ b, b ≠ mask) (Channel.bans ch1)) ch1)) s1)
    by (unfold s2; by rewrite H2).
  assert (Hf : filter (λ b, b ≠ mask) (Channel.bans ch1)
               = filter (λ b, b ≠ mask) (Channel.bans ch)).
  { unfold ch1. cbn [Channel.bans Channel.with_bans].
    destruct (decide (mask ∈ Channel.bans ch)); [done|].
    rewrite filter_app, filter_cons, decide_False by (by intros ?).
    by rewrite filter_nil, app_nil_r. }
  split; [done|]. split.
  - rewrite Hs2. cbn [channels with_channels]. rewrite get_set_eq, Hf. reflexivity.
  - intros Hm. rewrite Hs2, Hs1. cbn [channels with_channels].
    rewrite set_set, Hf.
    assert (filter (λ b, b ≠ mask) (Channel.bans ch) = Channel.bans ch) as ->.
    { clear -Hm. induction (Channel.bans ch) as [|y l IH]; [done|].
      apply not_elem_of_cons in Hm as [Hne Hm].
      rewrite filter_cons, decide_True by done. by rewrite IH. }
    assert (Channel.with_bans (Channel.bans ch) ch1 = ch) as ->
      by (unfold ch1; by destruct ch).
    rewrite set_get_id by done. by destruct s.
Qed.

(** ** User modes *)

(** [MODE nick +o] from the client called [nick]. *)
Lemma self_mode_o s c cl :
  objs s !! c = Some cl →
  OrderedDict.get (clients s) (Client.nick cl) = Some c →
  handle_user_mode c (Client.nick cl) ["+o"] s
  = (Some tt,
     with_objs
       (alter (λ x, Client.with_modes (Client.modes x ∪ {["o"%char]}) x) c (objs s)) s,
     [Send c (":" +:+ Client.mask cl +:+ " MODE " +:+ Client.nick cl +:+ " +o")]).
Proof.
  intros Hc Hn. unfold handle_user_mode.
  rewrite (bind_the_client _ _ _ Hc).
  rewrite bool_decide_eq_true_2 by done. cbn [negb andb].
  rewrite bind_get_state, Hn.
  change (list_ascii_of_string "+o") with ["+"; "o"]%char.
  rewrite bind_run, fold_each_cons, bind_run.
  unfold user_mode_step at 1. cbn [Ascii.eqb Bool.eqb andb].
  unfold ret at 1. cbv iota beta. rewrite prepend_nil.
  rewrite fold_each_cons, bind_run.
  unfold user_mode_step at 1. cbn [Ascii.eqb Bool.eqb andb Py.mem orb].
  rewrite bind_update_client. unfold ret at 1. cbv iota beta.
  cbn [fold_each]. unfold ret at 1. rewrite !prepend_nil. cbv iota beta.
  reflexivity.
Qed.

(** X14.  A registered client makes itself an operator of the
    server with [MODE <its nick> +o], and then an operator of any
    channel it is a member of with [MODE <channel> +o <its nick>]. *)
Theorem operator_by_own_mode s c cl name ch :
  objs s !! c = Some cl →
  OrderedDict.get (clients s) (Client.nick cl) = Some c →
  is_channel_target (Client.nick cl) = false →
  is_channel_target name = true →
  OrderedDict.get (channels s) (Py.lower name) = Some ch →
  OrderedDict.mem (Channel.members ch) (Client.nick cl) = true →
  let s1 := state_of (cmd_MODE c [Client.nick cl; "+o"] s) in
  let s2 := state_of (cmd_MODE c [name; "+o"; Client.nick cl] s1) in
  objs s1 !! c = Some (Client.with_modes (Client.modes cl ∪ {["o"%char]}) cl)
  ∧ OrderedDict.get (channels s2) (Py.lower name)
    = Some (Channel.with_ops (Channel.ops ch ∪ {[Client.nick cl]}) ch).
Proof.
  intros Hc Hn Hnt Hct Hch Hmem s1 s2.
  assert (Hs1 : s1 = with_objs
            (alter (λ x, Client.with_modes (Client.modes x ∪ {["o"%char]}) x) c (objs s)) s).
  { unfold s1, cmd_MODE. rewrite Hnt. by rewrite self_mode_o. }
  assert (Hc1 : objs s1 !! c
                = Some (Client.with_modes (Client.modes cl ∪ {["o"%char]}) cl)).
  { rewrite Hs1. cbn [objs with_objs]. by rewrite lookup_alter_eq, Hc. }
  split; [done|].
  assert (Hch1 : OrderedDict.get (channels s1) (Py.lower name) = Some ch)
    by (by rewrite Hs1).
  pose proof (handle_channel_mode_o s1 c _ name ch Hc1 Hch1 true (Client.nick cl)) as H.
  change (sign true +:+ "o") with "+o" in H. cbv zeta in H.
  destruct H as [_ H].
  - right. cbn [Client.modes Client.with_modes]. apply elem_of_union. right.
    by apply elem_of_singleton.
  - done.
  - unfold s2, cmd_MODE. rewrite Hct, H. cbn [channels with_channels].
    by rewrite get_set_eq.
Qed.

(** ** JOIN, then PART *)

Lemma forallb_body_no_comma s :
  Py.forallb channel_body (drop_final_newline s) = true → Py.mem "," s = false.
Proof.
  induction s as [|x s IH]; [done|]. destruct s as [|y s].
  - cbn [drop_final_newline]. case_decide; subst; [done|].
    cbn [Py.forallb Py.mem]. rewrite andb_true_r, orb_false_r.
    intros Hb. destruct (Ascii.eqb_spec "," x) as [<-|]; done.
  - change (drop_final_newline (String x (String y s)))
      with (String x (drop_final_newline (String y s))).
    cbn [Py.forallb]. intros [Hx Hs]%andb_true_iff.
    change (Py.mem "," (String x (String y s)))
      with (Ascii.eqb "," x || Py.mem "," (String y s)).
    rewrite IH by done. rewrite orb_false_r.
    destruct (Ascii.eqb_spec "," x) as [<-|]; done.
Qed.

Lemma valid_channel_no_comma name :
  valid_channel name = true → Py.mem "," name = false.
Proof.
  unfold valid_channel. intros H.
  destruct (drop_final_newline name) as [|x rest] eqn:E; [done|].
  apply andb_true_iff in H as [[Hx Hrest]%andb_true_iff _].
  apply forallb_body_no_comma. rewrite E. cbn [Py.forallb].
  rewrite Hrest, andb_true_r. clear -Hx.
  by destruct x as [[] [] [] [] [] [] [] []].
Qed.

Section JoinPart.
Variable re : string → string → option bool.
Context (s : IRCServer) (c : cid) (cl : Client.t) (name : string).
Hypothesis Hc : objs s !! c = Some cl.
Hypothesis Hvalid : valid_channel name = true.
Hypothesis Hstrip : Py.strip name = name.
Hypothesis Hfresh : OrderedDict.get (channels s) (Py.lower name) = None.
Hypothesis Hout : Py.lower name ∉ Client.channels cl.

Lemma join_one_fresh :
  ∃ o, join_one re c [] 0 name s = (Some tt, created_by name c cl s, o).
Proof using Hc Hvalid Hstrip Hfresh Hout.
  pose proof (join_one_lookup re s c cl Hc [] 0 name) as H.
  rewrite Hstrip in H. specialize (H (valid_channel_nonempty _ Hvalid) Hvalid).
  cbv zeta in H. rewrite H. clear H.
  rewrite decide_False by done.
  assert (channel_named name s = Channel.new name) as ->
    by (unfold channel_named; by rewrite Hfresh).
  change (limit_full (Channel.new name)) with false.
  change (bad_key (Channel.new name) ([] !! 0)) with false.
  change (not_invited (Channel.new name) (Client.nick cl)) with false.
  cbv iota. cbn [is_banned_in Channel.bans Channel.new].
  assert (Hc1 : objs (with_channel_named name s) !! c = Some cl)
    by (by rewrite objs_with_channel_named).
  destruct (join_tail_run (with_channel_named name s) c cl name
              (joined (Client.nick cl) c (Channel.new name)) Hc1) as (o & Ho & _).
  rewrite Ho. exists o. f_equal. f_equal.
  unfold created_by, with_channel_named. rewrite Hfresh.
  cbn [objs channels with_channels with_objs].
  by rewrite set_set.
Qed.

Lemma part_one_last msg :
  ∃ o, part_one c msg name (created_by name c cl s) = (Some tt, s, o).
Proof using Hc Hvalid Hstrip Hfresh Hout.
  set (k := Py.lower name).
  set (ch2 := joined (Client.nick cl) c (Channel.new name)).
  set (cl2 := Client.with_channels (Client.channels cl ∪ {[k]}) cl).
  set (s2 := created_by name c cl s).
  assert (Hc2 : objs s2 !! c = Some cl2).
  { unfold s2, created_by. cbn [objs with_objs with_channels].
    by rewrite lookup_alter_eq, Hc. }
  unfold part_one. rewrite bind_get_state. fold k.
  assert (OrderedDict.get (channels s2) k = Some ch2) as ->
    by (unfold s2, created_by; cbn [channels with_objs with_channels];
        apply get_set_eq).
  rewrite (bind_the_client _ _ _ Hc2).
  rewrite decide_False.
  2: { intros H. apply H. unfold cl2. cbn [Client.channels Client.with_channels].
       apply elem_of_add. }
  rewrite bind_send_all, bind_store_channel, bind_update_client.
  unfold drop_if_empty. rewrite bind_get_state.
  cbn [channels with_objs with_channels]. rewrite get_set_eq.
  assert (Channel.members (Channel.remove_member (Client.nick cl2) ch2) = []) as ->.
  { unfold ch2, joined, cl2.
    cbn [length Channel.members Channel.new Client.nick Client.with_channels].
    rewrite bool_decide_eq_true_2 by done.
    cbn [Channel.remove_member Channel.members Channel.with_ops Channel.with_voices
         Channel.with_members Channel.add_member Channel.new OrderedDict.set
         OrderedDict.pop].
    by rewrite decide_True. }
  unfold modify, prepend. cbn [fst snd]. eexists. f_equal. f_equal.
  unfold s2, created_by. cbn [channels objs with_objs with_channels]. fold k.
  rewrite !set_set, pop_set_absent by done.
  assert (alter (λ x, Client.with_channels (Client.channels x ∖ {[k]}) x) c
            (alter (λ x, Client.with_channels (Client.channels x ∪ {[k]}) x) c (objs s))
          = objs s) as ->.
  { apply map_eq. intros i. destruct (decide (i = c)) as [->|Hne].
    - rewrite !lookup_alter_eq, Hc. cbn. f_equal.
      rewrite add_discard, discard_absent by done. by destruct cl.
    - by rewrite !lookup_alter_ne. }
  by destruct s.
Qed.
End JoinPart.

(** X15.  A client that creates a channel by joining it and then
    leaves it puts the server back in the state it was in. *)
Theorem join_then_part re s c cl name :
  objs s !! c = Some cl →
  Client.registered cl = true →
  valid_channel name = true →
  Py.strip name = name →
  OrderedDict.get (channels s) (Py.lower name) = None →
  Py.lower name ∉ Client.channels cl →
  let r1 := cmd_JOIN re c [name] s in
  let r2 := cmd_PART c [name] (state_of r1) in
  returned r1 = true ∧ returned r2 = true ∧ state_of r2 = s.
Proof.
  intros Hc Hreg Hvalid Hstrip Hfresh Hout r1 r2.
  destruct (join_one_fresh re s c cl name Hc Hvalid Hstrip Hfresh Hout) as [o1 H1].
  assert (Hsplit : Py.split_on "," name = [name]).
  { unfold Py.split_on. rewrite fields_last by (by apply valid_channel_no_comma). done. }
  assert (Hr1 : r1 = (Some tt, state_of r1, o1) ∧ ∃ cl2, objs (state_of r1) !! c = Some cl2
              ∧ part_one c (Client.nick cl2) name (state_of r1)
                = part_one c (Client.nick cl) name (state_of r1)).
  { unfold r1, cmd_JOIN. rewrite (bind_the_client _ _ _ Hc), Hreg. cbn [negb].
    rewrite Hsplit. cbn [for_each_indexed]. rewrite bind_run, H1.
    unfold ret, prepend. cbn [fst snd state_of]. rewrite app_nil_r. split; [done|].
    unfold created_by. cbn [objs with_objs with_channels].
    rewrite lookup_alter_eq, Hc. by eexists. }
  destruct Hr1 as [Hr1 (cl2 & Hc2 & Hmsg)].
  destruct (part_one_last s c cl name Hc Hvalid Hstrip Hfresh Hout (Client.nick cl))
    as [o2 H2].
  assert (Hs1 : state_of r1 = (join_one re c [] 0 name s).1.2)
    by (unfold r1, cmd_JOIN; rewrite (bind_the_client _ _ _ Hc), Hreg; cbn [negb];
        rewrite Hsplit; cbn [for_each_indexed]; rewrite bind_run, H1; done).
  rewrite H1 in Hs1. cbn [fst snd] in Hs1.
  assert (Hr2 : r2 = (Some tt, s, o2)).
  { unfold r2, cmd_PART. rewrite (bind_the_client _ _ _ Hc2), Hsplit.
    cbn [for_each]. rewrite bind_run, Hmsg, Hs1, H2.
    unfold ret, prepend. cbn [fst snd]. by rewrite app_nil_r. }
  split; [by rewrite Hr1|]. by rewrite Hr2.
Qed.


(* ===================================================================== *)
(** * More of the code: what holds in every state the server reaches *)
(* ===================================================================== *)

Section DictKeys.
Context {V : Type}.
Implicit Types (d : list (string * V)) (k : string) (v : V).

Lemma keys_get d k : k ∈ OrderedDict.keys d ↔ is_Some (OrderedDict.get d k).
Proof.
  destruct (OrderedDict.get d k) as [v|] eqn:E.
  - split; [by eauto|]. intros _. by eapply get_keys.
  - apply get_None_keys in E. split; [done|]. by intros [? ?].
Qed.

Lemma get_set_Some d k v k' v' :
  OrderedDict.get (OrderedDict.set d k v) k' = Some v' →
  (k' = k ∧ v' = v) ∨ (k' ≠ k ∧ OrderedDict.get d k' = Some v').
Proof.
  destruct (decide (k = k')) as [<-|Hne].
  - rewrite get_set_eq. intros [= <-]. by left.
  - rewrite get_set_ne by done. intros ?. right. split; [congruence|done].
Qed.

Lemma get_pop_Some d k k' v' :
  OrderedDict.get (OrderedDict.pop d k) k' = Some v' →
  k' ≠ k ∧ OrderedDict.get d k' = Some v'.
Proof.
  destruct (decide (k = k')) as [<-|Hne].
  - by rewrite get_pop_eq.
  - rewrite get_pop_ne by done. intros ?. split; [congruence|done].
Qed.

Lemma keys_set d k v n :
  n ∈ OrderedDict.keys (OrderedDict.set d k v) ↔ n = k ∨ n ∈ OrderedDict.keys d.
Proof.
  rewrite !keys_get. destruct (decide (k = n)) as [<-|Hne].
  - rewrite get_set_eq. split; [by left|by eauto].
  - rewrite get_set_ne by done. split; [by right|]. intros [->|?]; done.
Qed.

Lemma keys_pop d k n :
  n ∈ OrderedDict.keys (OrderedDict.pop d k) ↔ n ≠ k ∧ n ∈ OrderedDict.keys d.
Proof.
  rewrite !keys_get. destruct (decide (k = n)) as [<-|Hne].
  - rewrite get_pop_eq. split; [by intros [??]|by intros [? _]].
  - rewrite get_pop_ne by done. split; [by split|by intros [_ ?]].
Qed.

Lemma NoDup_keys_set d k v :
  NoDup (OrderedDict.keys d) → NoDup (OrderedDict.keys (OrderedDict.set d k v)).
Proof.
  unfold OrderedDict.keys.
  induction d as [|[k0 v0] d IH]; cbn [OrderedDict.set fmap list_fmap fst].
  - intros _. apply NoDup_singleton.
  - rewrite NoDup_cons. intros [Hk0 Hd]. case_decide; subst.
    + cbn. by apply NoDup_cons.
    + cbn [fmap list_fmap fst]. apply NoDup_cons. split; [|by apply IH].
      intros Hin. apply (keys_set d k v k0) in Hin as [->|Hin]; done.
Qed.

Lemma NoDup_keys_pop d k :
  NoDup (OrderedDict.keys d) → NoDup (OrderedDict.keys (OrderedDict.pop d k)).
Proof.
  unfold OrderedDict.keys.
  induction d as [|[k0 v0] d IH]; cbn [OrderedDict.pop fmap list_fmap fst]; [done|].
  rewrite NoDup_cons. intros [Hk0 Hd]. case_decide; subst; [by apply IH|].
  cbn [fmap list_fmap fst]. apply NoDup_cons. split; [|by apply IH].
  intros Hin. by apply (keys_pop d k k0) in Hin as [_ Hin].
Qed.

Lemma get_elem_of d k v : OrderedDict.get d k = Some v → (k, v) ∈ d.
Proof.
  induction d as [|[k0 v0] d IH]; cbn [OrderedDict.get]; [done|].
  case_decide; subst.
  - intros [= ->]. left.
  - intros ?. right. by apply IH.
Qed.

Lemma elem_of_get d k v :
  NoDup (OrderedDict.keys d) → (k, v) ∈ d → OrderedDict.get d k = Some v.
Proof.
  unfold OrderedDict.keys.
  induction d as [|[k0 v0] d IH]; cbn [OrderedDict.get fmap list_fmap fst].
  - by intros _ ?%elem_of_nil.
  - rewrite NoDup_cons. intros [Hk0 Hd] [[= -> ->]|Hin]%elem_of_cons.
    + by rewrite decide_True.
    + rewrite decide_False; [by apply IH|]. intros ->. apply Hk0.
      apply list_elem_of_fmap. by exists (k, v).
Qed.

Lemma values_get d v :
  NoDup (OrderedDict.keys d) → v ∈ OrderedDict.values d →
  ∃ k, OrderedDict.get d k = Some v.
Proof.
  intros Hd (kv & -> & Hin)%list_elem_of_fmap. destruct kv as [k v].
  exists k. by apply elem_of_get.
Qed.
End DictKeys.

(** ** Well-formed states *)

Lemma wf_member s k ch n m :
  well_formed s → OrderedDict.get (channels s) k = Some ch →
  OrderedDict.get (Channel.members ch) n = Some m → member_ok s k n m.
Proof. intros Hs Hk Hn. by destruct (wf_member_but _ _ Hs k ch n m Hk Hn). Qed.

Lemma wf_but_weaken (P Q : string → string → cid → Prop) s :
  (∀ k n m, P k n m → Q k n m) → wf_but P s → wf_but Q s.
Proof.
  intros HPQ [H1 H2 H3 H4 H5 H6 H7]. split; try done.
  intros k ch n m Hk Hn. destruct (H7 k ch n m Hk Hn); [by left|right; auto].
Qed.

Lemma wf_new t : well_formed (new_server t).
Proof.
  split; cbn; try done; apply NoDup_nil_2.
Qed.

Lemma client_ok_new host : client_ok (Client.new host).
Proof.
  split; cbn; try done.
  lia.
Qed.

Lemma registered_as_mono s s' n c :
  _all_clients s ⊆ _all_clients s' →
  (∀ cl, objs s !! c = Some cl → objs s' !! c = Some cl) →
  registered_as s n c → registered_as s' n c.
Proof.
  intros Ha Ho (Hl & cl & Hc & Hn & Hr). split; [by apply Ha|].
  exists cl. auto.
Qed.

Lemma member_ok_mono s s' k n c :
  _all_clients s ⊆ _all_clients s' →
  (∀ cl, objs s !! c = Some cl → objs s' !! c = Some cl) →
  member_ok s k n c → member_ok s' k n c.
Proof.
  intros Ha Ho (Hl & cl & Hc & Hn & Hr & Hk). split; [by apply Ha|].
  exists cl. auto.
Qed.

Lemma wf_accept s c host : well_formed s → objs s !! c = None → well_formed (accept c host s).
Proof.
  intros [H1 H2 H3 H4 H5 H6 H7] Hc. unfold accept.
  assert (Hmono : ∀ c' cl, objs s !! c' = Some cl →
            (<[c:=Client.new host]> (objs s)) !! c' = Some cl).
  { intros c' cl Hc'. rewrite lookup_insert_ne; [done|]. intros ->. congruence. }
  split; cbn [_all_clients objs clients channels with_all_clients with_objs]; try done.
  - intros c' [Hin|Heq%elem_of_singleton]%elem_of_union.
    + destruct (H1 c' Hin) as [cl Hcl]. exists cl. by apply Hmono.
    + subst c'. rewrite lookup_insert_eq. by eexists.
  - intros c' cl. destruct (decide (c' = c)) as [->|Hne].
    + rewrite lookup_insert_eq. intros [= <-]. apply client_ok_new.
    + rewrite lookup_insert_ne by done. apply H2.
  - intros n c' Hn. eapply registered_as_mono; [| |by apply H4].
    + cbn. apply union_subseteq_l.
    + cbn. apply Hmono.
  - intros k ch n m Hk Hn. destruct (H7 k ch n m Hk Hn) as [Hm|[]]. left.
    eapply member_ok_mono; [| |done].
    + cbn. apply union_subseteq_l.
    + cbn. apply Hmono.
Qed.

Section WfChannel.
Context (P : string → string → cid → Prop) (s : IRCServer).
Hypothesis Hs : wf_but P s.

Lemma wf_store_channel k ch :
  channel_ok k ch →
  (∀ n m, OrderedDict.get (Channel.members ch) n = Some m →
          member_ok s k n m ∨ P k n m) →
  wf_but P (with_channels (OrderedDict.set (channels s) k ch) s).
Proof using Hs.
  destruct Hs as [H1 H2 H3 H4 H5 H6 H7]. intros Hch Hm.
  split; cbn [_all_clients objs clients channels with_channels]; try done.
  - by apply NoDup_keys_set.
  - intros k' ch' [[-> ->]|[Hne Hk']]%get_set_Some; [done|by apply H6].
  - intros k' ch' n m [[-> ->]|[Hne Hk']]%get_set_Some Hn.
    + by apply Hm.
    + by apply (H7 k' ch').
Qed.

Lemma wf_pop_channel k :
  wf_but P (with_channels (OrderedDict.pop (channels s) k) s).
Proof using Hs.
  destruct Hs as [H1 H2 H3 H4 H5 H6 H7].
  split; cbn [_all_clients objs clients channels with_channels]; try done.
  - by apply NoDup_keys_pop.
  - intros k' ch' [Hne Hk']%get_pop_Some. by apply H6.
  - intros k' ch' n m [Hne Hk']%get_pop_Some Hn. by apply (H7 k' ch').
Qed.

Lemma wf_pop_registry n :
  wf_but P (with_clients (OrderedDict.pop (clients s) n) s).
Proof using Hs.
  destruct Hs as [H1 H2 H3 H4 H5 H6 H7].
  split; cbn [_all_clients objs clients channels with_clients]; try done.
  - by apply NoDup_keys_pop.
  - intros n' c' [Hne Hk']%get_pop_Some. by apply H4.
Qed.

Lemma wf_set_registry n c :
  registered_as s n c →
  wf_but P (with_clients (OrderedDict.set (clients s) n c) s).
Proof using Hs.
  destruct Hs as [H1 H2 H3 H4 H5 H6 H7]. intros Hreg.
  split; cbn [_all_clients objs clients channels with_clients]; try done.
  - by apply NoDup_keys_set.
  - intros n' c' [[-> ->]|[Hne Hk']]%get_set_Some; [done|by apply H4].
Qed.
End WfChannel.

Section WfClient.
Context (s : IRCServer) (c : cid) (cl : Client.t) (f : Client.t → Client.t).
Hypothesis Hs : well_formed s.
Hypothesis Hc : objs s !! c = Some cl.
Hypothesis Hok : client_ok (f cl).

(** A change to a client object that keeps its nick and its
    registration, and every channel that lists it among its members. *)
Lemma wf_update_client :
  Client.nick (f cl) = Client.nick cl →
  Client.registered (f cl) = Client.registered cl →
  (∀ k ch n, OrderedDict.get (channels s) k = Some ch →
             OrderedDict.get (Channel.members ch) n = Some c →
             k ∈ Client.channels (f cl)) →
  well_formed (with_objs (alter f c (objs s)) s).
Proof using Hs Hc Hok.
  destruct Hs as [H1 H2 H3 H4 H5 H6 H7]. intros Hn Hr Hk.
  split; cbn [_all_clients objs clients channels with_objs]; try done.
  - intros c' Hin. destruct (decide (c' = c)) as [->|Hne].
    + rewrite lookup_alter_eq, Hc. by eexists.
    + rewrite lookup_alter_ne by done. by apply H1.
  - intros c' cl'. destruct (decide (c' = c)) as [->|Hne].
    + rewrite lookup_alter_eq, Hc. by intros [= <-].
    + rewrite lookup_alter_ne by done. apply H2.
  - intros n c' Hn'. destruct (H4 n c' Hn') as (Hl & cl' & Hc' & Hnick & Hreg).
    split; [done|]. cbn [objs with_objs]. destruct (decide (c' = c)) as [->|Hne].
    + rewrite lookup_alter_eq, Hc. exists (f cl). simplify_eq.
      split; [done|]. by rewrite Hn, Hr.
    + rewrite lookup_alter_ne by done. by exists cl'.
  - intros k ch n m Hch Hm. left.
    destruct (H7 k ch n m Hch Hm) as [(Hl & cl' & Hc' & Hnick & Hreg & Hin)|[]].
    split; [done|]. cbn [objs with_objs]. destruct (decide (m = c)) as [->|Hne].
    + rewrite lookup_alter_eq, Hc. exists (f cl). simplify_eq.
      split; [done|]. rewrite Hn, Hr. split; [done|]. split; [done|].
      by eapply Hk.
    + rewrite lookup_alter_ne by done. by exists cl'.
Qed.

(** Any change to a client object nothing refers to. *)
Lemma wf_update_unreferenced :
  unreferenced s c → well_formed (with_objs (alter f c (objs s)) s).
Proof using Hs Hc Hok.
  destruct Hs as [H1 H2 H3 H4 H5 H6 H7]. intros [Hu1 Hu2].
  split; cbn [_all_clients objs clients channels with_objs]; try done.
  - intros c' Hin. destruct (decide (c' = c)) as [->|Hne].
    + rewrite lookup_alter_eq, Hc. by eexists.
    + rewrite lookup_alter_ne by done. by apply H1.
  - intros c' cl'. destruct (decide (c' = c)) as [->|Hne].
    + rewrite lookup_alter_eq, Hc. by intros [= <-].
    + rewrite lookup_alter_ne by done. apply H2.
  - intros n c' Hn'. destruct (H4 n c' Hn') as (Hl & cl' & Hc' & Hnick & Hreg).
    split; [done|]. cbn [objs with_objs]. destruct (decide (c' = c)) as [->|Hne].
    + by destruct (Hu1 n).
    + rewrite lookup_alter_ne by done. by exists cl'.
  - intros k ch n m Hch Hm. left.
    destruct (H7 k ch n m Hch Hm) as [(Hl & cl' & Hc' & Hnick & Hreg & Hin)|[]].
    split; [done|]. cbn [objs with_objs]. destruct (decide (m = c)) as [->|Hne].
    + by destruct (Hu2 k ch n).
    + rewrite lookup_alter_ne by done. by exists cl'.
Qed.
End WfClient.

Lemma unregistered_unreferenced s c cl :
  well_formed s → objs s !! c = Some cl → Client.registered cl = false → unreferenced s c.
Proof.
  intros Hs Hc Hr. split.
  - intros n Hn. destruct (wf_registry _ _ Hs n c Hn) as (_ & cl' & Hc' & _ & Hreg).
    congruence.
  - intros k ch n Hk Hn.
    destruct (wf_member s k ch n c Hs Hk Hn) as (_ & cl' & Hc' & _ & Hreg & _).
    congruence.
Qed.

(** The end of a connection nothing refers to. *)
Lemma wf_discard s c :
  well_formed s → unreferenced s c → well_formed (with_all_clients (_all_clients s ∖ {[c]}) s).
Proof.
  intros [H1 H2 H3 H4 H5 H6 H7] [Hu1 Hu2].
  split; cbn [_all_clients objs clients channels with_all_clients]; try done.
  - intros c' [Hin _]%elem_of_difference. by apply H1.
  - intros n c' Hn. destruct (H4 n c' Hn) as (Hl & Hrest). split; [|done].
    cbn. apply elem_of_difference. split; [done|].
    intros ->%elem_of_singleton. by destruct (Hu1 n).
  - intros k ch n m Hk Hn. left.
    destruct (H7 k ch n m Hk Hn) as [(Hl & Hrest)|[]]. split; [|done].
    cbn. apply elem_of_difference. split; [done|].
    intros ->%elem_of_singleton. by destruct (Hu2 k ch n).
Qed.

Section Silent.
Variable re : string → string → option bool.

Lemma silent_ret {A} (a : A) s : silent re (ret a) s.
Proof. split; [done|]. intros _. by eexists. Qed.

Lemma silent_send m line s : silent re (send m line) s.
Proof. split; [done|]. intros _. by eexists. Qed.

Lemma silent_bind {A B} (m : M A) (k : A → M B) s :
  silent re m s → (∀ a, silent re (k a) s) → silent re (m ≫= k) s.
Proof.
  intros [Hs Hr] Hk. unfold silent. rewrite bind_run.
  destruct (m s) as [[[a|] s1] o1] eqn:E; cbn [state_of fst snd] in *; subst s1.
  - destruct (Hk a) as [Hs' Hr']. by rewrite state_of_prepend.
  - split; [done|]. intros Ht. by destruct (Hr Ht).
Qed.

Lemma silent_reply c code ps s :
  is_Some (objs s !! c) → silent re (reply c code ps) s.
Proof.
  intros [cl Hc]. unfold silent. rewrite (reply_run _ _ _ Hc). split; [done|].
  intros _. by eexists.
Qed.

Lemma silent_the_client {B} m (k : Client.t → M B) s :
  is_Some (objs s !! m) →
  (∀ cl, objs s !! m = Some cl → silent re (k cl) s) →
  silent re (the_client m ≫= k) s.
Proof.
  intros [cl Hc] Hk. unfold silent. rewrite (bind_the_client _ _ _ Hc). fold (silent re (k cl) s).
  by apply Hk.
Qed.

Lemma silent_get_state {B} (k : IRCServer → M B) s :
  silent re (k s) s → silent re (get_state ≫= k) s.
Proof. intros H. unfold silent. by rewrite bind_get_state. Qed.

Lemma silent_for_each {A} (l : list A) (body : A → M unit) s :
  (∀ x, x ∈ l → silent re (body x) s) → silent re (for_each l body) s.
Proof.
  induction l as [|x l IH]; intros H; [apply silent_ret|].
  rewrite for_each_cons. apply silent_bind.
  - apply H. left.
  - intros _. apply IH. intros y Hy. apply H. by right.
Qed.

Lemma silent_fold_each {A S} (l : list A) (acc : S) (body : S → A → M S) s :
  (∀ acc x, x ∈ l → silent re (body acc x) s) → silent re (fold_each l acc body) s.
Proof.
  revert acc. induction l as [|x l IH]; intros acc H; [apply silent_ret|].
  rewrite fold_each_cons. apply silent_bind.
  - apply H. left.
  - intros acc'. apply IH. intros acc'' y Hy. apply H. by right.
Qed.

Lemma silent_send_all ch line s : silent re (send_all ch line) s.
Proof. apply silent_for_each. intros m _. apply silent_send. Qed.
End Silent.

Section Good.
Variable re : string → string → option bool.
Variable c : cid.

Lemma good_prepend {A} o (r : option A * IRCServer * list Out) :
  good re c r → good re c (prepend o r).
Proof. done. Qed.

Lemma good_silent {A} (m : M A) s :
  well_formed s → c ∈ _all_clients s → silent re m s → good re c (m s).
Proof. intros Hs Hc [H1 H2]. unfold good. by rewrite H1. Qed.

Lemma good_ret {A} (a : A) s : well_formed s → c ∈ _all_clients s → good re c (ret a s).
Proof. intros. apply good_silent; [done..|apply silent_ret]. Qed.

Lemma good_bind {A B} (m : M A) (k : A → M B) s :
  good re c (m s) →
  (∀ a s', well_formed s' → c ∈ _all_clients s' → good re c (k a s')) →
  good re c ((m ≫= k) s).
Proof.
  intros (Hs & Hc & Hr) Hk. rewrite bind_run.
  destruct (m s) as [[[a|] s1] o1]; cbn [state_of fst snd] in *.
  - apply good_prepend. by apply Hk.
  - split; [done|]. split; [done|]. intros Ht. by destruct (Hr Ht).
Qed.

Lemma good_reply code ps s :
  well_formed s → c ∈ _all_clients s → good re c (reply c code ps s).
Proof.
  intros Hs Hc. apply good_silent; [done..|].
  apply silent_reply. by apply (wf_live _ _ Hs).
Qed.

Lemma good_reply_bind {B} code ps (k : unit → M B) s :
  well_formed s → c ∈ _all_clients s → good re c (k tt s) → good re c ((reply c code ps ≫= k) s).
Proof.
  intros Hs Hc Hk. destruct (wf_live _ _ Hs c Hc) as [cl Hcl].
  rewrite (bind_reply _ _ _ Hcl). by apply good_prepend.
Qed.

Lemma good_for_each {A} (l : list A) (body : A → M unit) s :
  well_formed s → c ∈ _all_clients s →
  (∀ x s', x ∈ l → well_formed s' → c ∈ _all_clients s' → good re c (body x s')) →
  good re c (for_each l body s).
Proof.
  revert s. induction l as [|x l IH]; intros s Hs Hc H; [by apply good_ret|].
  rewrite for_each_cons. apply good_bind.
  - apply H; [left|done..].
  - intros _ s' Hs' Hc'. apply IH; [done..|].
    intros y s'' Hy. apply H. by right.
Qed.

Lemma good_fold_each {A S} (l : list A) (acc : S) (body : S → A → M S) s :
  well_formed s → c ∈ _all_clients s →
  (∀ acc x s', x ∈ l → well_formed s' → c ∈ _all_clients s' → good re c (body acc x s')) →
  good re c (fold_each l acc body s).
Proof.
  revert s acc. induction l as [|x l IH]; intros s acc Hs Hc H; [by apply good_ret|].
  rewrite fold_each_cons. apply good_bind.
  - apply H; [left|done..].
  - intros acc' s' Hs' Hc'. apply IH; [done..|].
    intros acc'' y s'' Hy. apply H. by right.
Qed.
End Good.

(** ** The handlers that only answer *)

Ltac quiet :=
  repeat first
    [ apply silent_ret
    | apply silent_send
    | apply silent_send_all
    | apply silent_reply; assumption
    | apply silent_get_state
    | apply silent_bind; [|intros ?] ].

Section Queries.
Variable re : string → string → option bool.
Context (s : IRCServer) (c : cid).
Hypothesis Hs : well_formed s.
Hypothesis Hlive : c ∈ _all_clients s.

Lemma live_object : is_Some (objs s !! c).
Proof using Hs Hlive. by apply (wf_live _ _ Hs). Qed.

Lemma registry_object n m :
  OrderedDict.get (clients s) n = Some m → is_Some (objs s !! m).
Proof using Hs.
  intros Hn. destruct (wf_registry _ _ Hs n m Hn) as (_ & cl & Hm & _). by eexists.
Qed.

Lemma registry_entry_object n m : (n, m) ∈ clients s → is_Some (objs s !! m).
Proof using Hs.
  intros Hin. apply (registry_object n).
  apply elem_of_get; [apply (wf_registry_keys _ _ Hs)|done].
Qed.

Lemma member_entry_object k ch n m :
  OrderedDict.get (channels s) k = Some ch → (n, m) ∈ Channel.members ch →
  is_Some (objs s !! m).
Proof using Hs.
  intros Hk Hin.
  assert (OrderedDict.get (Channel.members ch) n = Some m) as Hn.
  { apply elem_of_get; [|done]. apply (ok_members _ _ (wf_channel _ _ Hs k ch Hk)). }
  destruct (wf_member s k ch n m Hs Hk Hn) as (_ & cl & Hm & _). by eexists.
Qed.

Lemma silent_send_motd : silent re (send_motd c) s.
Proof using Hs Hlive.
  pose proof live_object. unfold send_motd. quiet.
Qed.

Lemma silent_send_lusers : silent re (send_lusers c) s.
Proof using Hs Hlive.
  pose proof live_object. unfold send_lusers. quiet.
  - apply silent_fold_each. intros n m Hm.
    apply silent_the_client.
    + apply list_elem_of_fmap in Hm as ([n' m'] & -> & Hin).
      by apply (registry_entry_object n').
    + intros cl _. quiet.
  - case_decide; quiet.
  - case_decide; quiet.
Qed.

Lemma silent_cmd_CAP params : silent re (cmd_CAP c params) s.
Proof. unfold cmd_CAP. cbv zeta. case_decide; quiet. Qed.

Lemma silent_cmd_PING params : silent re (cmd_PING c params) s.
Proof. unfold cmd_PING. quiet. Qed.

Lemma silent_cmd_PONG params : silent re (cmd_PONG c params) s.
Proof. unfold cmd_PONG. quiet. Qed.

Lemma silent_send_message params cmd : silent re (_send_message c params cmd) s.
Proof using Hs Hlive.
  pose proof live_object as Hobj. unfold _send_message.
  apply silent_the_client; [done|]. intros cl Hc.
  destruct (negb (Client.registered cl)); [quiet|].
  destruct params as [|target [|text rest]]; [quiet..|].
  destruct (is_channel_target target).
  - apply silent_get_state.
    destruct (OrderedDict.get (channels s) (Py.lower target)) as [ch|]; [|quiet].
    destruct (_ && _); [quiet|]. destruct (_ && _); [quiet|].
    apply silent_for_each. intros m _. case_decide; quiet.
  - apply silent_get_state.
    destruct (OrderedDict.get (clients s) target) as [dest|] eqn:E; [|quiet].
    apply silent_the_client; [by apply (registry_object target)|].
    intros d _. quiet. destruct (_ && _); quiet.
Qed.

Lemma silent_send_names ch : silent re (send_names c ch) s.
Proof using Hs Hlive. pose proof live_object. unfold send_names. quiet. Qed.

Lemma silent_cmd_NAMES params : silent re (cmd_NAMES c params) s.
Proof using Hs Hlive.
  unfold cmd_NAMES. apply silent_get_state. destruct params as [|p0 rest].
  - apply silent_for_each. intros ch _. apply silent_send_names.
  - apply silent_for_each. intros name _. apply silent_get_state.
    destruct (OrderedDict.get _ _); [apply silent_send_names|quiet].
Qed.

Lemma silent_cmd_LIST params : silent re (cmd_LIST c params) s.
Proof using Hs Hlive.
  pose proof live_object. unfold cmd_LIST. quiet.
  apply silent_for_each. intros ch _. quiet.
Qed.

Lemma silent_matching pattern text :
  silent re (λ s, (re pattern text, s, []) : option bool * IRCServer * list Out) s.
Proof. split; [done|]. intros Ht. apply Ht. Qed.

Lemma silent_cmd_WHO params : silent re (cmd_WHO re c params) s.
Proof using Hs Hlive.
  pose proof live_object. unfold cmd_WHO. destruct params as [|mask rest]; [quiet|].
  apply silent_get_state.
  destruct (OrderedDict.get (channels s) (Py.lower mask)) as [ch|] eqn:E.
  - quiet. apply silent_for_each. intros [n m] Hin.
    apply silent_the_client; [by apply (member_entry_object (Py.lower mask) ch n)|].
    intros member _. quiet.
  - quiet. apply silent_for_each. intros [n m] Hin.
    apply silent_the_client; [by apply (registry_entry_object n)|].
    intros member _. apply silent_bind; [apply silent_matching|].
    intros []; quiet.
Qed.

Lemma silent_cmd_WHOIS params : silent re (cmd_WHOIS c params) s.
Proof using Hs Hlive.
  pose proof live_object. unfold cmd_WHOIS. destruct params as [|nick rest]; [quiet|].
  apply silent_get_state.
  destruct (OrderedDict.get (clients s) nick) as [t|] eqn:E; [|quiet].
  apply silent_the_client; [by apply (registry_object nick)|].
  intros target _. quiet. case_decide; quiet.
Qed.

Lemma silent_cmd_ISON params : silent re (cmd_ISON c params) s.
Proof using Hs Hlive. pose proof live_object. unfold cmd_ISON. quiet. Qed.

Lemma silent_cmd_USERHOST params : silent re (cmd_USERHOST c params) s.
Proof using Hs Hlive.
  pose proof live_object. unfold cmd_USERHOST. quiet.
  apply silent_fold_each. intros results nick _.
  destruct (OrderedDict.get (clients s) nick) as [t|] eqn:E; [|quiet].
  apply silent_the_client; [by apply (registry_object nick)|].
  intros tc _. quiet.
Qed.

Lemma silent_cmd_VERSION params : silent re (cmd_VERSION c params) s.
Proof using Hs Hlive. pose proof live_object. unfold cmd_VERSION. quiet. Qed.

Lemma silent_cmd_TIME now params : silent re (cmd_TIME now c params) s.
Proof using Hs Hlive. pose proof live_object. unfold cmd_TIME. quiet. Qed.

Lemma silent_cmd_INFO params : silent re (cmd_INFO c params) s.
Proof using Hs Hlive. pose proof live_object. unfold cmd_INFO. quiet. Qed.

Lemma silent_cmd_OPER params : silent re (cmd_OPER c params) s.
Proof using Hs Hlive. pose proof live_object. unfold cmd_OPER. quiet. Qed.
End Queries.

(** ** Changes that keep an object well formed *)

Lemma channel_ok_new name :
  valid_channel name = true → channel_ok (Py.lower name) (Channel.new name).
Proof.
  intros Hv. split; cbn; try done; apply NoDup_nil_2.
Qed.

(** A change to the fields no property of [channel_ok] reads. *)
Lemma channel_ok_same k ch ch' :
  Channel.name ch' = Channel.name ch →
  Channel.members ch' = Channel.members ch →
  Channel.ops ch' = Channel.ops ch →
  Channel.voices ch' = Channel.voices ch →
  Channel.modes ch' = Channel.modes ch →
  Channel.key ch' = Channel.key ch →
  Channel.limit ch' = Channel.limit ch →
  Channel.bans ch' = Channel.bans ch →
  channel_ok k ch → channel_ok k ch'.
Proof.
  intros E1 E2 E3 E4 E5 E6 E7 E8 [H1 H2 H3 H4 H5 H6 H7 H8 H9].
  split; by rewrite ?E1, ?E2, ?E3, ?E4, ?E5, ?E6, ?E7, ?E8.
Qed.

Lemma channel_ok_remove_member k ch nick :
  channel_ok k ch → channel_ok k (Channel.remove_member nick ch).
Proof.
  intros [H1 H2 H3 H4 H5 H6 H7 H8 H9]. split; cbn; try done.
  - by apply NoDup_keys_pop.
  - intros n [Hn Hne]%elem_of_difference. apply keys_pop. split; [|by apply H4].
    intros ->. apply Hne. by apply elem_of_singleton.
  - intros n [Hn Hne]%elem_of_difference. apply keys_pop. split; [|by apply H5].
    intros ->. apply Hne. by apply elem_of_singleton.
Qed.

Lemma channel_ok_joined k ch nick c :
  channel_ok k ch → channel_ok k (joined nick c ch).
Proof.
  intros [H1 H2 H3 H4 H5 H6 H7 H8 H9]. unfold joined.
  destruct (bool_decide _); split; cbn; try done.
  - by apply NoDup_keys_set.
  - intros n [Hn|Hn%elem_of_singleton]%elem_of_union; apply keys_set; auto.
  - intros n Hn. apply keys_set. auto.
  - by apply NoDup_keys_set.
  - intros n Hn. apply keys_set. auto.
  - intros n Hn. apply keys_set. auto.
Qed.

Lemma channel_ok_members k ch members' ops' voices' :
  channel_ok k ch →
  NoDup (OrderedDict.keys members') →
  (∀ n, n ∈ ops' → n ∈ OrderedDict.keys members') →
  (∀ n, n ∈ voices' → n ∈ OrderedDict.keys members') →
  channel_ok k
    (Channel.with_voices voices'
       (Channel.with_ops ops' (Channel.with_members members' ch))).
Proof. intros [H1 H2 H3 H4 H5 H6 H7 H8 H9] Hm Ho Hv. by split. Qed.

(** [rename_member], all at once. *)
Lemma rename_member_fields old new c ch :
  Channel.rename_member old new c ch
  = Channel.with_voices
      (if decide (old ∈ Channel.voices ch)
       then Channel.voices ch ∖ {[old]} ∪ {[new]} else Channel.voices ch)
      (Channel.with_ops
         (if decide (old ∈ Channel.ops ch)
          then Channel.ops ch ∖ {[old]} ∪ {[new]} else Channel.ops ch)
         (Channel.with_members
            (if OrderedDict.mem (Channel.members ch) old
             then OrderedDict.set (OrderedDict.pop (Channel.members ch) old) new c
             else Channel.members ch) ch)).
Proof.
  unfold Channel.rename_member. destruct ch as [nm tp ts mb op vo md ky li iv bn].
  cbn [Channel.members Channel.ops Channel.voices Channel.with_members
       Channel.with_ops Channel.with_voices Channel.name Channel.topic
       Channel.topic_setter Channel.modes Channel.key Channel.limit
       Channel.invites Channel.bans].
  destruct (OrderedDict.mem mb old);
    cbn [Channel.members Channel.ops Channel.voices Channel.with_members
         Channel.with_ops Channel.with_voices Channel.name Channel.topic
         Channel.topic_setter Channel.modes Channel.key Channel.limit
         Channel.invites Channel.bans];
    destruct (decide (old ∈ op));
    cbn [Channel.members Channel.ops Channel.voices Channel.with_members
         Channel.with_ops Channel.with_voices Channel.name Channel.topic
         Channel.topic_setter Channel.modes Channel.key Channel.limit
         Channel.invites Channel.bans];
    destruct (decide (old ∈ vo)); reflexivity.
Qed.

Lemma renamed_privilege (A : gset string) (d : list (string * cid)) old new c n :
  (∀ n, n ∈ A → n ∈ OrderedDict.keys d) →
  n ∈ (if decide (old ∈ A) then A ∖ {[old]} ∪ {[new]} else A) →
  n ∈ OrderedDict.keys
        (if OrderedDict.mem d old
         then OrderedDict.set (OrderedDict.pop d old) new c else d).
Proof.
  intros HA Hn. destruct (OrderedDict.mem d old) eqn:E.
  - apply keys_set. destruct (decide (old ∈ A)).
    + apply elem_of_union in Hn as [[Hn Hne]%elem_of_difference|Hn%elem_of_singleton];
        [|by left]. right. apply keys_pop. split; [|by apply HA].
      intros ->. apply Hne. by apply elem_of_singleton.
    + right. apply keys_pop. split; [|by apply HA]. by intros ->.
  - assert (old ∉ A) as Hold.
    { intros Hin%HA%keys_get%mem_get. congruence. }
    rewrite decide_False in Hn by done. by apply HA.
Qed.

Lemma channel_ok_rename_member k ch old new c :
  channel_ok k ch → channel_ok k (Channel.rename_member old new c ch).
Proof.
  intros Hch. rewrite rename_member_fields. apply channel_ok_members; [done|..].
  - destruct (OrderedDict.mem _ _); [|apply (ok_members _ _ Hch)].
    apply NoDup_keys_set, NoDup_keys_pop, (ok_members _ _ Hch).
  - intros n. apply renamed_privilege, (ok_ops _ _ Hch).
  - intros n. apply renamed_privilege, (ok_voices _ _ Hch).
Qed.

Lemma mode_flag m :
  Py.mem m "mntisp" = true →
  m ≠ "k"%char ∧ m ≠ "l"%char ∧ Py.mem m "mntispkl" = true.
Proof. by destruct m as [[] [] [] [] [] [] [] []]. Qed.

Lemma channel_ok_flag k ch m (add : bool) :
  Py.mem m "mntisp" = true → channel_ok k ch →
  channel_ok k
    (Channel.with_modes
       (if add then Channel.modes ch ∪ {[m]} else Channel.modes ch ∖ {[m]}) ch).
Proof.
  intros (Hk & Hl & Hm)%mode_flag [H1 H2 H3 H4 H5 H6 H7 H8 H9].
  split; cbn; try done.
  - intros x Hx. destruct add.
    + apply elem_of_union in Hx as [Hx|Hx%elem_of_singleton]; subst; first [by apply H6|by apply H4|by apply H5|assumption|reflexivity|by auto].
    + apply elem_of_difference in Hx as [Hx _]. first [by apply H6|by apply H4|by apply H5|by auto].
  - rewrite <- H7. destruct add.
    + rewrite elem_of_union, elem_of_singleton. split; [|by left].
      by intros [?|?].
    + rewrite elem_of_difference, elem_of_singleton. split; [by intros [? _]|].
      intros ?. split; [done|]. by intros ?.
  - rewrite <- H8. destruct add.
    + rewrite elem_of_union, elem_of_singleton. split; [|by left].
      by intros [?|?].
    + rewrite elem_of_difference, elem_of_singleton. split; [by intros [? _]|].
      intros ?. split; [done|]. by intros ?.
Qed.

Lemma channel_ok_key k ch (p : option string) :
  channel_ok k ch →
  channel_ok k
    (Channel.with_key p
       (Channel.with_modes
          (match p with
           | Some _ => Channel.modes ch ∪ {["k"%char]}
           | None => Channel.modes ch ∖ {["k"%char]}
           end) ch)).
Proof.
  intros [H1 H2 H3 H4 H5 H6 H7 H8 H9]. split; cbn; try done.
  - intros x Hx. destruct p.
    + apply elem_of_union in Hx as [Hx|Hx%elem_of_singleton]; subst; first [by apply H6|by apply H4|by apply H5|assumption|reflexivity|by auto].
    + apply elem_of_difference in Hx as [Hx _]. first [by apply H6|by apply H4|by apply H5|by auto].
  - destruct p.
    + split; [by eauto|]. intros _. apply elem_of_union. right.
      by apply elem_of_singleton.
    + split; [|by intros [? ?]]. intros [_ Hne]%elem_of_difference.
      destruct Hne. by apply elem_of_singleton.
  - rewrite <- H8. destruct p.
    + rewrite elem_of_union, elem_of_singleton. split; [|by left].
      by intros [?|?].
    + rewrite elem_of_difference, elem_of_singleton. split; [by intros [? _]|].
      intros ?. split; [done|]. by intros ?.
Qed.

Lemma channel_ok_limit_set k ch (n : Z) :
  channel_ok k ch →
  channel_ok k
    (Channel.with_modes (Channel.modes ch ∪ {["l"%char]})
       (Channel.with_limit (Some n) ch)).
Proof.
  intros [H1 H2 H3 H4 H5 H6 H7 H8 H9]. split; cbn; try done.
  - intros x [Hx|Hx%elem_of_singleton]%elem_of_union; subst; first [by apply H6|by apply H4|by apply H5|assumption|reflexivity|by auto].
  - rewrite <- H7. rewrite elem_of_union, elem_of_singleton. split; [|by left].
    by intros [?|?].
  - split; [by eauto|]. intros _. apply elem_of_union. right.
    by apply elem_of_singleton.
Qed.

Lemma channel_ok_limit_unset k ch :
  channel_ok k ch →
  channel_ok k
    (Channel.with_limit None
       (Channel.with_modes (Channel.modes ch ∖ {["l"%char]}) ch)).
Proof.
  intros [H1 H2 H3 H4 H5 H6 H7 H8 H9]. split; cbn; try done.
  - intros x [Hx _]%elem_of_difference. by apply H6.
  - rewrite <- H7. rewrite elem_of_difference, elem_of_singleton.
    split; [by intros [? _]|]. intros ?. split; [done|]. by intros ?.
  - split; [|by intros [? ?]]. intros [_ Hne]%elem_of_difference.
    destruct Hne. by apply elem_of_singleton.
Qed.

Lemma channel_ok_ops k ch (add : bool) nick :
  nick ∈ OrderedDict.keys (Channel.members ch) → channel_ok k ch →
  channel_ok k
    (Channel.with_ops
       (if add then Channel.ops ch ∪ {[nick]} else Channel.ops ch ∖ {[nick]}) ch).
Proof.
  intros Hn [H1 H2 H3 H4 H5 H6 H7 H8 H9]. split; cbn; try done.
  intros x Hx. destruct add.
  - apply elem_of_union in Hx as [Hx|Hx%elem_of_singleton]; subst; first [by apply H6|by apply H4|by apply H5|assumption|reflexivity|by auto].
  - apply elem_of_difference in Hx as [Hx _]. first [by apply H6|by apply H4|by apply H5|by auto].
Qed.

Lemma channel_ok_voices k ch (add : bool) nick :
  nick ∈ OrderedDict.keys (Channel.members ch) → channel_ok k ch →
  channel_ok k
    (Channel.with_voices
       (if add then Channel.voices ch ∪ {[nick]} else Channel.voices ch ∖ {[nick]}) ch).
Proof.
  intros Hn [H1 H2 H3 H4 H5 H6 H7 H8 H9]. split; cbn; try done.
  intros x Hx. destruct add.
  - apply elem_of_union in Hx as [Hx|Hx%elem_of_singleton]; subst; first [by apply H6|by apply H4|by apply H5|assumption|reflexivity|by auto].
  - apply elem_of_difference in Hx as [Hx _]. first [by apply H6|by apply H4|by apply H5|by auto].
Qed.

Lemma channel_ok_bans k ch (add : bool) ban :
  channel_ok k ch →
  channel_ok k
    (Channel.with_bans
       (if add
        then (if decide (ban ∈ Channel.bans ch) then Channel.bans ch
              else Channel.bans ch ++ [ban])
        else filter (λ b, b ≠ ban) (Channel.bans ch)) ch).
Proof.
  intros [H1 H2 H3 H4 H5 H6 H7 H8 H9]. split; cbn; try done.
  destruct add.
  - case_decide; [done|]. apply NoDup_app. split; [done|].
    split; [|apply NoDup_singleton]. intros x Hx ->%list_elem_of_singleton. done.
  - by apply NoDup_filter.
Qed.

(** A change to the fields of a client no other object depends on. *)
Lemma client_ok_same cl cl' :
  Client.nick cl' = Client.nick cl →
  Client.user cl' = Client.user cl →
  Client.registered cl' = Client.registered cl →
  Client.channels cl' = Client.channels cl →
  Client.modes cl' = Client.modes cl →
  Client._nick_set cl' = Client._nick_set cl →
  Client._user_set cl' = Client._user_set cl →
  client_ok cl → client_ok cl'.
Proof.
  intros E1 E2 E3 E4 E5 E6 E7 [H1 H2 H3 H4 H5].
  split; by rewrite ?E1, ?E2, ?E3, ?E4, ?E5, ?E6, ?E7.
Qed.

Lemma client_ok_channels cl chs :
  client_ok cl → Client.registered cl = true →
  client_ok (Client.with_channels chs cl).
Proof.
  intros [H1 H2 H3 H4 H5] Hr. split; cbn; try done. by rewrite Hr.
Qed.

Lemma client_ok_umode cl (add : bool) m :
  Py.mem m "io" = true → client_ok cl →
  client_ok
    (Client.with_modes
       (if add then Client.modes cl ∪ {[m]} else Client.modes cl ∖ {[m]}) cl).
Proof.
  intros Hm [H1 H2 H3 H4 H5]. split; cbn; try done.
  assert (m = "i"%char ∨ m = "o"%char) as Hio.
  { clear -Hm. destruct m as [[] [] [] [] [] [] [] []]; try done; auto. }
  intros x Hx. destruct add.
  - apply elem_of_union in Hx as [Hx|Hx%elem_of_singleton]; subst; first [by apply H6|by apply H4|by apply H5|assumption|reflexivity|by auto].
  - apply elem_of_difference in Hx as [Hx _]. first [by apply H6|by apply H4|by apply H5|by auto].
Qed.

(** ** The handlers that change the state *)

Lemma alter_missing (m : cid) f s :
  objs s !! m = None → with_objs (alter f m (objs s)) s = s.
Proof.
  intros Hm. assert (alter f m (objs s) = objs s) as ->; [|by destruct s].
  apply map_eq. intros i. destruct (decide (i = m)) as [->|Hne].
  - by rewrite lookup_alter_eq, Hm.
  - by rewrite lookup_alter_ne.
Qed.

Section Touch.
Context (s : IRCServer).
Hypothesis Hs : well_formed s.

Lemma wf_touch_client m cl f :
  objs s !! m = Some cl → client_ok (f cl) →
  Client.nick (f cl) = Client.nick cl →
  Client.registered (f cl) = Client.registered cl →
  Client.channels cl ⊆ Client.channels (f cl) →
  well_formed (with_objs (alter f m (objs s)) s).
Proof using Hs.
  intros Hm Hok Hn Hr Hsub. apply (wf_update_client s m cl f); try done.
  intros k ch n Hk Hin.
  destruct (wf_member s k ch n m Hs Hk Hin) as (_ & cl' & Hm' & _ & _ & Hkin).
  simplify_eq. by apply Hsub.
Qed.

Lemma wf_shrink_channel k ch ch' :
  OrderedDict.get (channels s) k = Some ch → channel_ok k ch' →
  (∀ n m, OrderedDict.get (Channel.members ch') n = Some m →
          OrderedDict.get (Channel.members ch) n = Some m) →
  well_formed (with_channels (OrderedDict.set (channels s) k ch') s).
Proof using Hs.
  intros Hk Hok Hsub. apply wf_store_channel; [done..|].
  intros n m Hn. left. apply (wf_member s k ch n m); auto.
Qed.

(** A member leaves: the entry under its nick goes from the channel,
    the channel from the channels of the client. *)
Lemma wf_leave k ch nick m cl :
  OrderedDict.get (channels s) k = Some ch →
  objs s !! m = Some cl → Client.nick cl = nick → Client.registered cl = true →
  well_formed (with_objs
        (alter (λ x, Client.with_channels (Client.channels x ∖ {[k]}) x) m (objs s))
        (with_channels
           (OrderedDict.set (channels s) k (Channel.remove_member nick ch)) s)).
Proof using Hs.
  intros Hk Hm Hn Hr.
  set (s1 := with_channels
               (OrderedDict.set (channels s) k (Channel.remove_member nick ch)) s).
  assert (Hs1 : well_formed s1).
  { apply (wf_shrink_channel k ch); [done| |].
    - apply channel_ok_remove_member, (wf_channel _ _ Hs k ch Hk).
    - intros n m'. cbn. by intros [_ ?]%get_pop_Some. }
  apply (wf_update_client s1 m cl _ Hs1); try done.
  - apply client_ok_channels; [|done]. apply (wf_client _ _ Hs m cl Hm).
  - intros k' ch' n. cbn [channels with_channels]. intros Hk' Hin.
    cbn [Client.channels Client.with_channels].
    apply get_set_Some in Hk' as [[-> ->]|[Hne Hk']].
    + cbn in Hin. apply get_pop_Some in Hin as [Hne Hin].
      destruct (wf_member s k ch n m Hs Hk Hin) as (_ & cl' & Hm' & Hn' & _).
      by simplify_eq.
    + destruct (wf_member s k' ch' n m Hs Hk' Hin) as (_ & cl' & Hm' & _ & _ & Hkin).
      simplify_eq. apply elem_of_difference. split; [done|].
      by intros ?%elem_of_singleton.
Qed.
End Touch.

Section Handlers.
Variable re : string → string → option bool.
Context (c : cid).

Lemma good_cmd_AWAY params s :
  well_formed s → c ∈ _all_clients s → good re c (cmd_AWAY c params s).
Proof.
  intros Hs Hlive. destruct (live_object s c Hs Hlive) as [cl Hc].
  unfold cmd_AWAY. destruct params as [|p0 rest];
    rewrite bind_update_client; (apply good_reply; [|done]);
    (apply (wf_touch_client s Hs c cl); [done| |done..]);
    by apply (client_ok_same cl), (wf_client _ _ Hs c cl).
Qed.

Lemma good_cmd_TOPIC params s :
  well_formed s → c ∈ _all_clients s → good re c (cmd_TOPIC c params s).
Proof.
  intros Hs Hlive. destruct (live_object s c Hs Hlive) as [cl Hc].
  unfold cmd_TOPIC. destruct params as [|name rest]; [by apply good_reply|].
  rewrite bind_get_state.
  destruct (OrderedDict.get (channels s) (Py.lower name)) as [ch|] eqn:Hk;
    [|by apply good_reply].
  destruct rest as [|text rest]; [case_decide; by apply good_reply|].
  rewrite (bind_the_client _ _ _ Hc). destruct (_ && _); [by apply good_reply|].
  rewrite bind_store_channel. apply good_silent; [|done|apply silent_send_all].
  apply (wf_shrink_channel s Hs _ ch); [done| |done].
  by apply (channel_ok_same _ ch), (wf_channel _ _ Hs _ ch).
Qed.

Lemma good_cmd_INVITE params s :
  well_formed s → c ∈ _all_clients s → good re c (cmd_INVITE c params s).
Proof.
  intros Hs Hlive. destruct (live_object s c Hs Hlive) as [cl Hc].
  unfold cmd_INVITE. destruct params as [|nick [|name rest]]; [by apply good_reply..|].
  rewrite bind_get_state, (bind_the_client _ _ _ Hc). cbv zeta.
  destruct (_ && _); [by apply good_reply|].
  destruct (OrderedDict.get (channels s) (Py.lower name)) as [ch|] eqn:Hk;
    cbv beta iota.
  - destruct (_ && _); [by apply good_reply|].
    destruct (OrderedDict.get (clients s) nick) as [target|]; [|by apply good_reply].
    rewrite bind_store_channel.
    set (s1 := with_channels _ s).
    assert (well_formed s1) as Hs1.
    { apply (wf_shrink_channel s Hs _ ch); [done| |done].
      by apply (channel_ok_same _ ch), (wf_channel _ _ Hs _ ch). }
    apply good_reply_bind; [done..|].
    apply good_silent; [done..|apply silent_send].
  - destruct (OrderedDict.get (clients s) nick) as [target|]; [|by apply good_reply].
    rewrite bind_ret.
    apply good_reply_bind; [done..|].
    apply good_silent; [done..|apply silent_send].
Qed.

Lemma good_cmd_KICK params s :
  well_formed s → c ∈ _all_clients s → good re c (cmd_KICK c params s).
Proof.
  intros Hs Hlive. destruct (live_object s c Hs Hlive) as [cl Hc].
  unfold cmd_KICK. destruct params as [|name [|nick rest]]; [by apply good_reply..|].
  rewrite (bind_the_client _ _ _ Hc). cbv zeta. rewrite bind_get_state.
  destruct (OrderedDict.get (channels s) (Py.lower name)) as [ch|] eqn:Hk;
    [|by apply good_reply].
  case_decide; [by apply good_reply|]. case_decide; [by apply good_reply|].
  destruct (OrderedDict.get (clients s) nick) as [target|] eqn:Hn;
    [|by apply good_reply].
  destruct (wf_registry _ _ Hs nick target Hn) as (_ & t & Ht & Hnick & Hreg).
  rewrite (bind_the_client _ _ _ Ht).
  case_decide; [by apply good_reply|].
  rewrite bind_send_all. apply good_prepend.
  rewrite bind_store_channel.
  unfold update_client, modify, good. cbn [state_of fst snd].
  split; [|split; [done|by eauto]].
  by apply (wf_leave s Hs _ ch nick target t).
Qed.

Lemma good_drop_if_empty k s :
  well_formed s → c ∈ _all_clients s → good re c (drop_if_empty k s).
Proof.
  intros Hs Hlive. unfold drop_if_empty. rewrite bind_get_state.
  destruct (OrderedDict.get (channels s) k) as [ch|]; [|by apply good_ret].
  destruct (Channel.members ch); [|by apply good_ret].
  split; [|split; [done|by eauto]]. by apply wf_pop_channel.
Qed.

Lemma good_part_one msg name s :
  well_formed s → c ∈ _all_clients s → good re c (part_one c msg name s).
Proof.
  intros Hs Hlive. destruct (live_object s c Hs Hlive) as [cl Hc].
  unfold part_one. rewrite bind_get_state.
  destruct (OrderedDict.get (channels s) (Py.lower name)) as [ch|] eqn:Hk;
    [|by apply good_reply].
  rewrite (bind_the_client _ _ _ Hc). case_decide as Hin; [by apply good_reply|].
  rewrite bind_send_all. apply good_prepend.
  rewrite bind_store_channel, bind_update_client.
  apply good_drop_if_empty; [|done].
  apply (wf_leave s Hs _ ch _ c cl); try done.
  destruct (Client.registered cl) eqn:Hr; [done|].
  apply (ok_unregistered _ (wf_client _ _ Hs c cl Hc)) in Hr.
  rewrite Hr in Hin. by apply not_elem_of_empty in Hin.
Qed.

Lemma good_cmd_PART params s :
  well_formed s → c ∈ _all_clients s → good re c (cmd_PART c params s).
Proof.
  intros Hs Hlive. destruct (live_object s c Hs Hlive) as [cl Hc].
  unfold cmd_PART. destruct params as [|p0 rest]; [by apply good_reply|].
  rewrite (bind_the_client _ _ _ Hc). apply good_for_each; [done..|].
  intros name s' _. apply good_part_one.
Qed.
End Handlers.

(** ** JOIN *)

Lemma members_joined nick c ch :
  Channel.members (joined nick c ch) = OrderedDict.set (Channel.members ch) nick c.
Proof. unfold joined. by destruct (bool_decide _). Qed.

Lemma wf_join s k ch c cl :
  well_formed s → c ∈ _all_clients s →
  objs s !! c = Some cl → Client.registered cl = true →
  OrderedDict.get (channels s) k = Some ch →
  well_formed (with_objs
        (alter (λ x, Client.with_channels (Client.channels x ∪ {[k]}) x) c (objs s))
        (with_channels
           (OrderedDict.set (channels s) k (joined (Client.nick cl) c ch)) s)).
Proof.
  intros Hs Hlive Hc Hr Hk.
  set (f := λ x, Client.with_channels (Client.channels x ∪ {[k]}) x).
  set (s2 := with_objs (alter f c (objs s)) s).
  assert (Hs2 : well_formed s2).
  { apply (wf_touch_client s Hs c cl f); try done.
    - apply client_ok_channels; [|done]. apply (wf_client _ _ Hs c cl Hc).
    - cbn. apply union_subseteq_l. }
  change (well_formed (with_channels
                (OrderedDict.set (channels s2) k (joined (Client.nick cl) c ch)) s2)).
  apply wf_store_channel; [done| |].
  - apply channel_ok_joined, (wf_channel _ _ Hs k ch Hk).
  - intros n m. rewrite members_joined. intros Hnm. left.
    apply get_set_Some in Hnm as [[-> ->]|[Hne Hn]].
    + split; [done|]. exists (f cl). unfold s2. cbn [objs with_objs].
      rewrite lookup_alter_eq, Hc. split; [done|]. split; [done|]. split; [done|].
      cbn. apply elem_of_add.
    + by apply (wf_member s2 k ch n m Hs2).
Qed.

Section Join.
Variable re : string → string → option bool.
Context (c : cid).

Lemma is_banned_in_total bans mask :
  total re → is_Some (is_banned_in re bans mask).
Proof.
  intros Ht. induction bans as [|ban bans IH]; [by eexists|].
  cbn [is_banned_in]. destruct (Ht (Channel.glob_to_regex ban) mask) as [[] ->];
    [by eexists|done].
Qed.

Lemma wf_with_channel_named name s :
  well_formed s → valid_channel name = true → well_formed (with_channel_named name s).
Proof.
  intros Hs Hv. unfold with_channel_named.
  destruct (OrderedDict.get (channels s) (Py.lower name)); [done|].
  apply wf_store_channel; [done|by apply channel_ok_new|].
  intros n m. by cbn.
Qed.

Lemma channel_named_ok name s :
  well_formed s → valid_channel name = true →
  channel_ok (Py.lower name) (channel_named name s).
Proof.
  intros Hs Hv. unfold channel_named.
  destruct (OrderedDict.get (channels s) (Py.lower name)) as [ch|] eqn:E.
  - by apply (wf_channel _ _ Hs).
  - by apply channel_ok_new.
Qed.

(** One round of [cmd_JOIN], for a registered client: the state stays
    well formed and the client registered. *)
Lemma good_join_one keys i raw s cl :
  well_formed s → c ∈ _all_clients s →
  objs s !! c = Some cl → Client.registered cl = true →
  let r := join_one re c keys i raw s in
  good re c r
  ∧ ∃ cl', objs (state_of r) !! c = Some cl' ∧ Client.registered cl' = true.
Proof.
  intros Hs Hlive Hc Hr r. subst r.
  destruct (decide (Py.strip raw = "")) as [He|Hne].
  { unfold join_one. cbv zeta. rewrite decide_True by done.
    split; [by apply good_ret|by exists cl]. }
  destruct (valid_channel (Py.strip raw)) eqn:Hv.
  2: { unfold join_one. cbv zeta. rewrite decide_False by done. rewrite Hv.
       cbn [negb]. split; [by apply good_reply|].
       rewrite (reply_run _ _ _ Hc). by exists cl. }
  rewrite (join_one_lookup re s c cl Hc keys i raw Hne Hv). cbv zeta.
  set (name := Py.strip raw). set (s1 := with_channel_named name s).
  assert (Hs1 : well_formed s1) by (by apply wf_with_channel_named).
  assert (Hc1 : objs s1 !! c = Some cl)
    by (unfold s1; by rewrite objs_with_channel_named).
  assert (Hl1 : c ∈ _all_clients s1)
    by (unfold s1, with_channel_named; by destruct (OrderedDict.get _ _)).
  assert (Hk1 : OrderedDict.get (channels s1) (Py.lower name)
                = Some (channel_named name s))
    by apply get_with_channel_named.
  assert (Hrep : ∀ code ps,
            good re c (reply c code ps s1)
            ∧ ∃ cl', objs (state_of (reply c code ps s1)) !! c = Some cl'
                     ∧ Client.registered cl' = true).
  { intros code ps. split; [by apply good_reply|].
    rewrite (reply_run _ _ _ Hc1). by exists cl. }
  case_decide; [split; [by apply good_ret|by exists cl]|].
  destruct (limit_full _); [apply Hrep|].
  destruct (bad_key _ _); [apply Hrep|].
  destruct (not_invited _ _); [apply Hrep|].
  destruct (is_banned_in re _ _) as [[|]|] eqn:Hb; [apply Hrep| |].
  2: { split; [|by exists cl]. split; [done|]. split; [done|].
       intros Ht. cbn.
       destruct (is_banned_in_total (Channel.bans (channel_named name s))
                   (Client.mask cl) Ht) as [b Hb'].
       congruence. }
  rewrite bind_store_channel, bind_update_client, bind_send_all.
  set (s3 := with_objs _ _).
  assert (Hs3 : well_formed s3) by (by apply (wf_join s1)).
  assert (Hl3 : c ∈ _all_clients s3) by done.
  assert (Hc3 : objs s3 !! c
                = Some (Client.with_channels
                          (Client.channels cl ∪ {[Py.lower name]}) cl)).
  { unfold s3. cbn [objs with_objs with_channels]. by rewrite lookup_alter_eq, Hc1. }
  split.
  - apply good_prepend.
    case_decide; (apply good_reply_bind; [done..|]);
      (apply good_silent; [done..|]); by apply silent_send_names.
  - rewrite state_of_prepend.
    destruct (send_names_run s3 c _ (joined (Client.nick cl) c (channel_named name s))
                Hc3) as [names Hn].
    case_decide; rewrite (bind_reply _ _ _ Hc3), Hn; cbn [state_of prepend fst snd];
      by eexists.
Qed.

Lemma good_join_loop keys names i s cl :
  well_formed s → c ∈ _all_clients s →
  objs s !! c = Some cl → Client.registered cl = true →
  good re c (for_each_indexed i names (join_one re c keys) s).
Proof.
  revert i s cl. induction names as [|raw names IH]; intros i s cl Hs Hlive Hc Hr.
  { by apply good_ret. }
  cbn [for_each_indexed]. rewrite bind_run.
  destruct (good_join_one keys i raw s cl Hs Hlive Hc Hr)
    as [(Hs1 & Hl1 & Ht1) (cl1 & Hc1 & Hr1)].
  destruct (join_one re c keys i raw s) as [[[[]|] s1] o1];
    cbn [state_of fst snd] in *.
  - apply good_prepend. by apply (IH _ _ cl1).
  - split; [done|]. split; [done|]. intros Ht. by destruct (Ht1 Ht).
Qed.

Lemma good_cmd_JOIN params s :
  well_formed s → c ∈ _all_clients s → good re c (cmd_JOIN re c params s).
Proof.
  intros Hs Hlive. destruct (live_object s c Hs Hlive) as [cl Hc].
  unfold cmd_JOIN. rewrite (bind_the_client _ _ _ Hc).
  destruct (Client.registered cl) eqn:Hr; cbn [negb]; [|by apply good_ret].
  destruct params as [|p0 rest]; [by apply good_reply|].
  by apply (good_join_loop _ _ _ _ cl).
Qed.
End Join.

(** ** MODE *)

Section Mode.
Variable re : string → string → option bool.
Context (c : cid).

Lemma good_mode_step name k v m s :
  well_formed s → c ∈ _all_clients s → good re c (mode_step c name k v m s).
Proof.
  intros Hs Hlive. destruct (live_object s c Hs Hlive) as [cl Hc].
  unfold mode_step. rewrite bind_get_state, (bind_the_client _ _ _ Hc).
  destruct (OrderedDict.get (channels s) k) as [ch|] eqn:Hk; [|by apply good_ret].
  pose proof (wf_channel _ _ Hs k ch Hk) as Hch.
  assert (Hstore : ∀ ch' (a : mode_vars),
            channel_ok k ch' → Channel.members ch' = Channel.members ch →
            good re c ((store_channel k ch' ≫= λ _, ret a) s)).
  { intros ch' a Hok Hm. rewrite bind_store_channel. apply good_ret; [|done].
    apply (wf_shrink_channel s Hs k ch); [done..|]. by rewrite Hm. }
  assert (Hsend : ∀ ch' line (a : mode_vars),
            channel_ok k ch' → Channel.members ch' = Channel.members ch →
            good re c ((store_channel k ch' ≫= λ _,
                        send_all ch line ≫= λ _, ret a) s)).
  { intros ch' line a Hok Hm. rewrite bind_store_channel, bind_send_all.
    apply good_prepend, good_ret; [|done].
    apply (wf_shrink_channel s Hs k ch); [done..|]. by rewrite Hm. }
  cbv zeta.
  destruct (Ascii.eqb m "+"); [by apply good_ret|].
  destruct (Ascii.eqb m "-"); [by apply good_ret|].
  destruct (Py.mem m "mntisp") eqn:Hflag.
  { apply Hstore; [|done]. by apply channel_ok_flag. }
  destruct (Ascii.eqb_spec m "k") as [->|_].
  { destruct (adding v); [destruct (mp v) as [|p rest]|].
    - by apply good_ret.
    - apply Hstore; [|done]. apply (channel_ok_key k ch (Some p) Hch).
    - apply Hstore; [|done]. apply (channel_ok_key k ch None Hch). }
  destruct (Ascii.eqb_spec m "l") as [->|_].
  { destruct (adding v); [destruct (mp v) as [|p rest]|].
    - by apply good_ret.
    - destruct (Py.int p) as [n|]; [|by apply good_ret].
      apply Hstore; [|done]. by apply channel_ok_limit_set.
    - apply Hstore; [|done]. by apply channel_ok_limit_unset. }
  destruct (Ascii.eqb_spec m "o") as [->|_].
  { destruct (mp v) as [|nick rest]; [by apply good_ret|].
    destruct (OrderedDict.mem (Channel.members ch) nick) eqn:Hmem;
      [|by apply good_ret].
    apply Hsend; [|done]. apply channel_ok_ops; [|done].
    by apply keys_get, mem_get. }
  destruct (Ascii.eqb_spec m "v") as [->|_].
  { destruct (mp v) as [|nick rest]; [by apply good_ret|].
    destruct (OrderedDict.mem (Channel.members ch) nick) eqn:Hmem;
      [|by apply good_ret].
    apply Hsend; [|done]. apply channel_ok_voices; [|done].
    by apply keys_get, mem_get. }
  destruct (Ascii.eqb_spec m "b") as [->|_]; [|by apply good_ret].
  destruct (mp v) as [|ban rest].
  - apply good_bind.
    + apply good_for_each; [done..|]. intros ban s' _. apply good_reply.
    + intros _ s' Hs' Hl'. apply good_reply_bind; [done..|]. by apply good_ret.
  - apply Hsend; [|done]. by apply channel_ok_bans.
Qed.

Lemma good_handle_channel_mode name mode_params s :
  well_formed s → c ∈ _all_clients s →
  good re c (handle_channel_mode c name mode_params s).
Proof.
  intros Hs Hlive. destruct (live_object s c Hs Hlive) as [cl Hc].
  unfold handle_channel_mode. cbv zeta. rewrite bind_get_state.
  destruct (OrderedDict.get (channels s) (Py.lower name)) as [ch|];
    [|by apply good_reply].
  destruct mode_params as [|mode_str rest]; [by apply good_reply|].
  rewrite (bind_the_client _ _ _ Hc). destruct (_ && _); [by apply good_reply|].
  apply good_bind.
  - apply good_fold_each; [done..|]. intros v m s' _. apply good_mode_step.
  - intros v s' Hs' Hl'. case_decide; [by apply good_ret|].
    rewrite bind_get_state. destruct (OrderedDict.get _ _); [|by apply good_ret].
    apply good_silent; [done..|apply silent_send_all].
Qed.

Lemma good_user_mode_step t adding m s :
  well_formed s → c ∈ _all_clients s → good re c (user_mode_step c t adding m s).
Proof.
  intros Hs Hlive. unfold user_mode_step.
  destruct (Ascii.eqb m "+"); [by apply good_ret|].
  destruct (Ascii.eqb m "-"); [by apply good_ret|].
  destruct (Py.mem m "io") eqn:Hm.
  - rewrite bind_update_client. apply good_ret; [|done].
    destruct (objs s !! t) as [tc|] eqn:Ht; [|by rewrite alter_missing].
    apply (wf_touch_client s Hs t tc); try done.
    by apply client_ok_umode, (wf_client _ _ Hs t tc).
  - apply good_reply_bind; [done..|]. by apply good_ret.
Qed.

Lemma good_handle_user_mode target mode_params s :
  well_formed s → c ∈ _all_clients s →
  good re c (handle_user_mode c target mode_params s).
Proof.
  intros Hs Hlive. destruct (live_object s c Hs Hlive) as [cl Hc].
  unfold handle_user_mode. rewrite (bind_the_client _ _ _ Hc).
  destruct (_ && _); [by apply good_reply|]. rewrite bind_get_state.
  destruct (OrderedDict.get (clients s) target) as [t|] eqn:Ht;
    [|by apply good_reply].
  destruct mode_params as [|mode_str rest].
  - apply good_silent; [done..|].
    apply silent_the_client; [by apply (registry_object s Hs target)|].
    intros tc _. apply silent_send.
  - apply good_bind.
    + apply good_fold_each; [done..|]. intros a m s' _. apply good_user_mode_step.
    + intros _ s' Hs' Hl'. apply good_silent; [done..|apply silent_send].
Qed.

Lemma good_cmd_MODE params s :
  well_formed s → c ∈ _all_clients s → good re c (cmd_MODE c params s).
Proof.
  intros Hs Hlive. unfold cmd_MODE.
  destruct params as [|target rest]; [by apply good_reply|].
  destruct (is_channel_target target);
    [by apply good_handle_channel_mode|by apply good_handle_user_mode].
Qed.
End Mode.

(** ** Registration *)

Lemma take_length n s : String.length (Py.take n s) ≤ n.
Proof.
  revert s. induction n as [|n IH]; intros s; [done|].
  destruct s as [|x s]; cbn; [lia|]. specialize (IH s). lia.
Qed.

Section Register.
Variable re : string → string → option bool.
Context (c : cid).

(** The flags of an unregistered client are updated by [g], then
    [try_register] runs. *)
Lemma good_try_register_after g s cl :
  well_formed s → c ∈ _all_clients s →
  objs s !! c = Some cl → Client.registered cl = false →
  (if Client._nick_set (g cl) then valid_nick (Client.nick (g cl)) = true
   else Client.nick (g cl) = "*") →
  Client.registered (g cl) = false →
  Client.channels (g cl) = Client.channels cl →
  String.length (Client.user (g cl)) ≤ 10 →
  Client.modes (g cl) = Client.modes cl →
  good re c ((update_client c g ≫= λ _, try_register c) s).
Proof.
  intros Hs Hlive Hc Hr Hnick Hreg Hchs Huser Hmodes.
  pose proof (wf_client _ _ Hs c cl Hc) as [O1 O2 O3 O4 O5].
  pose proof (unregistered_unreferenced s c cl Hs Hc Hr) as Hun.
  rewrite bind_update_client. set (s1 := with_objs _ s).
  assert (Hc1 : objs s1 !! c = Some (g cl)).
  { unfold s1. cbn [objs with_objs]. by rewrite lookup_alter_eq, Hc. }
  unfold try_register. rewrite (bind_the_client _ _ _ Hc1).
  destruct (Client._nick_set (g cl) && Client._user_set (g cl)) eqn:Hboth;
    cbn [negb].
  - rewrite bind_update_client, bind_modify, bind_get_state.
    set (s3 := with_clients _ _).
    assert (Hs3 : well_formed s3).
    { unfold s3. apply wf_set_registry.
      - unfold s1. cbn [objs with_objs].
        rewrite alter_alter_eq.
        apply (wf_update_unreferenced s c cl); try done.
        split; cbn; try done. by rewrite Hmodes.
      - split; [done|]. eexists. cbn [objs with_objs].
        rewrite lookup_alter_eq, Hc1. cbn. done. }
    assert (Hl3 : c ∈ _all_clients s3) by done.
    do 4 (apply good_reply_bind; [done..|]).
    apply good_bind.
    + apply good_silent; [done..|]. by apply silent_send_motd.
    + intros _ s' Hs' Hl'. apply good_silent; [done..|]. by apply silent_send_lusers.
  - apply good_ret; [|done]. apply (wf_update_unreferenced s c cl); try done.
    split; try done.
    + by rewrite Hreg, Hboth.
    + by rewrite Hchs, O3.
    + by rewrite Hmodes.
Qed.

Lemma good_cmd_USER params s :
  well_formed s → c ∈ _all_clients s → good re c (cmd_USER c params s).
Proof.
  intros Hs Hlive. destruct (live_object s c Hs Hlive) as [cl Hc].
  pose proof (wf_client _ _ Hs c cl Hc) as [O1 O2 O3 O4 O5].
  unfold cmd_USER. rewrite (bind_the_client _ _ _ Hc).
  destruct (Client.registered cl) eqn:Hr; [by apply good_reply|].
  destruct params as [|p0 [|p1 [|p2 [|p3 rest]]]]; [by apply good_reply..|].
  apply (good_try_register_after _ s cl); try done.
  apply (take_length 10 p0).
Qed.
End Register.

(** ** NICK *)

Lemma members_renamed old new c ch :
  Channel.members (Channel.rename_member old new c ch)
  = if OrderedDict.mem (Channel.members ch) old
    then OrderedDict.set (OrderedDict.pop (Channel.members ch) old) new c
    else Channel.members ch.
Proof. by rewrite rename_member_fields. Qed.

Lemma wf_but_refine (P Q : string → string → cid → Prop) s :
  (∀ k ch n m, OrderedDict.get (channels s) k = Some ch →
               OrderedDict.get (Channel.members ch) n = Some m →
               P k n m → Q k n m) →
  wf_but P s → wf_but Q s.
Proof.
  intros HPQ [H1 H2 H3 H4 H5 H6 H7]. split; try done.
  intros k ch n m Hk Hn. destruct (H7 k ch n m Hk Hn); [by left|right; eauto].
Qed.

Lemma wf_store_channel_but (P Q : string → string → cid → Prop) s k ch :
  wf_but P s → channel_ok k ch →
  (∀ n m, OrderedDict.get (Channel.members ch) n = Some m →
          member_ok s k n m ∨ Q k n m) →
  (∀ k' n m, k' ≠ k → P k' n m → Q k' n m) →
  wf_but Q (with_channels (OrderedDict.set (channels s) k ch) s).
Proof.
  intros [H1 H2 H3 H4 H5 H6 H7] Hch Hm HPQ.
  split; cbn [_all_clients objs clients channels with_channels]; try done.
  - by apply NoDup_keys_set.
  - intros k' ch' [[-> ->]|[Hne Hk']]%get_set_Some; [done|by apply H6].
  - intros k' ch' n m [[-> ->]|[Hne Hk']]%get_set_Some Hn.
    + by apply Hm.
    + destruct (H7 k' ch' n m Hk' Hn); [by left|right; auto].
Qed.

Section Nick.
Variable re : string → string → option bool.
Context (c : cid) (cl : Client.t) (new : string).
Hypothesis Hvalid : valid_nick new = true.
Hypothesis Hreg : Client.registered cl = true.

(** The registry and the object once the nick has been changed, the
    member lists not yet. *)
Lemma wf_renamed s :
  well_formed s → c ∈ _all_clients s → objs s !! c = Some cl →
  wf_but (renaming c (Client.nick cl) (elements (Client.channels cl)))
    (with_objs (alter (Client.with_nick new) c (objs s))
       (with_clients
          (OrderedDict.set (OrderedDict.pop (clients s) (Client.nick cl)) new c) s)).
Proof using Hvalid Hreg.
  intros Hs Hlive Hc. pose proof Hs as [H1 H2 H3 H4 H5 H6 H7].
  pose proof (H2 c cl Hc) as [O1 O2 O3 O4 O5].
  assert (Hother : ∀ m x, m ≠ c → objs s !! m = Some x →
            alter (Client.with_nick new) c (objs s) !! m = Some x).
  { intros m x Hne Hm. by rewrite lookup_alter_ne. }
  split; cbn [_all_clients objs clients channels with_objs with_clients]; try done.
  - intros m Hm. destruct (decide (m = c)) as [->|Hne].
    + rewrite lookup_alter_eq, Hc. by eexists.
    + rewrite lookup_alter_ne by done. by apply H1.
  - intros m x. destruct (decide (m = c)) as [->|Hne].
    + rewrite lookup_alter_eq, Hc. intros [= <-]. split; cbn; try done.
      rewrite Hreg in O2. symmetry in O2. apply andb_true_iff in O2 as [-> _]. done.
    + rewrite lookup_alter_ne by done. apply H2.
  - by apply NoDup_keys_set, NoDup_keys_pop.
  - intros n m [[-> ->]|[Hne [Hne' Hn]%get_pop_Some]]%get_set_Some.
    + split; [done|]. exists (Client.with_nick new cl). cbn [objs with_objs].
      by rewrite lookup_alter_eq, Hc.
    + destruct (H4 n m Hn) as (Hl & x & Hm & Hnick & Hr). split; [done|].
      exists x. cbn [objs with_objs]. split; [|done]. apply Hother; [|done].
      intros ->. by simplify_eq.
  - intros k ch n m Hk Hn.
    destruct (wf_member s k ch n m Hs Hk Hn) as (Hl & x & Hm & Hnick & Hr & Hin).
    destruct (decide (m = c)) as [->|Hne].
    + right. simplify_eq. split; [done|]. split; [done|]. by apply elem_of_elements.
    + left. split; [done|]. exists x. cbn [objs with_objs]. split; [|done].
      by apply Hother.
Qed.

Lemma rename_round_run acc k s :
  rename_round c (Client.nick cl) new acc k s
  = match OrderedDict.get (channels s) k with
    | Some ch =>
        (Some (acc ∪ list_to_set
                 (OrderedDict.values
                    (Channel.members (Channel.rename_member (Client.nick cl) new c ch)))),
         with_channels
           (OrderedDict.set (channels s) k (Channel.rename_member (Client.nick cl) new c ch)) s,
         [])
    | None => (Some acc, s, [])
    end.
Proof.
  unfold rename_round. rewrite bind_get_state.
  destruct (OrderedDict.get (channels s) k) as [ch|] eqn:Hk; [|done].
  cbv zeta. unfold update_channel. rewrite bind_modify.
  unfold set_channel. by rewrite Hk.
Qed.

Lemma rename_loop rem (acc : gset cid) s :
  (∀ k, k ∈ rem → k ∈ Client.channels cl) →
  wf_but (renaming c (Client.nick cl) rem) s → c ∈ _all_clients s →
  objs s !! c = Some (Client.with_nick new cl) →
  ∃ acc' s' o,
    fold_each rem acc (rename_round c (Client.nick cl) new) s = (Some acc', s', o)
    ∧ well_formed s' ∧ c ∈ _all_clients s'.
Proof using Hvalid Hreg.
  revert acc s. induction rem as [|k rem IH]; intros acc s Hrem Hs Hlive Hc.
  { exists acc, s, []. split; [done|]. split; [|done].
    apply (wf_but_weaken (renaming c (Client.nick cl) [])); [|done].
    intros k n m (_ & _ & Hin). by apply elem_of_nil in Hin. }
  rewrite fold_each_cons, bind_run, rename_round_run.
  destruct (OrderedDict.get (channels s) k) as [ch|] eqn:Hk.
  - set (s1 := with_channels _ s).
    destruct (IH (acc ∪ list_to_set
                    (OrderedDict.values
                       (Channel.members (Channel.rename_member (Client.nick cl) new c ch)))) s1)
      as (acc' & s' & o & Hfold & Hs' & Hl'); [| |done|done|].
    + intros k' Hk'. apply Hrem. by right.
    + apply (wf_store_channel_but (renaming c (Client.nick cl) (k :: rem))); [done| | |].
      * apply channel_ok_rename_member, (wf_channel _ _ Hs k ch Hk).
      * intros n m. rewrite members_renamed.
        destruct (OrderedDict.mem (Channel.members ch) (Client.nick cl)) eqn:Hmem.
        -- intros [[-> ->]|[Hne [Hne' Hn]%get_pop_Some]]%get_set_Some.
           ++ left. split; [done|]. exists (Client.with_nick new cl). split; [done|]. split; [done|].
              split; [done|]. apply Hrem. left.
           ++ destruct (wf_member_but _ _ Hs k ch n m Hk Hn) as [?|(_ & -> & _)];
                [by left|done].
        -- intros Hn.
           destruct (wf_member_but _ _ Hs k ch n m Hk Hn) as [?|(_ & -> & _)];
             [by left|].
           assert (OrderedDict.mem (Channel.members ch) (Client.nick cl) = true)
             by (apply mem_get; by eexists).
           congruence.
      * intros k' n m Hne (-> & -> & Hin). split; [done|]. split; [done|].
        apply elem_of_cons in Hin as [->|Hin]; done.
    + rewrite Hfold. by eexists _, _, _.
  - destruct (IH acc s) as (acc' & s' & o & Hfold & Hs' & Hl'); [| |done|done|].
    + intros k' Hk'. apply Hrem. by right.
    + apply (wf_but_refine (renaming c (Client.nick cl) (k :: rem))); [|done].
      intros k' ch n m Hk' Hn (-> & -> & Hin). split; [done|]. split; [done|].
      apply elem_of_cons in Hin as [->|Hin]; [congruence|done].
    + rewrite Hfold. by eexists _, _, _.
Qed.

(** The loop touches the channels only, sends nothing and forgets no
    client it has collected. *)
Lemma rename_loop_frame rem (acc acc' : gset cid) s s' o :
  fold_each rem acc (rename_round c (Client.nick cl) new) s = (Some acc', s', o) →
  clients s' = clients s ∧ objs s' = objs s ∧ acc ⊆ acc' ∧ o = [].
Proof.
  revert acc s. induction rem as [|k rem IH]; intros acc s.
  { cbn. by intros [= <- <- <-]. }
  rewrite fold_each_cons, bind_run, rename_round_run.
  destruct (OrderedDict.get (channels s) k) as [ch|].
  - rewrite prepend_nil. intros (E1 & E2 & Hsub & E4)%IH. cbn in E1, E2.
    split; [done|]. split; [done|]. split; [|done].
    intros x Hx. apply Hsub, elem_of_union. by left.
  - rewrite prepend_nil. apply IH.
Qed.
End Nick.

Section NickCommand.
Variable re : string → string → option bool.
Context (c : cid).

Lemma good_cmd_NICK params s :
  well_formed s → c ∈ _all_clients s → good re c (cmd_NICK c params s).
Proof.
  intros Hs Hlive. destruct (live_object s c Hs Hlive) as [cl Hc].
  pose proof (wf_client _ _ Hs c cl Hc) as [O1 O2 O3 O4 O5].
  unfold cmd_NICK. destruct params as [|nick rest]; [by apply good_reply|].
  destruct (valid_nick nick) eqn:Hv; cbn [negb]; [|by apply good_reply].
  rewrite bind_get_state, (bind_the_client _ _ _ Hc).
  destruct (nick_in_use s nick && _); [by apply good_reply|]. cbv zeta.
  destruct (Client.registered cl) eqn:Hr.
  - rewrite bind_modify, bind_update_client, bind_run.
    set (s1 := with_objs _ _).
    destruct (rename_loop c cl nick Hv Hr (elements (Client.channels cl))
                {[c]} s1)
      as (acc' & s' & o & Hfold & Hs' & Hl').
    + intros k. apply elem_of_elements.
    + exact (wf_renamed c cl nick Hv Hr s Hs Hlive Hc).
    + done.
    + unfold s1. cbn [objs with_objs with_clients]. by rewrite lookup_alter_eq, Hc.
    + unfold rename_round in Hfold. cbv zeta in Hfold. rewrite Hfold.
      apply good_prepend.
      apply good_silent; [done..|].
      apply silent_for_each. intros m _. apply silent_send.
  - apply (good_try_register_after re c _ s cl); try done.
Qed.
End NickCommand.

(** ** The end of a connection *)

Lemma drop_if_empty_run k s :
  ∃ s', drop_if_empty k s = (Some tt, s', [])
        ∧ (s' = s ∨ s' = with_channels (OrderedDict.pop (channels s) k) s).
Proof.
  unfold drop_if_empty. rewrite bind_get_state.
  destruct (OrderedDict.get (channels s) k) as [ch|]; [|by eauto].
  destruct (Channel.members ch); by eauto.
Qed.

Lemma listed_only_pop c rem k s :
  listed_only c rem s →
  listed_only c rem (with_channels (OrderedDict.pop (channels s) k) s).
Proof.
  intros H k' ch n [_ Hk']%get_pop_Some Hn. by apply (H k' ch n).
Qed.

Lemma fold_each_pure {A S} (l : list A) (acc : S) (body : S → A → M S) s :
  (∀ acc x, ∃ acc' o, body acc x s = (Some acc', s, o)) →
  ∃ acc' o, fold_each l acc body s = (Some acc', s, o).
Proof.
  intros Hbody. revert acc. induction l as [|x l IH]; intros acc; [by eexists _, _|].
  rewrite fold_each_cons, bind_run.
  destruct (Hbody acc x) as (acc1 & o1 & ->).
  destruct (IH acc1) as (acc2 & o2 & ->). by eexists _, _.
Qed.

Section Quit.
Variable re : string → string → option bool.
Context (c : cid) (cl : Client.t) (msg : string).

Lemma quit_round_ok acc k rem s :
  leaving c (Client.nick cl) s → listed_only c (k :: rem) s →
  ∃ acc' s' o, quit_round c cl msg acc k s = (Some acc', s', o)
               ∧ leaving c (Client.nick cl) s' ∧ listed_only c rem s'.
Proof.
  intros (Hs & Hlive & x & Hc & Hn & Hr) Hlist.
  unfold quit_round. rewrite bind_get_state.
  destruct (OrderedDict.get (channels s) k) as [ch|] eqn:Hk.
  2: { exists acc, s, []. split; [done|]. split; [by split; eauto|].
       intros k' ch n Hk' Hin. specialize (Hlist k' ch n Hk' Hin).
       apply elem_of_cons in Hlist as [->|?]; [congruence|done]. }
  rewrite bind_run.
  destruct (fold_each_pure (OrderedDict.values (Channel.members ch)) acc
              (λ notified member,
                 if decide (member ≠ c ∧ member ∉ notified)
                 then send member (":" +:+ Client.mask cl +:+ " QUIT :" +:+ msg) ;;
                      ret (notified ∪ {[member]})
                 else ret notified) s) as (acc' & o & ->).
  { intros a m. case_decide; by eexists _, _. }
  unfold update_channel. rewrite bind_modify. unfold set_channel. rewrite Hk.
  rewrite bind_update_client.
  set (s2 := with_objs _ _).
  assert (Hs2 : well_formed s2).
  { apply (wf_leave s Hs k ch (Client.nick cl) c x); done. }
  assert (Hc2 : objs s2 !! c
                = Some (Client.with_channels (Client.channels x ∖ {[k]}) x)).
  { unfold s2. cbn [objs with_objs with_channels]. by rewrite lookup_alter_eq, Hc. }
  assert (Hlist2 : listed_only c rem s2).
  { intros k' ch' n. unfold s2. cbn [channels with_objs with_channels].
    intros [[-> ->]|[Hne Hk']]%get_set_Some Hin.
    - cbn in Hin. apply get_pop_Some in Hin as [Hne Hin].
      destruct (wf_member s k ch n c Hs Hk Hin) as (_ & x' & Hc' & Hn' & _).
      by simplify_eq.
    - specialize (Hlist k' ch' n Hk' Hin).
      apply elem_of_cons in Hlist as [->|?]; done. }
  rewrite bind_run.
  destruct (drop_if_empty_run k s2) as (s3 & -> & [->| ->]);
    unfold ret, prepend; cbn [fst snd]; eexists _, _, _; (split; [done|]).
  - split; [|done]. split; [done|]. split; [done|]. eexists. split; [done|]. done.
  - split; [|by apply listed_only_pop]. split; [by apply wf_pop_channel|].
    split; [done|]. eexists. split; [exact Hc2|]. done.
Qed.

Lemma quit_loop_ok rem acc s :
  leaving c (Client.nick cl) s → listed_only c rem s →
  ∃ acc' s' o, fold_each rem acc (quit_round c cl msg) s = (Some acc', s', o)
               ∧ leaving c (Client.nick cl) s' ∧ listed_only c [] s'.
Proof.
  revert acc s. induction rem as [|k rem IH]; intros acc s Hs Hlist.
  { by exists acc, s, []. }
  rewrite fold_each_cons, bind_run.
  destruct (quit_round_ok acc k rem s Hs Hlist) as (acc1 & s1 & o1 & -> & Hs1 & Hl1).
  destruct (IH acc1 s1 Hs1 Hl1) as (acc2 & s2 & o2 & -> & Hs2 & Hl2).
  by eexists _, _, _.
Qed.

Lemma broadcast_quit_ok s :
  well_formed s → c ∈ _all_clients s →
  objs s !! c = Some cl → Client.registered cl = true →
  ∃ s' o, broadcast_quit c msg s = (Some tt, s', o)
          ∧ leaving c (Client.nick cl) s' ∧ listed_only c [] s'.
Proof.
  intros Hs Hlive Hc Hr. unfold broadcast_quit.
  rewrite (bind_the_client _ _ _ Hc), bind_run.
  destruct (quit_loop_ok (elements (Client.channels cl)) ∅ s)
    as (acc & s' & o & Hfold & Hs' & Hl').
  - split; [done|]. split; [done|]. by exists cl.
  - intros k ch n Hk Hin.
    destruct (wf_member s k ch n c Hs Hk Hin) as (_ & x & Hx & _ & _ & Hkin).
    simplify_eq. by apply elem_of_elements.
  - unfold quit_round in Hfold. rewrite Hfold. by eexists _, _.
Qed.
End Quit.

Section Cleanup.
Variable re : string → string → option bool.
Context (c : cid).

Lemma sweep_ok nick k s :
  swept c s → ∃ s' o, sweep nick k s = (Some tt, s', o) ∧ swept c s'.
Proof.
  intros (Hs & Hlive & Hu1 & Hu2). unfold sweep. rewrite bind_get_state.
  destruct (OrderedDict.get (channels s) k) as [ch|] eqn:Hk;
    [|by exists s, []].
  unfold update_channel. rewrite bind_modify. unfold set_channel. rewrite Hk.
  set (s1 := with_channels _ s).
  assert (Hs1 : swept c s1).
  { split; [|split; [done|split; [done|]]].
    - apply (wf_shrink_channel s Hs k ch); [done| |].
      + apply channel_ok_remove_member, (wf_channel _ _ Hs k ch Hk).
      + intros n m. cbn. by intros [_ ?]%get_pop_Some.
    - intros k' ch' n. unfold s1. cbn [channels with_channels].
      intros [[-> ->]|[Hne Hk']]%get_set_Some.
      + cbn. intros [_ Hin]%get_pop_Some. by apply (Hu2 k ch n).
      + by apply (Hu2 k' ch' n). }
  destruct (drop_if_empty_run k s1) as (s2 & -> & [->| ->]); eexists _, _;
    (split; [done|]); [done|].
  destruct Hs1 as (Hs1 & Hl1 & Hu1' & Hu2').
  split; [by apply wf_pop_channel|]. split; [done|]. split; [done|].
  intros k' ch' n [_ Hk']%get_pop_Some. by apply (Hu2' k' ch' n).
Qed.

Lemma sweep_loop_ok nick l s :
  swept c s → ∃ s' o, for_each l (sweep nick) s = (Some tt, s', o) ∧ swept c s'.
Proof.
  revert s. induction l as [|k l IH]; intros s Hs; [by exists s, []|].
  rewrite for_each_cons, bind_run.
  destruct (sweep_ok nick k s Hs) as (s1 & o1 & -> & Hs1).
  destruct (IH s1 Hs1) as (s2 & o2 & -> & Hs2). by eexists _, _.
Qed.

(** [cleanup] returns, and nothing refers to the client any more. *)
Lemma cleanup_ok msg s :
  well_formed s → c ∈ _all_clients s →
  ∃ s' o, cleanup c msg s = (Some tt, s', o)
          ∧ well_formed s' ∧ c ∈ _all_clients s' ∧ unreferenced s' c.
Proof.
  intros Hs Hlive. destruct (live_object s c Hs Hlive) as [cl Hc].
  unfold cleanup. rewrite (bind_the_client _ _ _ Hc), bind_run.
  assert (∃ s1 o1,
            (if Client.registered cl then broadcast_quit c msg else ret tt) s
            = (Some tt, s1, o1)
            ∧ well_formed s1 ∧ c ∈ _all_clients s1
            ∧ (∃ x, objs s1 !! c = Some x ∧ Client.nick x = Client.nick cl)
            ∧ (∀ k ch n, OrderedDict.get (channels s1) k = Some ch →
                         OrderedDict.get (Channel.members ch) n ≠ Some c))
    as (s1 & o1 & -> & Hs1 & Hl1 & (x & Hx & Hnx) & Hm1).
  { destruct (Client.registered cl) eqn:Hr.
    - destruct (broadcast_quit_ok c cl msg s Hs Hlive Hc Hr)
        as (s1 & o1 & -> & (Hs1 & Hl1 & x & Hx & Hnx & _) & Hlist).
      exists s1, o1. split; [done|]. split; [done|]. split; [done|].
      split; [by exists x|]. intros k ch n Hk Hin.
      specialize (Hlist k ch n Hk Hin). by apply elem_of_nil in Hlist.
    - exists s, []. split; [done|]. split; [done|]. split; [done|].
      split; [by exists cl|].
      by destruct (unregistered_unreferenced s c cl Hs Hc Hr). }
  rewrite bind_modify.
  set (s2 := with_clients _ s1).
  assert (Hx2 : objs s2 !! c = Some x) by done.
  rewrite (bind_the_client _ _ _ Hx2).
  destruct (sweep_loop_ok (Client.nick x) (elements (Client.channels x)) s2)
    as (s3 & o3 & Hloop & Hs3 & Hl3 & Hu3).
  - split; [by apply wf_pop_registry|]. split; [done|]. split; [|done].
    intros n. unfold s2. cbn [clients with_clients].
    intros [Hne Hn]%get_pop_Some.
    destruct (wf_registry _ _ Hs1 n c Hn) as (_ & x' & Hx' & Hn' & _).
    by simplify_eq.
  - unfold sweep in Hloop. rewrite Hloop. by eexists _, _.
Qed.

Lemma good_cmd_QUIT params s :
  well_formed s → c ∈ _all_clients s → good re c (cmd_QUIT c params s).
Proof.
  intros Hs Hlive. unfold cmd_QUIT. cbv zeta. rewrite bind_run.
  destruct (cleanup_ok (match params with p :: _ => p | [] => "Quit" end) s Hs Hlive)
    as (s' & o & -> & Hs' & Hl' & _).
  apply good_prepend. split; [done|]. split; [done|]. by eauto.
Qed.

(** The end of a connection leaves a well-formed state. *)
Lemma disconnect_ok s :
  well_formed s → c ∈ _all_clients s → well_formed (state_of (disconnect c s)).
Proof.
  intros Hs Hlive. unfold disconnect. rewrite bind_run.
  destruct (cleanup_ok "Connection closed" s Hs Hlive)
    as (s' & o & -> & Hs' & Hl' & Hu').
  rewrite state_of_prepend. by apply wf_discard.
Qed.
End Cleanup.

(** ** Every state the server reaches is well formed *)

Section Reachable.
Variable re : string → string → option bool.

Lemma good_handler now c cmd handler params s :
  OrderedDict.get (handlers re now) cmd = Some handler →
  well_formed s → c ∈ _all_clients s → good re c (handler c params s).
Proof.
  intros Hh Hs Hlive. unfold handlers in Hh. cbn [OrderedDict.get] in Hh.
  repeat (case_decide; [injection Hh as <-|]); [..|done].
  - apply good_silent; [done..|apply silent_cmd_CAP].
  - by apply good_cmd_NICK.
  - by apply good_cmd_USER.
  - apply good_silent; [done..|apply silent_cmd_PING].
  - apply good_silent; [done..|apply silent_cmd_PONG].
  - by apply good_cmd_QUIT.
  - by apply good_cmd_JOIN.
  - by apply good_cmd_PART.
  - apply good_silent; [done..|by apply silent_send_message].
  - apply good_silent; [done..|by apply silent_send_message].
  - by apply good_cmd_TOPIC.
  - apply good_silent; [done..|by apply silent_cmd_NAMES].
  - apply good_silent; [done..|by apply silent_cmd_LIST].
  - by apply good_cmd_INVITE.
  - by apply good_cmd_KICK.
  - by apply good_cmd_MODE.
  - apply good_silent; [done..|by apply silent_cmd_WHO].
  - apply good_silent; [done..|by apply silent_cmd_WHOIS].
  - by apply good_cmd_AWAY.
  - apply good_silent; [done..|by apply silent_cmd_ISON].
  - apply good_silent; [done..|by apply silent_cmd_USERHOST].
  - apply good_silent; [done..|by apply silent_cmd_VERSION].
  - apply good_silent; [done..|by apply silent_cmd_TIME].
  - apply good_silent; [done..|by apply silent_cmd_INFO].
  - apply good_silent; [done..|by apply silent_send_lusers].
  - apply good_silent; [done..|by apply silent_send_motd].
  - apply good_silent; [done..|by apply silent_cmd_OPER].
Qed.

Lemma good_dispatch now c line s :
  well_formed s → c ∈ _all_clients s → good re c (dispatch re now c line s).
Proof.
  intros Hs Hlive. unfold dispatch.
  destruct (parse_line line) as [[cmd params]|]; [|by apply good_ret].
  destruct (OrderedDict.get (handlers re now) cmd) as [handler|] eqn:Hh.
  - by apply (good_handler now c cmd).
  - destruct (live_object s c Hs Hlive) as [cl Hc].
    rewrite (bind_the_client _ _ _ Hc).
    destruct (Client.registered cl); [by apply good_reply|by apply good_ret].
Qed.

Lemma good_on_frame now c frame s :
  well_formed s → c ∈ _all_clients s → good re c (on_frame re now c frame s).
Proof.
  intros Hs Hlive. unfold on_frame. apply good_for_each; [done..|].
  intros line s' _. apply good_dispatch.
Qed.

Lemma wf_step e s : well_formed s → well_formed (step re e s).1.
Proof.
  intros Hs. destruct e as [c host|now c text|c]; cbn [step].
  - case_decide; [|done]. by apply wf_accept.
  - case_decide as Hlive; [|done]. cbv zeta.
    destruct (good_on_frame now c text s Hs Hlive) as (Hs' & Hl' & _).
    destruct (returned _); [done|]. by apply disconnect_ok.
  - case_decide as Hlive; [|done]. by apply disconnect_ok.
Qed.

Lemma wf_run script s : well_formed s → well_formed (run re script s).1.
Proof.
  revert s. induction script as [|e script IH]; intros s Hs; [done|].
  cbn [run]. pose proof (wf_step e s Hs) as Hs1.
  destruct (step re e s) as [s1 o1]. specialize (IH s1 Hs1).
  by destruct (run re script s1) as [s2 o2].
Qed.

Lemma reachable_wf s : reachable re s → well_formed s.
Proof. intros (t & script & ->). apply wf_run, wf_new. Qed.
End Reachable.

(** X18.  In every state the server reaches, a nick of the
    registry stands for a live connection, whose client is registered
    and has that very nick. *)
Theorem registry_names_live_clients re s n c :
  reachable re s →
  OrderedDict.get (clients s) n = Some c →
  c ∈ _all_clients s
  ∧ ∃ cl, objs s !! c = Some cl ∧ Client.nick cl = n ∧ Client.registered cl = true.
Proof. intros Hs%reachable_wf Hn. by apply (wf_registry _ _ Hs). Qed.

(** X19.  In every state the server reaches, an entry of the
    member list of a channel stands for a live connection, whose client
    is registered, has the nick of the entry and counts the channel
    among its own. *)
Theorem members_are_live_clients re s k ch n m :
  reachable re s →
  OrderedDict.get (channels s) k = Some ch →
  OrderedDict.get (Channel.members ch) n = Some m →
  m ∈ _all_clients s
  ∧ ∃ cl, objs s !! m = Some cl ∧ Client.nick cl = n ∧ Client.registered cl = true
          ∧ k ∈ Client.channels cl.
Proof. intros Hs%reachable_wf Hk Hn. by apply (wf_member s k ch). Qed.

(** X20.  In every state the server reaches, a channel is
    registered under its name in lower case, the name is a valid channel
    name, its operators and voiced nicks are members, its modes are
    letters of [mntispkl], the flags [k] and [l] are set exactly when the
    channel has a key, respectively a limit, and no mask is twice on the
    ban list. *)
Theorem channels_well_formed re s k ch :
  reachable re s →
  OrderedDict.get (channels s) k = Some ch →
  channel_ok k ch.
Proof. intros Hs%reachable_wf Hk. by apply (wf_channel _ _ Hs). Qed.

(** X21.  In every state the server reaches, a client is
    registered exactly when it has sent both NICK and USER; its nick is
    valid once NICK has been accepted and [*] before; an unregistered
    client is on no channel; the user name has at most ten characters
    and the user modes are among [i] and [o]. *)
Theorem clients_well_formed re s c cl :
  reachable re s →
  objs s !! c = Some cl →
  client_ok cl.
Proof. intros Hs%reachable_wf Hc. by apply (wf_client _ _ Hs c). Qed.


(** X23.  A registered client changes its nick, in a state
    the server reaches: the object carries the new nick, the registry
    has the client under the new nick and no longer under the old one,
    every member list that has the client has it under the new nick, and
    the client itself is told. *)
Theorem nick_change_carried_through re s c cl new :
  reachable re s → c ∈ _all_clients s →
  objs s !! c = Some cl → Client.registered cl = true →
  valid_nick new = true →
  nick_in_use s new = false ∨ new = Client.nick cl →
  let r := cmd_NICK c [new] s in
  objs (state_of r) !! c = Some (Client.with_nick new cl)
  ∧ OrderedDict.get (clients (state_of r)) new = Some c
  ∧ (new ≠ Client.nick cl →
     OrderedDict.get (clients (state_of r)) (Client.nick cl) = None)
  ∧ (∀ k ch n, OrderedDict.get (channels (state_of r)) k = Some ch →
               OrderedDict.get (Channel.members ch) n = Some c → n = new)
  ∧ Send c (":" +:+ Client.mask cl +:+ " NICK :" +:+ new) ∈ output_of r.
Proof.
  intros Hs%reachable_wf Hlive Hc Hr Hv Hfree r.
  set (s0 := with_clients
               (OrderedDict.set (OrderedDict.pop (clients s) (Client.nick cl)) new c) s).
  set (s1 := with_objs (alter (Client.with_nick new) c (objs s0)) s0).
  destruct (rename_loop c cl new Hv Hr (elements (Client.channels cl)) {[c]} s1)
    as (acc' & s' & o & Hfold & Hs' & Hl').
  { intros k. apply elem_of_elements. }
  { exact (wf_renamed c cl new Hv Hr s Hs Hlive Hc). }
  { done. }
  { unfold s1, s0. cbn [objs with_objs with_clients]. by rewrite lookup_alter_eq, Hc. }
  destruct (rename_loop_frame c cl new _ _ _ _ _ _ Hfold) as (E1 & E2 & Hsub & ->).
  assert (Hrun : r = (Some tt, s',
                      (λ m, Send m (":" +:+ Client.mask cl +:+ " NICK :" +:+ new))
                        <$> elements acc')).
  { unfold r, cmd_NICK. rewrite Hv. cbn [negb].
    rewrite bind_get_state, (bind_the_client _ _ _ Hc).
    assert (nick_in_use s new && negb (bool_decide (new = Client.nick cl)) = false)
      as ->.
    { destruct Hfree as [->|Heq]; [done|].
      rewrite (bool_decide_eq_true_2 _ Heq). apply andb_false_r. }
    cbv zeta. rewrite Hr. rewrite bind_modify, bind_update_client, bind_run.
    fold s0 s1. unfold rename_round in Hfold. cbv zeta in Hfold.
    rewrite Hfold. rewrite prepend_nil.
    apply (for_each_send_run _ (λ _, ":" +:+ Client.mask cl +:+ " NICK :" +:+ new)). }
  rewrite Hrun. cbn [state_of output_of fst snd].
  split; [|split; [|split; [|split]]].
  - rewrite E2. unfold s1, s0. cbn [objs with_objs with_clients].
    by rewrite lookup_alter_eq, Hc.
  - rewrite E1. unfold s1, s0. cbn [clients with_objs with_clients]. apply get_set_eq.
  - intros Hne. rewrite E1. unfold s1, s0. cbn [clients with_objs with_clients].
    rewrite get_set_ne by done. apply get_pop_eq.
  - intros k ch n Hk Hn.
    destruct (wf_member s' k ch n c Hs' Hk Hn) as (_ & x & Hx & Hnx & _).
    rewrite E2 in Hx. unfold s1, s0 in Hx. cbn [objs with_objs with_clients] in Hx.
    rewrite lookup_alter_eq, Hc in Hx. cbn in Hx. by simplify_eq.
  - apply list_elem_of_fmap. exists c. split; [done|].
    apply elem_of_elements, Hsub. by apply elem_of_singleton.
Qed.

(** X24.  When a connection ends, in a state the server
    reaches, nothing refers to it any more: it is not among the
    connections, no nick of the registry and no entry of a member list
    stands for it. *)
Theorem connection_end_forgotten re s c :
  reachable re s → c ∈ _all_clients s →
  let s' := (step re (Closed c) s).1 in
  (c ∉ _all_clients s')
  ∧ (∀ n, OrderedDict.get (clients s') n ≠ Some c)
  ∧ (∀ k ch n, OrderedDict.get (channels s') k = Some ch →
               OrderedDict.get (Channel.members ch) n ≠ Some c).
Proof.
  intros Hs%reachable_wf Hlive s'.
  assert (∃ s1, s' = with_all_clients (_all_clients s1 ∖ {[c]}) s1
                ∧ unreferenced s1 c) as (s1 & -> & Hu1 & Hu2).
  { unfold s'. cbn [step]. rewrite decide_True by done. cbv zeta.
    unfold disconnect. rewrite bind_run.
    destruct (cleanup_ok c "Connection closed" s Hs Hlive)
      as (s1 & o & -> & _ & _ & Hu).
    exists s1. by split. }
  split; [|by split].
  cbn. intros [_ Hne]%elem_of_difference. apply Hne. by apply elem_of_singleton.
Qed.

(** ** Messages to a channel *)

Lemma for_each_send_others (l : list cid) c line s :
  for_each l (λ member, if decide (member ≠ c) then send member line else ret tt) s
  = (Some tt, s, (λ m, Send m line) <$> filter (λ m, m ≠ c) l).
Proof.
  induction l as [|m l IH]; [done|].
  rewrite for_each_cons, bind_run, filter_cons.
  destruct (decide (m ≠ c)).
  - unfold send at 1, emit. rewrite IH. done.
  - unfold ret at 1. rewrite IH. done.
Qed.

(** X16.  A message to a channel that passes the gates of the
    modes [n] and [m] goes once to every entry of the member list but
    the sender's, in the order of the list, and changes nothing. *)
Theorem channel_message_fan_out s c cl target text cmd ch :
  objs s !! c = Some cl → Client.registered cl = true →
  is_channel_target target = true →
  OrderedDict.get (channels s) (Py.lower target) = Some ch →
  "n"%char ∉ Channel.modes ch ∨ Py.lower target ∈ Client.channels cl →
  "m"%char ∉ Channel.modes ch ∨ Client.nick cl ∈ Channel.ops ch
    ∨ Client.nick cl ∈ Channel.voices ch →
  _send_message c [target; text] cmd s
  = (Some tt, s,
     (λ m, Send m (":" +:+ Client.mask cl +:+ " " +:+ cmd +:+ " " +:+ target
                   +:+ " :" +:+ text))
       <$> filter (λ m, m ≠ c) (OrderedDict.values (Channel.members ch))).
Proof.
  intros Hc Hr Ht Hk Hn Hm. unfold _send_message.
  rewrite (bind_the_client _ _ _ Hc), Hr. cbn [negb]. rewrite Ht.
  rewrite bind_get_state, Hk.
  assert (bool_decide ("n"%char ∈ Channel.modes ch)
          && negb (bool_decide (Py.lower target ∈ Client.channels cl)) = false) as ->.
  { destruct Hn as [H|H].
    - by rewrite (bool_decide_eq_false_2 _ H).
    - rewrite (bool_decide_eq_true_2 _ H). apply andb_false_r. }
  assert (bool_decide ("m"%char ∈ Channel.modes ch)
          && negb (bool_decide (Client.nick cl ∈ Channel.ops ch))
          && negb (bool_decide (Client.nick cl ∈ Channel.voices ch)) = false) as ->.
  { destruct Hm as [H|[H|H]].
    - by rewrite (bool_decide_eq_false_2 _ H).
    - rewrite (bool_decide_eq_true_2 _ H). cbn [negb]. by rewrite andb_false_r.
    - rewrite (bool_decide_eq_true_2 _ H). apply andb_false_r. }
  apply for_each_send_others.
Qed.


(* ===================================================================== *)
(** * The further theorems at work *)
(* ===================================================================== *)

(** A decidable fact about a concrete state, by evaluation. *)
Ltac evaluated := apply (bool_decide_unpack _); vm_compute; exact I.

Lemma topic_set_then_read_witness :
  let s := state_after two_in_test in
  let s1 := state_of (cmd_TOPIC 0 ["#test"; "hello"] s) in
  cmd_TOPIC 1 ["#TEST"] s1
  = (Some tt, s1, [Reply 1 "bob" RPL_TOPIC ["#TEST"; "hello"]]).
Proof.
  cbv zeta.
  destruct (topic_set_then_read (state_after two_in_test) 0 (alice_on "#test")
              1 (bob_on "#test") "#test" "#TEST" test_with_bob "hello")
    as [_ H].
  - vm_compute. reflexivity.
  - vm_compute. reflexivity.
  - vm_compute. reflexivity.
  - left. evaluated.
  - reflexivity.
  - exact H.
Defined.

Lemma away_announced_witness :
  let s := state_after (alice_registers ++ bob_registers) in
  output_of (cmd_PRIVMSG 1 ["alice"; "hi"] (state_of (cmd_AWAY 0 ["lunch"] s)))
  = [Reply 1 "bob" RPL_AWAY ["alice"; "lunch"];
     Send 0 ":bob!b@h1 PRIVMSG alice :hi"].
Proof.
  cbv zeta.
  destruct (away_announced (state_after (alice_registers ++ bob_registers))
              0 alice 1 bob "lunch" "hi") as [H _].
  - vm_compute. reflexivity.
  - vm_compute. reflexivity.
  - reflexivity.
  - vm_compute. reflexivity.
  - reflexivity.
  - exact H.
Defined.

Lemma ban_set_then_lifted_witness :
  let s := state_after alice_in_test in
  let s1 := state_of (handle_channel_mode 0 "#test" ["+b"; "*!*@h9"] s) in
  state_of (handle_channel_mode 0 "#test" ["-b"; "*!*@h9"] s1) = s.
Proof.
  cbv zeta.
  destruct (ban_set_then_lifted (state_after alice_in_test) 0 (alice_on "#test")
              "#test" test_channel "*!*@h9") as (_ & _ & H).
  - vm_compute. reflexivity.
  - vm_compute. reflexivity.
  - left. evaluated.
  - apply H. evaluated.
Defined.

Lemma limit_wants_a_number_witness :
  let s := state_after alice_in_test in
  handle_channel_mode 0 "#test" ["+l"; "many"] s = (Some tt, s, []).
Proof.
  cbv zeta.
  refine (limit_wants_a_number (state_after alice_in_test) 0 (alice_on "#test")
            "#test" test_channel _ _ _ "many").
  - vm_compute. reflexivity.
  - vm_compute. reflexivity.
  - left. evaluated.
Defined.

Lemma operator_by_own_mode_witness :
  let s := state_after two_in_test in
  let s1 := state_of (cmd_MODE 1 ["bob"; "+o"] s) in
  let s2 := state_of (cmd_MODE 1 ["#test"; "+o"; "bob"] s1) in
  OrderedDict.get (channels s2) "#test"
  = Some (Channel.with_ops (Channel.ops test_with_bob ∪ {["bob"]}) test_with_bob).
Proof.
  cbv zeta.
  destruct (operator_by_own_mode (state_after two_in_test) 1 (bob_on "#test")
              "#test" test_with_bob) as [_ H].
  - vm_compute. reflexivity.
  - vm_compute. reflexivity.
  - reflexivity.
  - reflexivity.
  - vm_compute. reflexivity.
  - vm_compute. reflexivity.
  - exact H.
Defined.

Lemma join_then_part_witness :
  let s := state_after alice_registers in
  state_of (cmd_PART 0 ["#test"] (state_of (cmd_JOIN no_regex 0 ["#test"] s))) = s.
Proof.
  cbv zeta.
  destruct (join_then_part no_regex (state_after alice_registers) 0 alice "#test")
    as (_ & _ & H).
  - vm_compute. reflexivity.
  - reflexivity.
  - reflexivity.
  - reflexivity.
  - vm_compute. reflexivity.
  - evaluated.
  - exact H.
Defined.

Lemma registry_names_live_clients_witness :
  let s := state_after alice_registers in
  0 ∈ _all_clients s
  ∧ ∃ cl, objs s !! 0 = Some cl ∧ Client.nick cl = "alice"
          ∧ Client.registered cl = true.
Proof.
  cbv zeta.
  apply (registry_names_live_clients no_regex (state_after alice_registers) "alice" 0).
  - apply reachable_run.
  - vm_compute. reflexivity.
Defined.

Lemma members_are_live_clients_witness :
  let s := state_after two_in_test in
  1 ∈ _all_clients s
  ∧ ∃ cl, objs s !! 1 = Some cl ∧ Client.nick cl = "bob"
          ∧ Client.registered cl = true ∧ "#test" ∈ Client.channels cl.
Proof.
  cbv zeta.
  apply (members_are_live_clients no_regex (state_after two_in_test)
           "#test" test_with_bob "bob" 1).
  - apply reachable_run.
  - vm_compute. reflexivity.
  - vm_compute. reflexivity.
Defined.

Lemma channels_well_formed_witness : channel_ok "#room" room_guarded.
Proof.
  apply (channels_well_formed no_regex (state_after guarded_room) "#room" room_guarded).
  - apply reachable_run.
  - vm_compute. reflexivity.
Defined.

Lemma clients_well_formed_witness : client_ok (bob_on "#test").
Proof.
  apply (clients_well_formed no_regex (state_after two_in_test) 1 (bob_on "#test")).
  - apply reachable_run.
  - vm_compute. reflexivity.
Defined.


Lemma cmd_PART_keeps_channels_inhabited_witness :
  let s := state_after two_in_test in
  no_empty_channel (state_of (cmd_PART 1 ["#test"; "bye"] s)).
Proof.
  cbv zeta.
  apply (cmd_PART_keeps_channels_inhabited 1 ["#test"; "bye"] (state_after two_in_test)).
  intros k ch.
  assert (channels (state_after two_in_test) = [("#test", test_with_bob)]) as ->
    by (vm_compute; reflexivity).
  cbn [OrderedDict.get]. case_decide; [|discriminate].
  intros [= <-]. discriminate.
Defined.

Lemma nick_change_carried_through_witness :
  let s := state_after two_in_test in
  let r := cmd_NICK 1 ["robert"] s in
  OrderedDict.get (clients (state_of r)) "robert" = Some 1
  ∧ OrderedDict.get (clients (state_of r)) "bob" = None
  ∧ Send 1 ":bob!b@h1 NICK :robert" ∈ output_of r.
Proof.
  cbv zeta.
  destruct (nick_change_carried_through no_regex (state_after two_in_test) 1
              (bob_on "#test") "robert") as (_ & H1 & H2 & _ & H3).
  - apply reachable_run.
  - evaluated.
  - vm_compute. reflexivity.
  - reflexivity.
  - reflexivity.
  - left. vm_compute. reflexivity.
  - split; [exact H1|]. split; [|exact H3]. apply H2. discriminate.
Defined.

Lemma connection_end_forgotten_witness :
  let s' := (step no_regex (Closed 1) (state_after two_in_test)).1 in
  (1 ∉ _all_clients s')
  ∧ (∀ n, OrderedDict.get (clients s') n ≠ Some 1)
  ∧ (∀ k ch n, OrderedDict.get (channels s') k = Some ch →
               OrderedDict.get (Channel.members ch) n ≠ Some 1).
Proof.
  apply (connection_end_forgotten no_regex (state_after two_in_test) 1).
  - apply reachable_run.
  - evaluated.
Defined.

Lemma channel_message_fan_out_witness :
  cmd_PRIVMSG 0 ["#test"; "hi"] (state_after two_in_test)
  = (Some tt, state_after two_in_test, [Send 1 ":alice!a@h0 PRIVMSG #test :hi"]).
Proof.
  unfold cmd_PRIVMSG.
  rewrite (channel_message_fan_out (state_after two_in_test) 0 (alice_on "#test")
             "#test" "hi" "PRIVMSG" test_with_bob).
  - vm_compute. reflexivity.
  - vm_compute. reflexivity.
  - reflexivity.
  - reflexivity.
  - vm_compute. reflexivity.
  - left. evaluated.
  - left. evaluated.
Defined.

